(** * Aethra: the analysis worker (worker-hf.js)

    A shallow embedding of the worker's retry helper, storage and inference
    wrappers, frame-result aggregator, the two analysis pipelines and the run
    controller, together with the properties the specification states about
    them, and of the backend's service-key checks and report update that
    the worker's requests meet.

    The worker is JavaScript, and the embedding follows its runtime:
    - values are trees ([JS.value]): the JSON values, [undefined], and the
      non-finite numbers arithmetic can produce; property access, truthiness
      and the conversions to string and to number are those of ECMAScript on
      such values;
    - a Number is a binary64 value kept as the rational it denotes; sums,
      products and quotients are the exact results rounded to binary64
      ([JS.round64]), and a Number prints as the shortest decimal that reads
      back as the same binary64 value;
    - strings are strings of 8-bit characters; lower-casing and the classes
      [\s] and [\d] are the ASCII ones;
    - every call that leaves the process (HTTP, object storage, file system,
      ffmpeg, clock, timers) is an event appended to a history, and is
      answered by an environment that is an arbitrary function of that
      history; a computation is a function from the state of the run to
      the way it ends and the state after it: with an outcome (a value or a
      thrown error), or with the end of the process, when an error is
      raised where no promise chain can catch it (the [error] event of an
      ffmpeg that cannot be started, which nothing listens to). *)

From Stdlib Require Import ZArith QArith Qround Qabs Qpower List String Ascii
  Bool Lia Lqa DecimalString Permutation.
Import ListNotations.

Local Open Scope string_scope.
Local Open Scope Z_scope.

(** ** The JavaScript runtime the worker relies on *)

Module JS.

(** *** Strings *)

Definition lower_char (c : ascii) : ascii :=
  let n := nat_of_ascii c in
  if (65 <=? n)%nat && (n <=? 90)%nat then ascii_of_nat (n + 32) else c.

(** [String.prototype.toLowerCase], on the ASCII letters. *)
Fixpoint toLowerCase (s : string) : string :=
  match s with
  | EmptyString => EmptyString
  | String c s' => String (lower_char c) (toLowerCase s')
  end.

Definition startsWith (s p : string) : bool := String.prefix p s.

(** [String.prototype.includes]. *)
Fixpoint includes (s needle : string) : bool :=
  startsWith s needle ||
  match s with
  | EmptyString => false
  | String _ s' => includes s' needle
  end.

Fixpoint endsWith (s suffix : string) : bool :=
  String.eqb s suffix ||
  match s with
  | EmptyString => false
  | String _ s' => endsWith s' suffix
  end.

(** [s.slice(0, n)] for a non-negative [n]. *)
Fixpoint slice0 (n : nat) (s : string) : string :=
  match n, s with
  | S n', String c s' => String c (slice0 n' s')
  | _, _ => EmptyString
  end.

(** [s.slice(n)] for a non-negative [n]. *)
Fixpoint drop (n : nat) (s : string) : string :=
  match n, s with
  | S n', String _ s' => drop n' s'
  | _, _ => s
  end.

(** [Array.prototype.join]. *)
Fixpoint join (sep : string) (l : list string) : string :=
  match l with
  | [] => ""
  | [x] => x
  | x :: rest => x ++ sep ++ join sep rest
  end.

Fixpoint repeat_string (s : string) (n : nat) : string :=
  match n with
  | O => ""
  | S n' => s ++ repeat_string s n'
  end.

Definition is_digit (c : ascii) : bool :=
  let n := nat_of_ascii c in (48 <=? n)%nat && (n <=? 57)%nat.

(** The ASCII part of the [\s] class: TAB, LF, VT, FF, CR and SPACE. *)
Definition is_space (c : ascii) : bool :=
  let n := nat_of_ascii c in ((9 <=? n)%nat && (n <=? 13)%nat) || (n =? 32)%nat.

Definition digit_value (c : ascii) : Z := Z.of_nat (nat_of_ascii c) - 48.

(** The longest prefix of [s] made of characters satisfying [p], and the rest. *)
Fixpoint span (p : ascii -> bool) (s : string) : string * string :=
  match s with
  | EmptyString => ("", "")
  | String c s' =>
      if p c then let '(a, b) := span p s' in (String c a, b) else ("", s)
  end.

(** The value of a string of decimal digits. *)
Fixpoint digits_value_from (acc : Z) (s : string) : Z :=
  match s with
  | EmptyString => acc
  | String c s' => digits_value_from (10 * acc + digit_value c) s'
  end.

Definition digits_value (s : string) : Z := digits_value_from 0 s.

Definition Z_to_string (z : Z) : string := NilZero.string_of_int (Z.to_int z).

Fixpoint rev_string_onto (s acc : string) : string :=
  match s with
  | EmptyString => acc
  | String c s' => rev_string_onto s' (String c acc)
  end.

Definition rev_string (s : string) : string := rev_string_onto s "".

Definition trim_left (s : string) : string := snd (span is_space s).
Definition trim (s : string) : string :=
  rev_string (trim_left (rev_string (trim_left s))).

(** *** Numbers

    A Number is NaN, an infinity or a finite binary64 value, kept as the
    rational it denotes (in lowest terms, so that equal numbers are equal
    terms).  Negative zero is not told apart from zero: nothing in the worker
    observes the difference. *)

Inductive number : Type :=
| NaN
| Infinity (negative : bool)
| Finite (q : Q).

Definition round_half_even_div (n d : Z) : Z :=
  let q := n / d in
  let r := n mod d in
  match 2 * r ?= d with
  | Lt => q
  | Gt => q + 1
  | Eq => if Z.even q then q else q + 1
  end.

(** [n/d] divided by [2^k], as a fraction. *)
Definition scale2 (n d k : Z) : Z * Z :=
  if 0 <=? k then (n, d * 2 ^ k) else (n * 2 ^ (- k), d).

(** The floor of the binary logarithm of [n/d], for positive [n] and [d]. *)
Definition floor_log2 (n d : Z) : Z :=
  let k := Z.log2 n - Z.log2 d in
  let '(n', d') := scale2 n d k in
  if n' <? d' then k - 1 else k.

Definition pow2Q (p : Z) : Q :=
  if 0 <=? p then inject_Z (2 ^ p) else Qred (1 # Z.to_pos (2 ^ (- p))).

(** The exponent of the last place of a positive fraction [n/d] in binary64:
    53 significant bits, exponents down to the subnormal range. *)
Definition binade (n d : Z) : Z := Z.max (floor_log2 n d) (-1022) - 52.

(** [n/d] in units of the last place, rounded to the nearest integer, ties
    to even. *)
Definition mantissa (n d : Z) : Z :=
  round_half_even_div (fst (scale2 n d (binade n d))) (snd (scale2 n d (binade n d))).

(** Round a positive fraction to the nearest binary64 value, ties to even,
    overflow to infinity. *)
Definition round64_pos (n d : Z) : number :=
  let m := mantissa n d in
  let p := binade n d in
  if m =? 0 then Finite 0
  else if 1024 <=? Z.log2 m + p then Infinity false
  else Finite (Qred (inject_Z m * pow2Q p)).

Definition negate (x : number) : number :=
  match x with
  | NaN => NaN
  | Infinity s => Infinity (negb s)
  | Finite q => Finite (Qred (- q))
  end.

Definition round64 (q : Q) : number :=
  match Qnum q with
  | Z0 => Finite 0
  | Zpos n => round64_pos (Zpos n) (Zpos (Qden q))
  | Zneg n => negate (round64_pos (Zpos n) (Zpos (Qden q)))
  end.

Definition of_Z (z : Z) : number := round64 (inject_Z z).

(** The Number a decimal literal [m * 10^e] denotes. *)
Definition of_decimal (m e : Z) : number :=
  if 0 <=? e then round64 (inject_Z (m * 10 ^ e))
  else round64 (m # Z.to_pos (10 ^ (- e))).

Definition is_NaN (x : number) : bool :=
  match x with NaN => true | _ => false end.

(** [x * y], [x + y] and [x / y] of IEEE 754, the exact result rounded. *)
Definition mul (x y : number) : number :=
  match x, y with
  | NaN, _ | _, NaN => NaN
  | Infinity s, Infinity t => Infinity (xorb s t)
  | Infinity s, Finite q | Finite q, Infinity s =>
      match Qnum q with
      | Z0 => NaN
      | Zpos _ => Infinity s
      | Zneg _ => Infinity (negb s)
      end
  | Finite p, Finite q => round64 (p * q)
  end.

Definition add (x y : number) : number :=
  match x, y with
  | NaN, _ | _, NaN => NaN
  | Infinity s, Infinity t => if Bool.eqb s t then Infinity s else NaN
  | Infinity s, Finite _ | Finite _, Infinity s => Infinity s
  | Finite p, Finite q => round64 (p + q)
  end.

Definition div (x y : number) : number :=
  match x, y with
  | NaN, _ | _, NaN => NaN
  | Infinity _, Infinity _ => NaN
  | Infinity s, Finite q => Infinity (if Qnum q <? 0 then negb s else s)
  | Finite _, Infinity _ => Finite 0
  | Finite p, Finite q =>
      match Qnum q, Qnum p with
      | Z0, Z0 => NaN
      | Z0, Zpos _ => Infinity false
      | Z0, Zneg _ => Infinity true
      | _, _ => round64 (p / q)
      end
  end.

(** [x < y] and [x > y]: false as soon as an operand is NaN. *)
Definition lt (x y : number) : bool :=
  match x, y with
  | NaN, _ | _, NaN => false
  | Infinity s, Infinity t => s && negb t
  | Infinity s, Finite _ => s
  | Finite _, Infinity t => negb t
  | Finite p, Finite q => if Qlt_le_dec p q then true else false
  end.

Definition gt (x y : number) : bool := lt y x.

(** [Math.max(x, y)] and [Math.min(x, y)]. *)
Definition Math_max (x y : number) : number :=
  if is_NaN x || is_NaN y then NaN else if lt x y then y else x.

Definition Math_min (x y : number) : number :=
  if is_NaN x || is_NaN y then NaN else if lt y x then y else x.

(** [Math.round]: the nearest integer, a tie going up. *)
Definition Math_round (x : number) : number :=
  match x with
  | Finite q => Finite (inject_Z (Qfloor (q + (1 # 2))))
  | _ => x
  end.

(** Truthiness of a Number: all but 0 and NaN. *)
Definition number_truthy (x : number) : bool :=
  match x with
  | NaN => false
  | Infinity _ => true
  | Finite q => negb (Qnum q =? 0)
  end.

(** *** Number to string and back *)

(** The number of decimal digits of a positive integer. *)
Definition nb_digits (z : Z) : Z := Z.of_nat (String.length (Z_to_string z)).

(** [n/d] divided by [10^k], as a fraction. *)
Definition scale10 (n d k : Z) : Z * Z :=
  if 0 <=? k then (n, d * 10 ^ k) else (n * 10 ^ (- k), d).

(** The least [n] with [a/b < 10^n], for positive [a] and [b]. *)
Definition decimal_exponent (a b : Z) : Z :=
  let t := nb_digits a - nb_digits b in
  let '(a', b') := scale10 a b t in
  if a' <? b' then t else t + 1.

(** [a/b] rounded to [k] significant digits: the digits as an integer [s] and
    the exponent [n] such that the rounded value is [s * 10^(n-k)]. *)
Definition to_precision (a b k : Z) : Z * Z :=
  let n := decimal_exponent a b in
  let '(a', b') := scale10 a b (n - k) in
  (round_half_even_div a' b', n).

Definition roundtrips (a b s n k : Z) : bool :=
  match of_decimal s (n - k), round64 (a # Z.to_pos b) with
  | Finite x, Finite y => Qeq_bool x y
  | _, _ => false
  end.

(** The shortest digit string that reads back as the binary64 value [a/b]:
    the search of Number::toString, from 1 digit up to the 17 that always
    suffice. *)
Fixpoint shortest_digits (fuel : nat) (a b k : Z) : Z * Z :=
  let '(s, n) := to_precision a b k in
  match fuel with
  | O => (s, n - k)
  | S fuel' =>
      if roundtrips a b s n k then (s, n - k) else shortest_digits fuel' a b (k + 1)
  end.

Fixpoint strip_zeros_rev (s : string) : string :=
  match s with
  | String "0" s' => strip_zeros_rev s'
  | _ => s
  end.

Definition strip_trailing_zeros (s : string) : string :=
  rev_string (strip_zeros_rev (rev_string s)).

(** Number::toString for a positive finite value, given its digits [ds] and
    the position [n] of the decimal point (ECMA-262, 6.1.6.1.20). *)
Definition format_digits (ds : string) (n : Z) : string :=
  let k := Z.of_nat (String.length ds) in
  if (k <=? n) && (n <=? 21) then ds ++ repeat_string "0" (Z.to_nat (n - k))
  else if (0 <? n) && (n <=? 21) then
    slice0 (Z.to_nat n) ds ++ "." ++ drop (Z.to_nat n) ds
  else if (-6 <? n) && (n <=? 0) then
    "0." ++ repeat_string "0" (Z.to_nat (- n)) ++ ds
  else
    let e := n - 1 in
    let mark := (if 0 <=? e then "e+" else "e-") ++ Z_to_string (Z.abs e) in
    if k =? 1 then ds ++ mark else slice0 1 ds ++ "." ++ drop 1 ds ++ mark.

Definition positive_to_string (a b : Z) : string :=
  let '(s, e) := shortest_digits 16 a b 1 in
  let all := Z_to_string s in
  format_digits (strip_trailing_zeros all) (Z.of_nat (String.length all) + e).

(** [Number.prototype.toString], also [String(x)] and [`${x}`] on a Number. *)
Definition number_to_string (x : number) : string :=
  match x with
  | NaN => "NaN"
  | Infinity false => "Infinity"
  | Infinity true => "-Infinity"
  | Finite q =>
      match Qnum q with
      | Z0 => "0"
      | Zpos n => positive_to_string (Zpos n) (Zpos (Qden q))
      | Zneg n => "-" ++ positive_to_string (Zpos n) (Zpos (Qden q))
      end
  end.

Definition is_hex_digit (c : ascii) : bool :=
  let n := nat_of_ascii (lower_char c) in
  is_digit c || ((97 <=? n)%nat && (n <=? 102)%nat).

Definition hex_digit_value (c : ascii) : Z :=
  if is_digit c then digit_value c
  else Z.of_nat (nat_of_ascii (lower_char c)) - 87.

Fixpoint radix_value_from (radix acc : Z) (s : string) : option Z :=
  match s with
  | EmptyString => Some acc
  | String c s' =>
      if is_hex_digit c && (hex_digit_value c <? radix)
      then radix_value_from radix (radix * acc + hex_digit_value c) s'
      else None
  end.

(** A non-empty string of digits in the given radix. *)
Definition radix_literal (radix : Z) (s : string) : number :=
  match s with
  | EmptyString => NaN
  | _ => match radix_value_from radix 0 s with
         | Some z => of_Z z
         | None => NaN
         end
  end.

(** An unsigned StrDecimalLiteral: [Infinity], or digits with an optional
    fraction and an optional exponent. *)
Definition unsigned_decimal (s : string) : number :=
  if String.eqb s "Infinity" then Infinity false else
  let '(int_part, r1) := span is_digit s in
  let '(frac_part, r2) :=
    match r1 with
    | String "." r => span is_digit r
    | _ => ("", r1)
    end in
  let has_point := match r1 with String "." _ => true | _ => false end in
  if (String.length int_part + String.length frac_part =? 0)%nat then NaN else
  let mantissa := digits_value (int_part ++ frac_part) in
  let scale := - Z.of_nat (String.length frac_part) in
  match r2 with
  | EmptyString => of_decimal mantissa scale
  | String c r3 =>
      if Ascii.eqb (lower_char c) "e" then
        let '(neg, r4) :=
          match r3 with
          | String "+" r => (false, r)
          | String "-" r => (true, r)
          | _ => (false, r3)
          end in
        let '(exp_digits, r5) := span is_digit r4 in
        match exp_digits, r5 with
        | String _ _, EmptyString =>
            let e := digits_value exp_digits in
            of_decimal mantissa (scale + (if neg then - e else e))
        | _, _ => NaN
        end
      else NaN
  end.

(** StringToNumber (ECMA-262, 7.1.4.1.1): the conversion [Number(s)] and the
    one the arithmetic operators apply to a string operand. *)
Definition string_to_number (s : string) : number :=
  match trim s with
  | EmptyString => Finite 0
  | String "0" (String c rest) as t =>
      if Ascii.eqb (lower_char c) "x" then radix_literal 16 rest
      else if Ascii.eqb (lower_char c) "o" then radix_literal 8 rest
      else if Ascii.eqb (lower_char c) "b" then radix_literal 2 rest
      else unsigned_decimal t
  | String "+" rest => unsigned_decimal rest
  | String "-" rest => negate (unsigned_decimal rest)
  | t => unsigned_decimal t
  end.

(** *** Values

    The values the worker handles are those of JSON, together with
    [undefined] and the non-finite numbers its own arithmetic can produce.
    An object is the list of its own properties in insertion order; an array
    has no property besides its elements. *)

#[warnings="-register-all"]
Inductive value : Type :=
| VUndefined
| VNull
| VBool (b : bool)
| VNumber (x : number)
| VString (s : string)
| VArray (items : list value)
| VObject (fields : list (string * value)).

(** What a [throw] carries: an Error object, seen through its [name] and
    [message], or [undefined]. *)
Inductive thrown : Type :=
| ThrownError (name message : string)
| ThrownUndefined.

Inductive outcome (A : Type) : Type :=
| Return (a : A)
| Throw (e : thrown).
Arguments Return {A} a.
Arguments Throw {A} e.

Definition Error (message : string) : thrown := ThrownError "Error" message.
Definition TypeError (message : string) : thrown := ThrownError "TypeError" message.
Definition SyntaxError (message : string) : thrown := ThrownError "SyntaxError" message.

(** ToBoolean. *)
Definition truthy (v : value) : bool :=
  match v with
  | VUndefined | VNull => false
  | VBool b => b
  | VNumber x => number_truthy x
  | VString s => negb (String.eqb s "")
  | VArray _ | VObject _ => true
  end.

Fixpoint lookup (k : string) (fields : list (string * value)) : option value :=
  match fields with
  | [] => None
  | (k', v) :: rest => if String.eqb k k' then Some v else lookup k rest
  end.

Definition has_own (k : string) (v : value) : bool :=
  match v with
  | VObject fields => match lookup k fields with Some _ => true | None => false end
  | _ => false
  end.

(** [v.k] for a value that is neither [undefined] nor [null], and a key that
    names no built-in property. *)
Definition get (v : value) (k : string) : value :=
  match v with
  | VObject fields => match lookup k fields with Some x => x | None => VUndefined end
  | _ => VUndefined
  end.

(** [v.k] where the code does not guard against [undefined] and [null]. *)
Definition get_checked (v : value) (k : string) : outcome value :=
  match v with
  | VUndefined =>
      Throw (TypeError ("Cannot read properties of undefined (reading '" ++ k ++ "')"))
  | VNull =>
      Throw (TypeError ("Cannot read properties of null (reading '" ++ k ++ "')"))
  | _ => Return (get v k)
  end.

(** [v[0]] for a value that is neither [undefined] nor [null]. *)
Definition index0 (v : value) : value :=
  match v with
  | VArray (x :: _) => x
  | VString (String c _) => VString (String c "")
  | VObject _ => get v "0"
  | _ => VUndefined
  end.

Fixpoint set_field (k : string) (x : value) (fields : list (string * value))
  : list (string * value) :=
  match fields with
  | [] => [(k, x)]
  | (k', v) :: rest =>
      if String.eqb k k' then (k, x) :: rest else (k', v) :: set_field k x rest
  end.

(** [v.k = x] in sloppy mode: a TypeError on [undefined] and [null], ignored
    on a primitive; on an array the new named property is invisible to every
    later use and is dropped. *)
Definition set (v : value) (k : string) (x : value) : outcome value :=
  match v with
  | VUndefined =>
      Throw (TypeError ("Cannot set properties of undefined (setting '" ++ k ++ "')"))
  | VNull =>
      Throw (TypeError ("Cannot set properties of null (setting '" ++ k ++ "')"))
  | VObject fields => Return (VObject (set_field k x fields))
  | _ => Return v
  end.

Definition isArray (v : value) : bool :=
  match v with VArray _ => true | _ => false end.

Definition is_string (v : value) : bool :=
  match v with VString _ => true | _ => false end.

(** [typeof v === "object"]. *)
Definition typeof_object (v : value) : bool :=
  match v with VNull | VArray _ | VObject _ => true | _ => false end.

(** [a || b] and [a && b] on values. *)
Definition or_else (a b : value) : value := if truthy a then a else b.
Definition and_then (a b : value) : value := if truthy a then b else a.

Definition cannot_convert : thrown :=
  TypeError "Cannot convert object to primitive value".

(** ToString.  An object answers "[object Object]" through
    Object.prototype.toString unless an own property shadows [toString]: no
    JSON value is callable, so the conversion then has no method left to
    call.  An array joins its elements with commas, [undefined] and [null]
    counting as empty. *)
Fixpoint ToString (v : value) : outcome string :=
  match v with
  | VUndefined => Return "undefined"
  | VNull => Return "null"
  | VBool true => Return "true"
  | VBool false => Return "false"
  | VNumber x => Return (number_to_string x)
  | VString s => Return s
  | VArray items =>
      let fix elements (l : list value) : outcome (list string) :=
        match l with
        | [] => Return []
        | x :: l' =>
            let first :=
              match x with
              | VUndefined | VNull => Return ""
              | _ => ToString x
              end in
            match first with
            | Throw e => Throw e
            | Return s =>
                match elements l' with
                | Throw e => Throw e
                | Return r => Return (s :: r)
                end
            end
        end in
      match elements items with
      | Throw e => Throw e
      | Return parts => Return (join "," parts)
      end
  | VObject fields =>
      match lookup "toString" fields with
      | Some _ => Throw cannot_convert
      | None => Return "[object Object]"
      end
  end.

(** ToNumber.  Objects and arrays go through their string conversion. *)
Definition ToNumber (v : value) : outcome number :=
  match v with
  | VUndefined => Return NaN
  | VNull => Return (Finite 0)
  | VBool true => Return (Finite 1)
  | VBool false => Return (Finite 0)
  | VNumber x => Return x
  | VString s => Return (string_to_number s)
  | VArray _ | VObject _ =>
      match ToString v with
      | Throw e => Throw e
      | Return s => Return (string_to_number s)
      end
  end.

(** *** JSON.stringify *)

Definition hex_char (n : nat) : ascii :=
  if (n <? 10)%nat then ascii_of_nat (48 + n) else ascii_of_nat (87 + n).

Definition quote_char (c : ascii) : string :=
  let n := nat_of_ascii c in
  if (n =? 8)%nat then "\b"
  else if (n =? 9)%nat then "\t"
  else if (n =? 10)%nat then "\n"
  else if (n =? 12)%nat then "\f"
  else if (n =? 13)%nat then "\r"
  else if (n =? 34)%nat then "\" ++ String c ""
  else if (n =? 92)%nat then "\\"
  else if (n <? 32)%nat then
    "\u00" ++ String (hex_char (n / 16)) (String (hex_char (n mod 16)) "")
  else String c "".

Fixpoint quote_chars (s : string) : string :=
  match s with
  | EmptyString => ""
  | String c s' => quote_char c ++ quote_chars s'
  end.

Definition dquote : string := String (ascii_of_nat 34) "".

(** QuoteJSONString. *)
Definition quote (s : string) : string := dquote ++ quote_chars s ++ dquote.

Definition newline : string := String (ascii_of_nat 10) "".

(** SerializeJSONProperty with the indentation unit [gap] (empty for the
    compact form) at the current [indent].  [None] is the [undefined] that
    makes a property vanish and an array element print as [null]. *)
Fixpoint serialize (gap indent : string) (v : value) : option string :=
  let inner := indent ++ gap in
  let compact := String.eqb gap "" in
  let wrap (opening closing : string) (parts : list string) : string :=
    match parts with
    | [] => opening ++ closing
    | _ =>
        if compact then opening ++ join "," parts ++ closing
        else opening ++ newline ++ inner
             ++ join ("," ++ newline ++ inner) parts
             ++ newline ++ indent ++ closing
    end in
  match v with
  | VUndefined => None
  | VNull => Some "null"
  | VBool true => Some "true"
  | VBool false => Some "false"
  | VNumber (Finite q) => Some (number_to_string (Finite q))
  | VNumber _ => Some "null"
  | VString s => Some (quote s)
  | VArray items =>
      let fix elements (l : list value) : list string :=
        match l with
        | [] => []
        | x :: l' =>
            let item := match serialize gap inner x with
                        | Some s => s
                        | None => "null"
                        end in
            item :: elements l'
        end in
      Some (wrap "[" "]" (elements items))
  | VObject fields =>
      let fix members (l : list (string * value)) : list string :=
        match l with
        | [] => []
        | (k, x) :: l' =>
            match serialize gap inner x with
            | Some s =>
                let item := quote k ++ (if compact then ":" else ": ") ++ s in
                item :: members l'
            | None => members l'
            end
        end in
      Some (wrap "{" "}" (members fields))
  end.

(** [JSON.stringify(v)] and [JSON.stringify(v, null, 2)]; the result is a
    string for every value but [undefined]. *)
Definition JSON_stringify (v : value) : value :=
  match serialize "" "" v with Some s => VString s | None => VUndefined end.

Definition JSON_stringify_pretty (v : value) : value :=
  match serialize "  " "" v with Some s => VString s | None => VUndefined end.

(** The text of a stringification known to be defined. *)
Definition text_of (v : value) : string :=
  match v with VString s => s | _ => "undefined" end.

(** *** JSON.parse *)

Definition is_json_space (c : ascii) : bool :=
  let n := nat_of_ascii c in
  (n =? 32)%nat || (n =? 9)%nat || (n =? 10)%nat || (n =? 13)%nat.

Definition skip_ws (s : string) : string := snd (span is_json_space s).

Definition char_of_code (n : Z) : ascii :=
  if n <? 256 then ascii_of_nat (Z.to_nat n) else "?"%char.

(** The characters of a string literal after its opening quote, and what
    follows the closing quote.  An escaped code unit above 255 has no
    counterpart among 8-bit characters and reads as a question mark. *)
Fixpoint parse_string_body (s : string) : option (string * string) :=
  let cons (c : ascii) (r : option (string * string)) :=
    match r with
    | Some (body, rest) => Some (String c body, rest)
    | None => None
    end in
  match s with
  | EmptyString => None
  | String c r =>
      let n := nat_of_ascii c in
      if (n =? 34)%nat then Some ("", r)
      else if (n <? 32)%nat then None
      else if (n =? 92)%nat then
        match r with
        | String "u" (String h1 (String h2 (String h3 (String h4 r')))) =>
            if is_hex_digit h1 && is_hex_digit h2 && is_hex_digit h3 && is_hex_digit h4
            then
              let code := ((hex_digit_value h1 * 16 + hex_digit_value h2) * 16
                           + hex_digit_value h3) * 16 + hex_digit_value h4 in
              cons (char_of_code code) (parse_string_body r')
            else None
        | String e r' =>
            let m := nat_of_ascii e in
            if (m =? 34)%nat || (m =? 92)%nat || (m =? 47)%nat
            then cons e (parse_string_body r')
            else if Ascii.eqb e "b" then cons (ascii_of_nat 8) (parse_string_body r')
            else if Ascii.eqb e "f" then cons (ascii_of_nat 12) (parse_string_body r')
            else if Ascii.eqb e "n" then cons (ascii_of_nat 10) (parse_string_body r')
            else if Ascii.eqb e "r" then cons (ascii_of_nat 13) (parse_string_body r')
            else if Ascii.eqb e "t" then cons (ascii_of_nat 9) (parse_string_body r')
            else None
        | EmptyString => None
        end
      else cons c (parse_string_body r)
  end.

(** A JSON number: an optional minus, an integer part without a leading
    zero, an optional fraction and an optional exponent. *)
Definition parse_number (s : string) : option (value * string) :=
  let '(neg, r0) := match s with String "-" r => (true, r) | _ => (false, s) end in
  let '(int_part, r1) := span is_digit r0 in
  let int_ok :=
    match int_part with
    | EmptyString => false
    | String "0" (String _ _) => false
    | _ => true
    end in
  let frac :=
    match r1 with
    | String "." r =>
        let '(ds, r') := span is_digit r in
        match ds with EmptyString => None | _ => Some (ds, r') end
    | _ => Some ("", r1)
    end in
  match int_ok, frac with
  | true, Some (frac_part, r2) =>
      let mantissa := digits_value (int_part ++ frac_part) in
      let scale := - Z.of_nat (String.length frac_part) in
      let finish (e : Z) (rest : string) :=
        let x := of_decimal mantissa (scale + e) in
        Some (VNumber (if neg then negate x else x), rest) in
      match r2 with
      | String c r3 =>
          if Ascii.eqb (lower_char c) "e" then
            let '(eneg, r4) :=
              match r3 with
              | String "+" r => (false, r)
              | String "-" r => (true, r)
              | _ => (false, r3)
              end in
            let '(ds, r5) := span is_digit r4 in
            match ds with
            | EmptyString => None
            | _ => finish (if eneg then - digits_value ds else digits_value ds) r5
            end
          else finish 0 r2
      | EmptyString => finish 0 r2
      end
  | _, _ => None
  end.

Fixpoint remove_field (k : string) (fields : list (string * value))
  : list (string * value) :=
  match fields with
  | [] => []
  | (k', v) :: rest =>
      if String.eqb k k' then remove_field k rest else (k', v) :: remove_field k rest
  end.

(** The member [k: v] in front of the members that follow it in the text: a
    later member of the same name overrides the value and keeps the place. *)
Definition define_first (k : string) (v : value) (later : list (string * value))
  : list (string * value) :=
  match lookup k later with
  | Some v' => (k, v') :: remove_field k later
  | None => (k, v) :: later
  end.

Fixpoint parse_value (fuel : nat) (s : string) {struct fuel}
  : option (value * string) :=
  match fuel with
  | O => None
  | S fuel' =>
      match skip_ws s with
      | EmptyString => None
      | String c r as t =>
          if Ascii.eqb c "[" then
            match skip_ws r with
            | String "]" r' => Some (VArray [], r')
            | r' => parse_elements fuel' r'
            end
          else if Ascii.eqb c "{" then
            match skip_ws r with
            | String "}" r' => Some (VObject [], r')
            | r' => parse_members fuel' r'
            end
          else if (nat_of_ascii c =? 34)%nat then
            match parse_string_body r with
            | Some (body, rest) => Some (VString body, rest)
            | None => None
            end
          else if startsWith t "null" then Some (VNull, drop 4 t)
          else if startsWith t "true" then Some (VBool true, drop 4 t)
          else if startsWith t "false" then Some (VBool false, drop 5 t)
          else parse_number t
      end
  end

with parse_elements (fuel : nat) (s : string) {struct fuel}
  : option (value * string) :=
  match fuel with
  | O => None
  | S fuel' =>
      match parse_value fuel' s with
      | Some (v, r) =>
          match skip_ws r with
          | String "]" r' => Some (VArray [v], r')
          | String "," r' =>
              match parse_elements fuel' r' with
              | Some (VArray vs, r'') => Some (VArray (v :: vs), r'')
              | _ => None
              end
          | _ => None
          end
      | None => None
      end
  end

with parse_members (fuel : nat) (s : string) {struct fuel}
  : option (value * string) :=
  match fuel with
  | O => None
  | S fuel' =>
      match skip_ws s with
      | String q r =>
          if (nat_of_ascii q =? 34)%nat then
            match parse_string_body r with
            | Some (k, r1) =>
                match skip_ws r1 with
                | String ":" r2 =>
                    match parse_value fuel' r2 with
                    | Some (v, r3) =>
                        match skip_ws r3 with
                        | String "}" r4 => Some (VObject [(k, v)], r4)
                        | String "," r4 =>
                            match parse_members fuel' r4 with
                            | Some (VObject later, r5) =>
                                Some (VObject (define_first k v later), r5)
                            | _ => None
                            end
                        | _ => None
                        end
                    | None => None
                    end
                | _ => None
                end
            | None => None
            end
          else None
      | EmptyString => None
      end
  end.

Definition parse_text (s : string) : option value :=
  match parse_value (2 * String.length s + 2) s with
  | Some (v, rest) =>
      match skip_ws rest with
      | EmptyString => Some v
      | _ => None
      end
  | None => None
  end.

(** [JSON.parse(v)]: the argument is converted to a string first.  Keys that
    look like array indices are kept where the text has them. *)
Definition JSON_parse (v : value) : outcome value :=
  match ToString v with
  | Throw e => Throw e
  | Return s =>
      match parse_text s with
      | Some x => Return x
      | None => Throw (SyntaxError ("Unexpected token in JSON: " ++ slice0 40 s))
      end
  end.

(** *** Paths (the POSIX flavour of Node's [path]) *)

Definition is_slash (c : ascii) : bool := Ascii.eqb c "/".

Fixpoint split_on_slash (cur : string) (s : string) : list string :=
  match s with
  | EmptyString => [rev_string cur]
  | String c s' =>
      if is_slash c then rev_string cur :: split_on_slash "" s'
      else split_on_slash (String c cur) s'
  end.

(** normalizeString: the segments kept so far are held in reverse. *)
Fixpoint normalize_segments (allow_above_root : bool) (kept : list string)
  (segments : list string) : list string :=
  match segments with
  | [] => rev kept
  | seg :: rest =>
      if String.eqb seg "" || String.eqb seg "." then
        normalize_segments allow_above_root kept rest
      else if String.eqb seg ".." then
        match kept with
        | top :: below =>
            if String.eqb top ".."
            then normalize_segments allow_above_root (seg :: kept) rest
            else normalize_segments allow_above_root below rest
        | [] =>
            if allow_above_root
            then normalize_segments allow_above_root [seg] rest
            else normalize_segments allow_above_root [] rest
        end
      else normalize_segments allow_above_root (seg :: kept) rest
  end.

Definition path_normalize (p : string) : string :=
  match p with
  | EmptyString => "."
  | _ =>
      let absolute := startsWith p "/" in
      let trailing := endsWith p "/" in
      let body := join "/" (normalize_segments (negb absolute) [] (split_on_slash "" p)) in
      let body :=
        match body with
        | EmptyString => if absolute then "" else if trailing then "./" else "."
        | _ => if trailing then body ++ "/" else body
        end in
      if absolute then "/" ++ body else body
  end.

(** [path.join(a, b)]. *)
Definition path_join (a b : string) : string :=
  match a, b with
  | EmptyString, EmptyString => "."
  | EmptyString, _ => path_normalize b
  | _, EmptyString => path_normalize a
  | _, _ => path_normalize (a ++ "/" ++ b)
  end.

(** [path.basename(p)]. *)
Definition path_basename (p : string) : string :=
  let r := snd (span is_slash (rev_string p)) in
  rev_string (fst (span (fun c => negb (is_slash c)) r)).

(** *** Arrays *)

(** [l.slice(0, end)] for a Number [end_]: ToIntegerOrInfinity, a negative
    end counting from the back. *)
Definition slice_to {A : Type} (end_ : number) (l : list A) : list A :=
  let len := Z.of_nat (List.length l) in
  let k :=
    match end_ with
    | NaN => 0
    | Infinity true => 0
    | Infinity false => len
    | Finite q =>
        let z := Z.quot (Qnum q) (Zpos (Qden q)) in
        if z <? 0 then Z.max (len + z) 0 else Z.min z len
    end in
  firstn (Z.to_nat k) l.

End JS.

Import JS.

(** ** Configuration

    The constants worker-hf.js reads from the process environment when it
    starts. *)

Record Config : Type := {
  API_BASE : string;
  SERVICE_KEY : string;
  GCS_BUCKET : string;
  TEMP_DIR : string;
  HF_API_KEY : string;
  HF_AUDIT_MODEL : string;
  HF_FRAME_CLASSIFIER_MODEL : string;
  HF_REPORT_MODEL : string;
  FPS : number;
  MAX_FRAMES : number
}.

(** ** Effects

    Every call that leaves the process is an [event].  The environment is a
    deterministic function of the history: each of its fields maps the
    events so far, ending with the call being answered, to the answer.
    Console output is left out, and so is the crash of the process when
    ffmpeg cannot be spawned at all. *)

Inductive form_field : Type :=
| FormText (name text : string)
| FormFile (name path : string).

Inductive post_body : Type :=
| JsonBody (payload : value)
| FormBody (fields : list form_field).

Inductive event : Type :=
| HttpGet (url authorization : string)
| HttpPatch (url : string) (body : value) (authorization : string)
| HttpPost (url : string) (body : post_body) (authorization : string)
| GcsDownload (bucket object destination : string)
| GcsUpload (bucket localPath destination : string)
| FsMkdir (path : string)
| FsWriteFile (path data : string)
| FsReaddir (path : string)
| FsRm (path : string)
| SpawnFfmpeg (args : list string)
| DateNow
| SetTimeout (delay : Z).

(** What [spawn] does: the child starts; [spawn] itself throws (an errno
    other than the five below); or the child cannot be started (ENOENT,
    EACCES, EAGAIN, EMFILE, ENFILE), which Node reports by an [error] event
    on the child. *)
Inductive spawning : Type :=
| Starts
| SpawnThrows (err : thrown)
| ErrorEvent (err : thrown).

Record Env : Type := {
  (** the [data] of the HTTP response, or the error axios rejects with *)
  http_response : list event -> outcome value;
  (** completion of a storage or file-system call *)
  io_result : list event -> outcome unit;
  (** the names [readdir] lists *)
  readdir_result : list event -> outcome (list string);
  (** whether [spawn("ffmpeg", args)] starts the child *)
  ffmpeg_spawn : list event -> spawning;
  (** the exit code a started ffmpeg closes with, [None] for [null] *)
  ffmpeg_exit : list event -> option Z;
  (** [Date.now()] *)
  clock : list event -> Z
}.

(** The state a run threads: the history of calls, and the [toCleanup] array
    that [run] shares with the pipeline it calls. *)
Record world : Type := {
  log : list event;
  toCleanup : list string
}.

(** How an asynchronous computation ends: its promise settles, fulfilled
    with a value or rejected with an error; or an error is thrown outside
    every promise chain (an [error] event that nothing listens to), and the
    process ends there: no [catch] sees the error and no [finally] runs. *)
Inductive completion (A : Type) : Type :=
| Settled (r : outcome A)
| Uncaught (err : thrown).

Arguments Settled {A} r.
Arguments Uncaught {A} err.

(** A settled promise is written as its outcome. *)
Coercion Settled : outcome >-> completion.

#[local] Arguments pair {A B} & a b.

Definition M (A : Type) : Type := world -> completion A * world.

Definition ret {A : Type} (a : A) : M A := fun w => (Return a, w).

Definition throw {A : Type} (e : thrown) : M A := fun w => (Throw e, w).

Definition bind {A B : Type} (m : M A) (k : A -> M B) : M B :=
  fun w =>
    match m w with
    | (Settled (Return a), w') => k a w'
    | (Settled (Throw e), w') => (Throw e, w')
    | (Uncaught e, w') => (Uncaught e, w')
    end.

(** [try { m } catch (err) { handler err }]. *)
Definition try_catch {A : Type} (m : M A) (handler : thrown -> M A) : M A :=
  fun w =>
    match m w with
    | (Settled (Return a), w') => (Return a, w')
    | (Settled (Throw e), w') => handler e w'
    | (Uncaught e, w') => (Uncaught e, w')
    end.

(** [try { m } finally { cleanup }], for a [cleanup] that completes normally. *)
Definition try_finally {A : Type} (m : M A) (cleanup : M unit) : M A :=
  fun w =>
    match m w with
    | (Uncaught e, w') => (Uncaught e, w')
    | (Settled r, w') =>
        match cleanup w' with
        | (Settled (Return _), w'') => (r, w'')
        | (Settled (Throw e), w'') => (Throw e, w'')
        | (Uncaught e, w'') => (Uncaught e, w'')
        end
    end.

(** A pure computation that may throw. *)
Definition lift {A : Type} (r : outcome A) : M A := fun w => (r, w).

Declare Scope worker_scope.
Delimit Scope worker_scope with worker.
Notation "x <- m ;; k" := (bind m (fun x => k))
  (at level 61, m at next level, right associativity) : worker_scope.
Notation "m ;;; k" := (bind m (fun _ => k))
  (at level 61, right associativity) : worker_scope.
Local Open Scope worker_scope.

Definition record_event (e : event) (w : world) : world :=
  {| log := (log w ++ [e])%list; toCleanup := toCleanup w |}.

(** Make the call [e] and receive what the environment answers. *)
Definition perform {A : Type} (e : event) (answer : list event -> outcome A)
  : M A :=
  fun w => let w' := record_event e w in (answer (log w'), w').

(** [toCleanup.push(p)]. *)
Definition push_cleanup (p : string) : M unit :=
  fun w => (Return tt, {| log := log w; toCleanup := (toCleanup w ++ [p])%list |}).

(** [await new Promise(res => setTimeout(res, delay))]. *)
Definition sleep (delay : Z) : M unit :=
  perform (SetTimeout delay) (fun _ => Return tt).

(** [(err && err.message) || fallback]. *)
Definition message_or (err : thrown) (fallback : string) : string :=
  match err with
  | ThrownError _ message => if String.eqb message "" then fallback else message
  | ThrownUndefined => fallback
  end.

(** [String(err)]: Error.prototype.toString. *)
Definition String_of_thrown (err : thrown) : string :=
  match err with
  | ThrownUndefined => "undefined"
  | ThrownError name message =>
      if String.eqb message "" then name
      else if String.eqb name "" then message
      else name ++ ": " ++ message
  end.

(** ** Aggregation

<<
function aggregateFrameResults(frameResults) {
  let fakeVotes = 0;
  let total = frameResults.length || 1;
  let confidences = [];
  for (const fr of frameResults) { ... }
  const ratio = fakeVotes / total;
  const avgConf = confidences.length
    ? Math.round(confidences.reduce((a,b)=>a+b,0)/confidences.length) : null;
  const verdict = ratio > 0.4 ? "likely_fake" : ratio < 0.1 ? "likely_real" : "inconclusive";
  const confidence = avgConf || Math.round(Math.min(100, Math.max(40, ratio * 100 + 40)));
  return { verdict, confidence, ratio, fakeVotes, total, avgConf };
}
>>
    The function is pure; it can throw only where it converts a label or a
    score that is an object. *)

Inductive Verdict : Type := likely_fake | likely_real | inconclusive.

Definition verdict_text (v : Verdict) : string :=
  match v with
  | likely_fake => "likely_fake"
  | likely_real => "likely_real"
  | inconclusive => "inconclusive"
  end.

Record Aggregate : Type := {
  verdict : Verdict;
  confidence : number;
  ratio : number;
  fakeVotes : nat;
  total : nat;
  avgConf : option number  (* [None] is [null] *)
}.

(** The loop's two accumulators. *)
Record tally : Type := {
  votes : nat;
  confidences : list number
}.

(** [t.includes("fake") || t.includes("synthetic") || t.includes("manipul")]. *)
Definition mentions_fake (t : string) : bool :=
  includes t "fake" || includes t "synthetic" || includes t "manipul".

Definition cast_vote (t : string) (n : nat) : nat :=
  if mentions_fake t then S n else n.

(** [best.label.toString()] for a truthy label: a method call, so an own
    [toString] property, which cannot be a function, makes it throw. *)
Definition label_toString (label : value) : outcome string :=
  match label with
  | VObject fields =>
      match lookup "toString" fields with
      | Some _ => Throw (TypeError "best.label.toString is not a function")
      | None => Return "[object Object]"
      end
  | _ => ToString label
  end.

(** The match of [/confidence[:=]\s*(\d{1,3})/] at the start of [t]: the
    captured digits. *)
Definition confidence_at (t : string) : option string :=
  if startsWith t "confidence" then
    match drop 10 t with
    | String c r =>
        if Ascii.eqb c ":" || Ascii.eqb c "=" then
          match fst (span is_digit (snd (span is_space r))) with
          | EmptyString => None
          | ds => Some (slice0 3 ds)
          end
        else None
    | EmptyString => None
    end
  else None.

(** [t.match(/confidence[:=]\s*(\d{1,3})/)]: the capture of the leftmost
    match, if there is one. *)
Fixpoint match_confidence (t : string) : option string :=
  match confidence_at t with
  | Some ds => Some ds
  | None =>
      match t with
      | EmptyString => None
      | String _ t' => match_confidence t'
      end
  end.

(** The structured branch, entered when [fr.classifier] is an array: [None]
    when its first element has no truthy label and the loop body goes on to
    the other branches. *)
Definition structured_entry (classifier : value) (t : tally)
  : option (outcome tally) :=
  let best := index0 classifier in
  if truthy best && truthy (get best "label") then
    Some
      match label_toString (get best "label") with
      | Throw e => Throw e
      | Return text =>
          let lab := toLowerCase text in
          let votes' := cast_vote lab (votes t) in
          if truthy (get best "score") then
            match ToNumber (get best "score") with
            | Throw e => Throw e
            | Return score =>
                Return {| votes := votes';
                          confidences :=
                            (confidences t ++ [Math_round (mul score (of_Z 100))])%list |}
            end
          else Return {| votes := votes'; confidences := confidences t |}
      end
  else None.

(** The text fallback and the last-resort parse of the loop body. *)
Definition unstructured_entry (fr : value) (t : tally) : tally :=
  match fr with
  | VString s =>
      let txt := toLowerCase s in
      {| votes := cast_vote txt (votes t);
         confidences :=
           match match_confidence txt with
           | Some ds => (confidences t ++ [string_to_number ds])%list
           | None => confidences t
           end |}
  | _ =>
      let txt := toLowerCase (text_of (JSON_stringify fr)) in
      {| votes := cast_vote txt (votes t); confidences := confidences t |}
  end.

(** One iteration of [for (const fr of frameResults)]. *)
Definition frame_entry (fr : value) (t : tally) : outcome tally :=
  if negb (truthy fr) then Return t
  else
    let classifier := get fr "classifier" in
    match
      (if truthy classifier && isArray classifier
       then structured_entry classifier t else None)
    with
    | Some r => r
    | None => Return (unstructured_entry fr t)
    end.

Fixpoint tally_frames (frameResults : list value) (t : tally) : outcome tally :=
  match frameResults with
  | [] => Return t
  | fr :: rest =>
      match frame_entry fr t with
      | Throw e => Throw e
      | Return t' => tally_frames rest t'
      end
  end.

Definition number_of_nat (n : nat) : number := of_Z (Z.of_nat n).

(** [confidences.reduce((a,b)=>a+b,0)]. *)
Definition sum (l : list number) : number := fold_left add l (Finite 0).

(** [Math.round(confidences.reduce((a,b)=>a+b,0)/confidences.length)]. *)
Definition rounded_average (l : list number) : number :=
  Math_round (div (sum l) (number_of_nat (List.length l))).

(** [Math.round(Math.min(100, Math.max(40, ratio * 100 + 40)))]. *)
Definition ratio_estimate (ratio : number) : number :=
  Math_round
    (Math_min (of_Z 100) (Math_max (of_Z 40) (add (mul ratio (of_Z 100)) (of_Z 40)))).

(** [ratio > 0.4 ? "likely_fake" : ratio < 0.1 ? "likely_real" : "inconclusive"]. *)
Definition verdict_of (ratio : number) : Verdict :=
  if gt ratio (of_decimal 4 (-1)) then likely_fake
  else if lt ratio (of_decimal 1 (-1)) then likely_real
  else inconclusive.

(** What follows the loop. *)
Definition summarize (len : nat) (t : tally) : Aggregate :=
  let total := match len with O => 1%nat | _ => len end in
  let ratio := div (number_of_nat (votes t)) (number_of_nat total) in
  let avgConf :=
    match confidences t with
    | [] => None
    | _ => Some (rounded_average (confidences t))
    end in
  let confidence :=
    match avgConf with
    | Some a => if number_truthy a then a else ratio_estimate ratio
    | None => ratio_estimate ratio
    end in
  {| verdict := verdict_of ratio;
     confidence := confidence;
     ratio := ratio;
     fakeVotes := votes t;
     total := total;
     avgConf := avgConf |}.

Definition no_votes : tally := {| votes := 0; confidences := [] |}.

Definition aggregateFrameResults (frameResults : list value) : outcome Aggregate :=
  match tally_frames frameResults no_votes with
  | Throw e => Throw e
  | Return t => Return (summarize (List.length frameResults) t)
  end.

(** The object [agg] as a value, for [JSON.stringify(agg, null, 2)]. *)
Definition Aggregate_value (a : Aggregate) : value :=
  VObject
    [("verdict", VString (verdict_text (verdict a)));
     ("confidence", VNumber (confidence a));
     ("ratio", VNumber (ratio a));
     ("fakeVotes", VNumber (number_of_nat (fakeVotes a)));
     ("total", VNumber (number_of_nat (total a)));
     ("avgConf", match avgConf a with Some x => VNumber x | None => VNull end)].

(** ** The worker *)

Section Worker.

Variable cfg : Config.
Variable env : Env.

(** *** The retry helper

<<
async function retry(fn, attempts = 3, baseDelay = 500) {
  let lastErr;
  for (let i = 0; i < attempts; i++) {
    try { return await fn(); }
    catch (err) {
      lastErr = err;
      const delay = baseDelay * Math.pow(2, i);
      await new Promise(res => setTimeout(res, delay));
    }
  }
  throw lastErr;
}
>>
    [retry_from] is the loop entered at iteration [i] with [remaining]
    iterations to go. *)

Fixpoint retry_from {A : Type} (fn : M A) (baseDelay : Z) (remaining : nat)
  (i : Z) (lastErr : thrown) : M A :=
  match remaining with
  | O => throw lastErr
  | S remaining' =>
      try_catch fn (fun err =>
        sleep (baseDelay * 2 ^ i) ;;;
        retry_from fn baseDelay remaining' (i + 1) err)
  end.

Definition retry {A : Type} (fn : M A) (attempts : nat) (baseDelay : Z) : M A :=
  retry_from fn baseDelay attempts 0 ThrownUndefined.

(** The defaults [attempts = 3, baseDelay = 500], which every caller uses. *)
Definition retry_default {A : Type} (fn : M A) : M A := retry fn 3 500.

(** *** Backend helpers *)

Definition bearer (key : string) : string := "Bearer " ++ key.

Definition report_url (reportId : string) : string :=
  API_BASE cfg ++ "/reports/" ++ reportId.

Definition getReport (reportId : string) : M value :=
  retry_default
    (perform (HttpGet (report_url reportId) (bearer (SERVICE_KEY cfg)))
       (http_response env)).

Definition patchReport (reportId : string) (result : value) (status : string)
  : M value :=
  retry_default
    (perform
       (HttpPatch (report_url reportId)
          (VObject [("result", result); ("status", VString status)])
          (bearer (SERVICE_KEY cfg)))
       (http_response env)).

(** *** GCS helpers *)

Definition is_line_terminator (c : ascii) : bool :=
  let n := nat_of_ascii c in (n =? 10)%nat || (n =? 13)%nat.

Fixpoint has_line_terminator (s : string) : bool :=
  match s with
  | EmptyString => false
  | String c s' => is_line_terminator c || has_line_terminator s'
  end.

(** [gsUri.match(/^gs:\/\/([^/]+)\/(.+)$/)]: the bucket and the object name. *)
Definition match_gs_uri (gsUri : string) : option (string * string) :=
  if startsWith gsUri "gs://" then
    let '(bucketName, rest) := span (fun c => negb (is_slash c)) (drop 5 gsUri) in
    match bucketName, rest with
    | String _ _, String _ (String c objectTail as objectName) =>
        if has_line_terminator objectName then None
        else Some (bucketName, objectName)
    | _, _ => None
    end
  else None.

Definition downloadFromGCS (gsUri : value) : M string :=
  match gsUri with
  | VString uri =>
      match match_gs_uri uri with
      | None => throw (Error ("Invalid gs uri: " ++ uri))
      | Some (bucketName, objectName) =>
          perform (FsMkdir (TEMP_DIR cfg)) (io_result env) ;;;
          now <- perform DateNow (fun h => Return (clock env h)) ;;
          let dest :=
            path_join (TEMP_DIR cfg)
              (Z_to_string now ++ "-" ++ path_basename objectName) in
          retry_default
            (perform (GcsDownload bucketName objectName dest) (io_result env)) ;;;
          ret dest
      end
  | _ => throw (TypeError "gsUri.match is not a function")
  end.

Definition uploadToGCS (localPath destName : string) : M string :=
  let destPath :=
    if String.eqb destName "" then "diagnostics/" ++ path_basename localPath
    else destName in
  retry_default
    (perform (GcsUpload (GCS_BUCKET cfg) localPath destPath) (io_result env)) ;;;
  ret ("gs://" ++ GCS_BUCKET cfg ++ "/" ++ destPath).

(** *** ffmpeg frame extraction *)

Definition exit_code_text (code : option Z) : string :=
  match code with
  | Some z => Z_to_string z
  | None => "null"
  end.

Definition is_frame_file (f : string) : bool :=
  endsWith f ".jpg" || endsWith f ".png".

(** [spawn("ffmpeg", args)] up to the child's [close] event, whose handler
    is given the exit code.  A [spawn] that throws does so inside the
    [then] callback, which rejects the promise.  Nothing listens to the
    child's [error] event, so a child that cannot be started ends the
    process. *)
Definition spawn_ffmpeg (args : list string) : M (option Z) :=
  fun w =>
    let w' := record_event (SpawnFfmpeg args) w in
    match ffmpeg_spawn env (log w') with
    | Starts => (Return (ffmpeg_exit env (log w')), w')
    | SpawnThrows err => (Throw err, w')
    | ErrorEvent err => (Uncaught err, w')
    end.

Definition extractFrames (videoPath outDir : string) (fps : number)
  : M (list string) :=
  perform (FsMkdir outDir) (io_result env) ;;;
  let args :=
    ["-y"; "-i"; videoPath; "-vf"; "fps=" ++ number_to_string fps;
     path_join outDir "frame-%06d.jpg"] in
  code <- spawn_ffmpeg args ;;
  match code with
  | Some 0 =>
      files <- perform (FsReaddir outDir) (readdir_result env) ;;
      ret (map (path_join outDir) (filter is_frame_file files))
  | _ => throw (Error ("ffmpeg failed with code " ++ exit_code_text code))
  end.

(** *** HF API wrappers *)

Definition model_url (model : string) : string :=
  "https://api-inference.huggingface.co/models/" ++ model.

(** [data[0].generated_text || data[0].text]. *)
Definition generated_text (data : value) : value :=
  or_else (get (index0 data) "generated_text") (get (index0 data) "text").

(** What both text-producing wrappers do with the response [data] when it is
    an array whose first element carries a generated text. *)
Definition has_generated_text (data : value) : bool :=
  isArray data && truthy (index0 data) && truthy (generated_text data).

Definition callHFTextModel (prompt model : string) : M value :=
  let payload :=
    VObject [("inputs", VString prompt);
             ("options", VObject [("wait_for_model", VBool true)])] in
  data <- retry_default
            (perform (HttpPost (model_url model) (JsonBody payload)
                        (bearer (HF_API_KEY cfg)))
               (http_response env)) ;;
  if is_string data then ret data
  else if has_generated_text data then ret (generated_text data)
  else ret (JSON_stringify data).

Definition callHFFrameClassifier (framePath model : string) : M value :=
  retry_default
    (perform (HttpPost (model_url model) (FormBody [FormFile "image" framePath])
                (bearer (HF_API_KEY cfg)))
       (http_response env)).

Fixpoint image_fields (i : Z) (paths : list string) : list form_field :=
  match paths with
  | [] => []
  | p :: rest => FormFile ("image_" ++ Z_to_string i) p :: image_fields (i + 1) rest
  end.

Definition fallback_instruction : string :=
  "You are an expert forensic analyst. Using the evidence below (labels & confidences), produce JSON: summary, type='deepfake', verdict('likely_fake'|'likely_real'|'inconclusive'), confidence(0-100), evidence[], recommendations[].".

Definition fallbackPrompt (promptText : string) : string :=
  join (newline ++ newline) [fallback_instruction; ""; promptText].

(** The body of the [try] in [callHFReportModel]: the multimodal call. *)
Definition multimodal_call (promptText : string) (imagePaths : list string)
  (model : string) : M value :=
  let inputs := text_of (JSON_stringify (VObject [("text", VString promptText)])) in
  let form := FormBody (FormText "inputs" inputs :: image_fields 0 (firstn 3 imagePaths)) in
  data <- retry_default
            (perform (HttpPost (model_url model) form (bearer (HF_API_KEY cfg)))
               (http_response env)) ;;
  if is_string data then ret data
  else if has_generated_text data then ret (generated_text data)
  else ret data.

Definition callHFReportModel (promptText : string) (imagePaths : list string)
  (model : string) : M value :=
  try_catch (multimodal_call promptText imagePaths model)
    (fun _ => callHFTextModel (fallbackPrompt promptText) (HF_AUDIT_MODEL cfg)).

(** *** Analysis functions *)

Definition obind {A B : Type} (r : outcome A) (k : A -> outcome B) : outcome B :=
  match r with
  | Return a => k a
  | Throw e => Throw e
  end.

Fixpoint traverse {A B : Type} (f : A -> outcome B) (l : list A) : outcome (list B) :=
  match l with
  | [] => Return []
  | x :: rest =>
      obind (f x) (fun y => obind (traverse f rest) (fun ys => Return (y :: ys)))
  end.

(** [v.toString()] where [v] may be anything. *)
Definition method_toString (v : value) : outcome string :=
  match v with
  | VUndefined =>
      Throw (TypeError "Cannot read properties of undefined (reading 'toString')")
  | VNull =>
      Throw (TypeError "Cannot read properties of null (reading 'toString')")
  | VObject fields =>
      match lookup "toString" fields with
      | Some _ => Throw (TypeError "toString is not a function")
      | None => Return "[object Object]"
      end
  | _ => ToString v
  end.

(** [Math.round(x * 100)] for a value [x]. *)
Definition percent (x : value) : outcome number :=
  obind (ToNumber x) (fun n => Return (Math_round (mul n (of_Z 100)))).

(** The loop that classifies the sampled frames one at a time: a failed call
    leaves an error marker for its frame. *)
Fixpoint classify_frames (sample : list string) : M (list value) :=
  match sample with
  | [] => ret []
  | f :: rest =>
      fr <- try_catch
              (clfRaw <- callHFFrameClassifier f (HF_FRAME_CLASSIFIER_MODEL cfg) ;;
               ret (VObject [("frame", VString (path_basename f));
                             ("classifier", clfRaw)]))
              (fun err =>
               ret (VObject [("frame", VString (path_basename f));
                             ("error", VString (message_or err "classifier error"))])) ;;
      frs <- classify_frames rest ;;
      ret (fr :: frs)
  end.

(** One entry of [sampleSummaries]. *)
Definition frame_summary (fr : value) : outcome string :=
  obind (ToString (get fr "frame")) (fun frame =>
  if truthy (get fr "error") then
    obind (ToString (get fr "error")) (fun error =>
    Return (frame ++ ": ERROR(" ++ error ++ ")"))
  else
    let classifier := get fr "classifier" in
    if truthy classifier && isArray classifier then
      let best := index0 classifier in
      let label :=
        if truthy best then or_else (get best "label") (JSON_stringify best)
        else JSON_stringify classifier in
      obind
        (if truthy best && truthy (get best "score")
         then obind (percent (get best "score"))
                (fun n => Return ("score=" ++ number_to_string n))
         else Return "")
        (fun score =>
      obind (ToString label) (fun label_text =>
      Return (frame ++ ": " ++ label_text ++ " " ++ score)))
    else Return (frame ++ ": " ++ slice0 200 (text_of (JSON_stringify fr)))).

(** One entry of [frame_annotations]. *)
Definition frame_annotation (fr : value) : outcome value :=
  obind
    (if truthy (get fr "error") then
       obind (ToString (get fr "error")) (fun error => Return ("error: " ++ error))
     else
       let classifier := get fr "classifier" in
       if truthy classifier && truthy (index0 classifier) then
         let top := index0 classifier in
         obind (ToString (get top "label")) (fun label =>
         obind (percent (or_else (get top "score") (VNumber (Finite 0)))) (fun n =>
         Return (label ++ " (" ++ number_to_string n ++ "%)")))
       else Return (slice0 200 (text_of (JSON_stringify fr))))
    (fun reason =>
     Return (VObject [("frame", get fr "frame");
                      ("reason", VString reason);
                      ("heatmap", VNull)])).

Definition deepfake_instruction : string :=
  "You are an expert forensic analyst. Using the evidence below (frame classifier labels and confidences), produce JSON with fields: summary, type='deepfake', verdict(one of 'likely_fake','likely_real','inconclusive'), confidence(0-100), evidence[], recommendations[].".

Definition deepfake_closing : string :=
  "Make evidence[] an array of short strings citing frame filenames and reasons. Keep JSON valid. If unsure, set verdict to 'inconclusive'.".

Definition reportPromptText (agg : Aggregate) (sampleSummaries : list string)
  : string :=
  join (newline ++ newline)
    [deepfake_instruction;
     "";
     "AGGREGATED STATS:";
     text_of (JSON_stringify_pretty (Aggregate_value agg));
     "";
     "SAMPLE FRAME RESULTS (frame: label [score]):";
     join newline sampleSummaries;
     "";
     deepfake_closing].

(** The report parsed from [rawReport]; when that throws, the minimal report
    built from the aggregator's own verdict. *)
Definition parse_report (rawReport : value) (agg : Aggregate)
  (sampleSummaries : list string) : outcome value :=
  let attempt :=
    if typeof_object rawReport then Return rawReport
    else JSON_parse (if is_string rawReport then rawReport
                     else JSON_stringify rawReport) in
  match attempt with
  | Return parsed => Return parsed
  | Throw _ =>
      let textSummary :=
        if is_string rawReport then rawReport else JSON_stringify rawReport in
      obind (method_toString textSummary) (fun text =>
      Return
        (VObject
           [("summary", VString (slice0 1000 text));
            ("type", VString "deepfake");
            ("verdict", VString (verdict_text (verdict agg)));
            ("confidence", VNumber (confidence agg));
            ("evidence", VArray (map VString (firstn 6 sampleSummaries)));
            ("recommendations", VArray [])]))
  end.

(** The result object of a deepfake analysis. *)
Definition deepfake_result (parsedReport : value) (agg : Aggregate)
  (frameResults : list value) (sampled : nat) (artifactUri : string)
  : outcome value :=
  obind (get_checked parsedReport "summary") (fun summary =>
  obind (traverse frame_annotation (firstn 3 frameResults)) (fun annotations =>
  Return
    (VObject
       [("summary",
         or_else summary
           (VString ("Deepfake analysis: " ++ verdict_text (verdict agg)
                     ++ " (conf " ++ number_to_string (confidence agg) ++ ")")));
        ("type", VString "deepfake");
        ("verdict",
         or_else (get parsedReport "verdict") (VString (verdict_text (verdict agg))));
        ("confidence",
         or_else (get parsedReport "confidence") (VNumber (confidence agg)));
        ("traces",
         VObject [("temporal_inconsistency", VNumber (ratio agg));
                  ("facial_artifact_score", VNumber (ratio agg));
                  ("metadata_mismatch_score", VNumber (Finite 0))]);
        ("frame_annotations", VArray annotations);
        ("notes",
         VString ("sampled=" ++ Z_to_string (Z.of_nat sampled)
                  ++ ", frameClassifier=" ++ HF_FRAME_CLASSIFIER_MODEL cfg
                  ++ ", reportModel=" ++ HF_REPORT_MODEL cfg));
        ("artifacts", VObject [("diagnostic", VString artifactUri)]);
        ("raw", VObject [("parsedReport", parsedReport)])]))).

(** What [analyzeDeepfake] does once it holds a non-empty list of frames. *)
Definition analyze_frames (frames : list string) (runId : string) : M value :=
  let sample := slice_to (MAX_FRAMES cfg) frames in
  frameResults <- classify_frames sample ;;
  agg <- lift (aggregateFrameResults frameResults) ;;
  sampleSummaries <- lift (traverse frame_summary frameResults) ;;
  let prompt := reportPromptText agg sampleSummaries in
  rawReport <- try_catch
                 (callHFReportModel prompt (firstn 3 sample) (HF_REPORT_MODEL cfg))
                 (fun _ => callHFTextModel prompt (HF_AUDIT_MODEL cfg)) ;;
  parsedReport <- lift (parse_report rawReport agg sampleSummaries) ;;
  let diagLocal := path_join (TEMP_DIR cfg) ("diag-deepfake-" ++ runId ++ ".json") in
  let diag :=
    VObject [("sampledFrames", VArray (map (fun p => VString (path_basename p)) sample));
             ("frameResults", VArray frameResults);
             ("aggregator", Aggregate_value agg);
             ("parsedReport", parsedReport)] in
  perform (FsWriteFile diagLocal (text_of (JSON_stringify_pretty diag)))
    (io_result env) ;;;
  push_cleanup diagLocal ;;;
  artifactUri <- uploadToGCS diagLocal ("diagnostics/deepfake-" ++ runId ++ ".json") ;;
  lift (deepfake_result parsedReport agg frameResults (List.length sample) artifactUri).

Definition analyzeDeepfake (report : value) (runId : string) : M value :=
  if negb (truthy (get report "fileUrl")) then throw (Error "report.fileUrl missing")
  else
    localVideo <- downloadFromGCS (get report "fileUrl") ;;
    push_cleanup localVideo ;;;
    let framesDir := path_join (TEMP_DIR cfg) ("frames-" ++ runId) in
    frames <- extractFrames localVideo framesDir (FPS cfg) ;;
    push_cleanup framesDir ;;;
    match frames with
    | [] => throw (Error "No frames extracted")
    | _ => analyze_frames frames runId
    end.

Definition audit_instruction : string :=
  "You are an ethics auditor. Given the model metadata below produce JSON with fields: summary,type='audit',scores{transparency,fairness,privacy,robustness},metrics,flagged_issues[],recommendations[]. Output JSON only.".

Definition audit_prompt (metadata : value) : string :=
  join (newline ++ newline)
    [audit_instruction; "MODEL METADATA:"; text_of (JSON_stringify_pretty metadata)].

(** The object the audit falls back to when the model's text is not JSON. *)
Definition default_audit (summary : string) : value :=
  VObject
    [("summary", VString summary);
     ("type", VString "audit");
     ("scores",
      VObject [("transparency", VNumber (of_Z 60));
               ("fairness", VNumber (of_Z 50));
               ("privacy", VNumber (of_Z 60));
               ("robustness", VNumber (of_Z 55))]);
     ("metrics", VObject []);
     ("flagged_issues", VArray []);
     ("recommendations", VArray [])].

(** [try { parsed = JSON.parse(raw); } catch (err) { parsed = {...}; }]. *)
Definition parse_audit (raw : value) : outcome value :=
  match JSON_parse raw with
  | Return parsed => Return parsed
  | Throw _ =>
      obind (method_toString raw) (fun text =>
      Return (default_audit (slice0 1000 text)))
  end.

(** [parsed.artifacts = parsed.artifacts || {}; parsed.artifacts.raw_output = art;]
    in sloppy mode: a primitive [parsed] keeps no property, so the second
    statement finds [undefined]; an array takes the property, which no later
    use can see. *)
Definition attach_raw_output (parsed : value) (art : string) : outcome value :=
  obind (get_checked parsed "artifacts") (fun existing =>
  match parsed with
  | VObject _ =>
      obind (set (or_else existing (VObject [])) "raw_output" (VString art))
        (fun artifacts => set parsed "artifacts" artifacts)
  | VArray _ => Return parsed
  | _ =>
      Throw (TypeError "Cannot set properties of undefined (setting 'raw_output')")
  end).

Definition analyzeAudit (report : value) (runId : string) : M value :=
  let metadata := or_else (get report "metadata") (VObject []) in
  raw <- callHFTextModel (audit_prompt metadata) (HF_AUDIT_MODEL cfg) ;;
  parsed <- lift (parse_audit raw) ;;
  let rawLocal := path_join (TEMP_DIR cfg) ("audit-raw-" ++ runId ++ ".txt") in
  perform (FsMkdir (TEMP_DIR cfg)) (io_result env) ;;;
  match raw with
  | VString text => perform (FsWriteFile rawLocal text) (io_result env)
  | _ =>
      throw (TypeError
               "The data argument must be of type string or an instance of Buffer, TypedArray, or DataView.")
  end ;;;
  push_cleanup rawLocal ;;;
  art <- uploadToGCS rawLocal ("diagnostics/audit-raw-" ++ runId ++ ".txt") ;;
  lift (attach_raw_output parsed art).

(** *** Main runner *)

(** [Promise.all(toCleanup.map(p => fs.promises.rm(p, ...).catch(()=>{})))]:
    one removal per registered path, failures swallowed. *)
Fixpoint remove_all (paths : list string) : M unit :=
  match paths with
  | [] => ret tt
  | p :: rest =>
      (fun w => (Return tt, record_event (FsRm p) w)) ;;;
      remove_all rest
  end.

Definition cleanup : M unit := fun w => remove_all (toCleanup w) w.

(** [const toCleanup = [];] *)
Definition fresh_cleanup_list : M unit :=
  fun w => (Return tt, {| log := log w; toCleanup := [] |}).

(** The dispatch on [report.type] and the success patch: the body of the
    [try] in [run]. *)
Definition process_report (reportId : string) (report : value) (runId : string)
  : M unit :=
  result <-
    match get report "type" with
    | VString "deepfake" => analyzeDeepfake report runId
    | VString "audit" => analyzeAudit report runId
    | other =>
        type_text <- lift (ToString other) ;;
        throw (Error ("Unknown report type: " ++ type_text))
    end ;;
  patchReport reportId result "completed" ;;;
  ret tt.

(** The [catch] of [run]: a best-effort failure patch. *)
Definition report_failure (reportId : string) (err : thrown) : M unit :=
  let notes := message_or err (String_of_thrown err) in
  try_catch
    (patchReport reportId
       (VObject [("summary", VString "worker failed"); ("notes", VString notes)])
       "failed" ;;;
     ret tt)
    (fun _ => ret tt).

Definition is_completed (report : value) : bool :=
  match get report "status" with
  | VString status => String.eqb status "completed"
  | _ => false
  end.

Definition run (reportId : string) : M unit :=
  report <- getReport reportId ;;
  if negb (truthy report) then throw (Error ("Report not found: " ++ reportId))
  else if is_completed report then ret tt
  else
    now <- perform DateNow (fun h => Return (clock env h)) ;;
    let runId := reportId ++ "-" ++ Z_to_string now in
    fresh_cleanup_list ;;;
    try_finally
      (try_catch (process_report reportId report runId) (report_failure reportId))
      cleanup.

End Worker.

(** ** The specification's wording, for comparison *)

(** The confidence as the specification words it: the plain average of the
    samples when there are any, otherwise [min(100, max(40, ratio*100+40))]. *)
Definition spec_average (samples : list number) : number :=
  div (sum samples) (number_of_nat (List.length samples)).

Definition spec_estimate (ratio : number) : number :=
  Math_min (of_Z 100) (Math_max (of_Z 40) (add (mul ratio (of_Z 100)) (of_Z 40))).

Definition spec_confidence (samples : list number) (ratio : number) : number :=
  match samples with
  | [] => spec_estimate ratio
  | _ => spec_average samples
  end.

(** ** Sample inputs *)

(** A frame result carrying a classifier array with one prediction. *)
Definition classified (frame label : string) (score : number) : value :=
  VObject [("frame", VString frame);
           ("classifier",
            VArray [VObject [("label", VString label); ("score", VNumber score)]])].

(** The frame result [fr] carries the top classifier label [lab]:
    [fr.classifier] is an array, the [label] of its first element is the
    string [lab], and the [score] of that element, when there is one,
    converts to a number. *)
Definition top_label (fr : value) (lab : string) : Prop :=
  exists best others,
    get fr "classifier" = VArray (best :: others)
    /\ get best "label" = VString lab
    /\ forall e, ToNumber (get best "score") <> Throw e.

(** Two frames classified fake with score 0.9 and one real with score 0.8. *)
Definition two_fake_one_real : list value :=
  [classified "frame-000001.jpg" "fake" (of_decimal 9 (-1));
   classified "frame-000002.jpg" "fake" (of_decimal 9 (-1));
   classified "frame-000003.jpg" "real" (of_decimal 8 (-1))].

(** Three free-text results without a confidence pattern, one of them fake. *)
Definition one_fake_in_three_texts : list value :=
  [VString "fake"; VString "real"; VString "real"].

Definition text_with_confidence_999 : list value := [VString "confidence: 999"].

Definition confidence_of (frameResults : list value) : option number :=
  match aggregateFrameResults frameResults with
  | Return a => Some (confidence a)
  | Throw _ => None
  end.

Definition spec_confidence_of (frameResults : list value) : option number :=
  match tally_frames frameResults no_votes, aggregateFrameResults frameResults with
  | Return t, Return a => Some (spec_confidence (confidences t) (ratio a))
  | _, _ => None
  end.

(** ** Sample environments *)

Definition sample_cfg : Config :=
  {| API_BASE := "https://api.aethra.test/api";
     SERVICE_KEY := "service-key";
     GCS_BUCKET := "aethra-bucket";
     TEMP_DIR := "./tmp";
     HF_API_KEY := "hf-key";
     HF_AUDIT_MODEL := "LLAVA-1.6-Mistral-7B";
     HF_FRAME_CLASSIFIER_MODEL := "prithivMLmods/deepfake-detector-model-v1";
     HF_REPORT_MODEL := "Salesforce/blip2-opt-2.7b";
     FPS := of_Z 1;
     MAX_FRAMES := of_Z 8 |}.

Definition is_http (e : event) : bool :=
  match e with
  | HttpGet _ _ | HttpPatch _ _ _ | HttpPost _ _ _ => true
  | _ => false
  end.

(** An environment whose first [failures] HTTP calls are rejected, each with
    an error naming the attempt, and whose later ones answer ["ok"]. *)
Definition flaky_env (failures : nat) : Env :=
  {| http_response := fun h =>
       let k := List.length (filter is_http h) in
       if (k <=? failures)%nat
       then Throw (ThrownError "AxiosError"
                     ("attempt " ++ Z_to_string (Z.of_nat k) ++ " timed out"))
       else Return (VString "ok");
     io_result := fun _ => Return tt;
     readdir_result := fun _ => Return [];
     ffmpeg_spawn := fun _ => Starts;
     ffmpeg_exit := fun _ => Some 0;
     clock := fun _ => 1700000000000 |}.

(** An environment in which the Report Store serves [report], the inference
    provider answers a POST with [inference], storage and the file system
    succeed, ffmpeg exits with 0 and the frame directory lists [files]. *)
Definition scripted_env (report : value) (inference : post_body -> outcome value)
  (files : list string) : Env :=
  {| http_response := fun h =>
       match last h DateNow with
       | HttpGet _ _ => Return report
       | HttpPatch _ body _ => Return body
       | HttpPost _ body _ => inference body
       | _ => Return VNull
       end;
     io_result := fun _ => Return tt;
     readdir_result := fun _ => Return files;
     ffmpeg_spawn := fun _ => Starts;
     ffmpeg_exit := fun _ => Some 0;
     clock := fun _ => 1700000000000 |}.

Definition make_report (type status : string) : value :=
  VObject [("_id", VString "r1");
           ("type", VString type);
           ("fileUrl", VString "gs://aethra-bucket/uploads/clip.mp4");
           ("metadata", VObject [("license", VString "MIT")]);
           ("result", VObject []);
           ("status", VString status)].

(** The text model answers every POST with the string [not json]. *)
Definition not_json (_ : post_body) : outcome value := Return (VString "not json").

(** The multimodal endpoint rejects form uploads; the text endpoint answers. *)
Definition text_only (body : post_body) : outcome value :=
  match body with
  | FormBody _ => Throw (ThrownError "AxiosError" "Request failed with status code 503")
  | JsonBody _ => Return (VString "{}")
  end.

(** The multimodal endpoint rejects form uploads; the text endpoint answers
    with an empty JSON object when the prompt asks it to produce JSON, and
    rejects any other prompt. *)
Definition json_when_asked (body : post_body) : outcome value :=
  match body with
  | FormBody _ => Throw (ThrownError "AxiosError" "Request failed with status code 503")
  | JsonBody payload =>
      match get payload "inputs" with
      | VString prompt =>
          if includes prompt "produce JSON" then Return (VString "{}")
          else Throw (ThrownError "AxiosError" "Request failed with status code 422")
      | _ => Throw (ThrownError "AxiosError" "Request failed with status code 400")
      end
  end.

Definition initial_world : world := {| log := []; toCleanup := [] |}.

(** The events a pipeline makes, as opposed to those of the run controller
    itself (report fetch and patch, clock, timers, removals). *)
Definition pipeline_call (e : event) : bool :=
  match e with
  | HttpPost _ _ _ | GcsDownload _ _ _ | GcsUpload _ _ _
  | FsMkdir _ | FsWriteFile _ _ | FsReaddir _ | SpawnFfmpeg _ => true
  | _ => false
  end.

(** A write to the Report Store. *)
Definition store_write (e : event) : bool :=
  match e with
  | HttpPatch _ _ _ => true
  | _ => false
  end.

(** The status a Report Store write carries. *)
Definition patched_status (e : event) : option value :=
  match e with
  | HttpPatch _ body _ => Some (get body "status")
  | _ => None
  end.

(** The calls of a run to an inference provider. *)
Definition inference_call (e : event) : bool :=
  match e with
  | HttpPost _ _ _ => true
  | _ => false
  end.

(** [emits P m]: whatever [m] does, it only appends events satisfying [P] to
    the history. *)
Definition emits {A : Type} (P : event -> Prop) (m : M A) : Prop :=
  forall w r w', m w = (r, w') ->
    exists added, log w' = (log w ++ added)%list /\ Forall P added.

(** ** The attempts of a retried operation *)

(** The world after an attempt that started in [w] failed and the back-off
    of iteration [i] elapsed. *)
Definition after_failure {A : Type} (fn : M A) (baseDelay i : Z) (w : world)
  : world :=
  snd (sleep (baseDelay * 2 ^ i) (snd (fn w))).

(** The world in which the attempt number [k] (counting from 0) of a loop
    entered at iteration [i] in [w] starts, the earlier ones having failed. *)
Fixpoint attempt_world_from {A : Type} (fn : M A) (baseDelay i : Z) (k : nat)
  (w : world) : world :=
  match k with
  | O => w
  | S k' => attempt_world_from fn baseDelay (i + 1) k' (after_failure fn baseDelay i w)
  end.

Definition attempt_world {A : Type} (fn : M A) (baseDelay : Z) (k : nat)
  (w : world) : world :=
  attempt_world_from fn baseDelay 0 k w.

(** The operation the retry scenarios use: a GET of one URL. *)
Definition sample_operation (env : Env) : M value :=
  perform (HttpGet "https://api.aethra.test/api/reports/r1" "Bearer service-key")
    (http_response env).

(** ** Quantities the proofs speak of *)

(** [2^p] as a rational, for any integer [p]. *)
Definition two_power (p : Z) : Q := (2 ^ p)%Q.

(** The rational a positive fraction rounds to, before the overflow test. *)
Definition value64 (n d : Z) : Q :=
  (inject_Z (mantissa n d) * two_power (binade n d))%Q.

(** Neither a pipeline call nor a write to the Report Store. *)
Definition controller_read (e : event) : Prop :=
  pipeline_call e = false /\ store_write e = false.

(** Neither a write to the Report Store nor a call to an inference provider. *)
Definition quiet (e : event) : Prop :=
  store_write e = false /\ inference_call e = false.

(** ** What the properties below speak of *)

(** *** The run and its pipelines *)



(** One of the three configured inference endpoints. *)
Definition configured_model cfg (url : string) : Prop :=
  url = model_url (HF_AUDIT_MODEL cfg)
  \/ url = model_url (HF_FRAME_CLASSIFIER_MODEL cfg)
  \/ url = model_url (HF_REPORT_MODEL cfg).

(** What an analysis may do: no request to the Report Store and no removal;
    inference requests only to a configured model, with the inference key;
    uploads only to the configured bucket, under [diagnostics/]. *)
Definition pipeline_request cfg (e : event) : Prop :=
  match e with
  | HttpGet _ _ | HttpPatch _ _ _ | FsRm _ => False
  | HttpPost url _ auth => auth = bearer (HF_API_KEY cfg) /\ configured_model cfg url
  | GcsUpload bucket _ destination =>
      bucket = GCS_BUCKET cfg /\ startsWith destination "diagnostics/" = true
  | _ => True
  end.

(** The process goes on after [m]: its promise settles. *)
Definition settles {A : Type} (m : M A) : Prop :=
  forall w err w', m w <> (Uncaught err, w').


(** The dispatch on the report type. *)
Definition dispatch cfg env (report : value) (runId : string) : M value :=
  match get report "type" with
  | VString "deepfake" => analyzeDeepfake cfg env report runId
  | VString "audit" => analyzeAudit cfg env report runId
  | other =>
      type_text <- lift (ToString other) ;;
      throw (Error ("Unknown report type: " ++ type_text))
  end.


(** The state in which the [try] of [run] starts, the report fetched in
    [w1]: the clock read, [toCleanup] empty. *)
Definition run_started (w1 : world) : world :=
  {| log := (log w1 ++ [DateNow])%list; toCleanup := [] |}.

(** [`${reportId}-${Date.now()}`], the clock read right after the fetch. *)
Definition run_id env (reportId : string) (w1 : world) : string :=
  reportId ++ "-" ++ Z_to_string (clock env (log w1 ++ [DateNow])%list).

(** [fs.promises.rm]. *)
Definition is_removal (e : event) : bool :=
  match e with FsRm _ => true | _ => false end.

(** The patch the [catch] of [run] sends for an error whose text is
    [notes]. *)
Definition failure_patch cfg (reportId notes : string) : event :=
  HttpPatch (report_url cfg reportId)
    (VObject [("result",
               VObject [("summary", VString "worker failed");
                        ("notes", VString notes)]);
              ("status", VString "failed")])
    (bearer (SERVICE_KEY cfg)).

(** *** Retries and the classification loop *)


(** What [classify_frames] records for the frame [f]: the classifier's
    answer, or an error marker with a non-empty message. *)
Definition recorded_for (f : string) (fr : value) : Prop :=
  (exists clfRaw,
     fr = VObject [("frame", VString (path_basename f)); ("classifier", clfRaw)])
  \/ (exists message,
        message <> ""
        /\ fr = VObject [("frame", VString (path_basename f));
                         ("error", VString message)]).

(** *** The audit's answer *)

(** The raw answer [text] of an audit is written to the temporary directory
    and uploaded: the two file-system calls succeed and the upload, retried
    as it is, ends with the URI [uri] in the world [w2]. *)
Definition raw_answer_stored cfg env (runId text : string) (w1 : world)
  (uri : string) (w2 : world) : Prop :=
  let rawLocal := path_join (TEMP_DIR cfg) ("audit-raw-" ++ runId ++ ".txt") in
  io_result env (log w1 ++ [FsMkdir (TEMP_DIR cfg)])%list = Return tt
  /\ io_result env (log w1 ++ [FsMkdir (TEMP_DIR cfg); FsWriteFile rawLocal text])%list
     = Return tt
  /\ uploadToGCS cfg env rawLocal ("diagnostics/audit-raw-" ++ runId ++ ".txt")
       {| log := (log w1 ++ [FsMkdir (TEMP_DIR cfg); FsWriteFile rawLocal text])%list;
          toCleanup := (toCleanup w1 ++ [rawLocal])%list |}
     = (Return uri, w2).

(** A value that keeps the properties assigned to it. *)
Definition holds_properties (v : value) : bool :=
  match v with VObject _ => true | _ => false end.

(** What [JSON.parse] yields that is neither an object nor an array. *)
Definition is_json_primitive (v : value) : bool :=
  match v with VObject _ | VArray _ => false | _ => true end.

(** The letters [a] to [z]. *)
(** *** Texts and frame results *)

Definition is_lower_letter (c : ascii) : bool :=
  let n := nat_of_ascii c in (97 <=? n)%nat && (n <=? 122)%nat.

(** Every character of [s] satisfies [p]. *)
Fixpoint all_chars (p : ascii -> bool) (s : string) : bool :=
  match s with
  | EmptyString => true
  | String c s' => p c && all_chars p s'
  end.

(** The top label and the top score of a frame result are primitives, as in
    the classifier's documented answers ([label] a string, [score] a
    number), or are missing. *)
Definition plain_top_entry (fr : value) : bool :=
  is_json_primitive (get (index0 (get fr "classifier")) "label")
  && is_json_primitive (get (index0 (get fr "classifier")) "score").

(** ** The backend's side of the worker's requests *)

(** [s.split(sep)] for a non-empty separator: [skip] counts the characters
    of a separator just matched that are still to be passed over. *)
Fixpoint split_pieces (sep : string) (skip : nat) (s : string) : list string :=
  match s with
  | EmptyString => [""]
  | String c s' =>
      match skip with
      | S k => split_pieces sep k s'
      | O =>
          if startsWith s sep
          then "" :: split_pieces sep (String.length sep - 1) s'
          else
            match split_pieces sep 0 s' with
            | piece :: rest => String c piece :: rest
            | [] => [String c ""]
            end
      end
  end.

(** [s.split(sep)]. *)
Definition String_split (s sep : string) : list string := split_pieces sep 0 s.

Module Backend.

(** The two environment variables the service keys are read from. *)
Record process_env : Type := {
  SERVICE_API_KEYS : option string;
  SERVICE_KEY : option string
}.

(** The two request headers the checks read, each [undefined] or a string
    (or, as far as the types go, an array of strings). *)
Record headers : Type := {
  x_service_key : value;
  authorization : value
}.

(** [a || b] for an environment variable [a]. *)
Definition env_or (a : option string) (b : string) : string :=
  match a with
  | Some (String c s) => String c s
  | _ => b
  end.

(** [process.env.SERVICE_API_KEYS || process.env.SERVICE_KEY || ""]. *)
Definition configured (e : process_env) : string :=
  env_or (SERVICE_API_KEYS e) (env_or (SERVICE_KEY e) "").

(** [(...).split(",").map(s => s.trim()).filter(Boolean)]. *)
Definition SERVICE_KEYS (e : process_env) : list string :=
  filter (fun s => negb (String.eqb s ""))
    (map trim (String_split (configured e) ",")).

(** [header.split("Bearer ")[1].trim()], reached only for a header that
    starts with [Bearer ], which gives the split its second piece. *)
Definition bearer_token (header : string) : string :=
  trim (nth 1 (String_split header "Bearer ") "").

(** What a check decides: the request goes on as a service request, goes on
    to the user-token check, or is answered 401. *)
Inductive decision : Type :=
  | ServiceRequest
  | UserTokenCheck
  | Unauthorized.

(** serviceAuth.ts, [verifyServiceKey]. *)
Definition verifyServiceKey (e : process_env) (h : headers) : outcome decision :=
  match or_else (or_else (x_service_key h) (authorization h)) (VString "") with
  | VString header =>
      match
        (if startsWith header "Bearer " then Return (bearer_token header)
         else if truthy (x_service_key h) then ToString (x_service_key h)
         else Return "")
      with
      | Throw err => Throw err
      | Return key =>
          if String.eqb key "" || negb (existsb (String.eqb key) (SERVICE_KEYS e))
          then Return Unauthorized
          else Return ServiceRequest
      end
  | _ => Throw (TypeError "header.startsWith is not a function")
  end.

(** reports.ts, [getServiceKeyFromHeaders]: [None] is [null]. *)
Definition getServiceKeyFromHeaders (h : headers) : option string :=
  let rawKeyHeader :=
    or_else (or_else (x_service_key h) (authorization h)) (VString "") in
  if negb (truthy rawKeyHeader) then None
  else
    match rawKeyHeader with
    | VString raw =>
        if startsWith raw "Bearer " then Some (bearer_token raw) else Some raw
    | _ => None
    end.

(** reports.ts, [isValidServiceKey]. *)
Definition isValidServiceKey (e : process_env) (key : option string) : bool :=
  match key with
  | None | Some EmptyString => false
  | Some k =>
      if String.eqb (configured e) "" then false
      else existsb (String.eqb k) (SERVICE_KEYS e)
  end.

(** reports.ts, [verifyWorkerOrUser], up to the call of the user-token
    check. *)
Definition verifyWorkerOrUser (e : process_env) (h : headers) : decision :=
  let key := getServiceKeyFromHeaders h in
  if match key with Some (String _ _) => true | _ => false end
     && isValidServiceKey e key
  then ServiceRequest
  else UserTokenCheck.

(** What the user-token check decides: 401 for a missing or malformed
    header, 401 for a token that does not verify, or the request goes on
    with [req.user] set. *)
Inductive token_decision : Type :=
  | MissingToken
  | InvalidToken
  | UserRequest (user : value).

(** middleware/auth.ts, [verifyToken] (exported also as
    [verifyFirebaseToken], the guard of [GET /reports/:id]).  [jwt_verify]
    is [jwt.verify(token, JWT_SECRET)]: the decoded payload, or the error it
    throws. *)
Definition verifyToken (jwt_verify : string -> outcome value) (h : headers)
  : outcome token_decision :=
  match ToString (or_else (authorization h) (VString "")) with
  | Throw err => Throw err
  | Return authHeader =>
      if String.eqb authHeader "" || negb (startsWith authHeader "Bearer ")
      then Return MissingToken
      else
        match jwt_verify (bearer_token authHeader) with
        | Return decoded =>
            Return (UserRequest
                      (VObject [("uid", get decoded "uid");
                                ("email", get decoded "email");
                                ("role", get decoded "role")]))
        | Throw _ => Return InvalidToken
        end
  end.

(** The stored fields of a report that [PATCH /:id] can change. *)
Record stored_report : Type := {
  stored_result : value;
  stored_status : value
}.

(** The values the schema allows for [status]. *)
Definition status_values : list string := ["pending"; "completed"; "failed"].

(** [["pending", "completed", "failed"].includes(status)]. *)
Definition is_status_value (status : value) : bool :=
  match status with
  | VString s => existsb (String.eqb s) status_values
  | _ => false
  end.

(** reports.ts, the update of [PATCH /:id]:
    [const { result, status } = req.body;
     if (result) report.result = result;
     if (status && [...].includes(status)) report.status = status;]. *)
Definition apply_update (body : value) (report : stored_report)
  : outcome stored_report :=
  match body with
  | VUndefined =>
      Throw (TypeError
               "Cannot destructure property 'result' of 'req.body' as it is undefined.")
  | VNull =>
      Throw (TypeError
               "Cannot destructure property 'result' of 'req.body' as it is null.")
  | _ =>
      let result := get body "result" in
      let status := get body "status" in
      let report1 :=
        if truthy result
        then {| stored_result := result; stored_status := stored_status report |}
        else report in
      Return
        (if truthy status && is_status_value status
         then {| stored_result := stored_result report1; stored_status := status |}
         else report1)
  end.

(** reports.ts, [GET /]: [Math.min(Number(req.query.limit) || 50, 200)] and
    [Number(req.query.skip) || 0]. *)
Definition page_limit (limit : value) : outcome number :=
  obind (ToNumber limit) (fun n =>
  Return (Math_min (if number_truthy n then n else of_Z 50) (of_Z 200))).

Definition page_skip (skip : value) : outcome number :=
  obind (ToNumber skip) (fun n =>
  Return (if number_truthy n then n else of_Z 0)).

End Backend.

(** The header set of a request that carries only [Authorization]. *)
Definition authorization_only (text : string) : Backend.headers :=
  {| Backend.x_service_key := VUndefined; Backend.authorization := VString text |}.

(** ** Further sample inputs *)

(** The world after the report [r1] was fetched from the sample backend. *)
Definition fetched : world :=
  {| log := [HttpGet "https://api.aethra.test/api/reports/r1" "Bearer service-key"];
     toCleanup := [] |}.


(** A report with nothing but a type and a status. *)
Definition bare_report (type : string) : value :=
  VObject [("_id", VString "r1"); ("type", VString type);
           ("status", VString "pending")].

(** A deepfake report whose file is given by an https link. *)
Definition linked_report : value :=
  VObject [("_id", VString "r1"); ("type", VString "deepfake");
           ("fileUrl", VString "https://storage.googleapis.com/aethra-bucket/clip.mp4");
           ("status", VString "pending")].


(** The text of a JSON object, as an audit model may answer it. *)
Definition json_object_text : string :=
  text_of (JSON_stringify
             (VObject [("summary", VString "No model card");
                       ("type", VString "audit");
                       ("artifacts", VObject [("model_card", VString "missing")])])).

(** An inference provider that answers every POST with [text]. *)
Definition answers (text : string) (_ : post_body) : outcome value :=
  Return (VString text).

(** A backend configured with two service keys, written with stray blanks
    and an empty entry. *)
Definition sample_process_env : Backend.process_env :=
  {| Backend.SERVICE_API_KEYS := Some "ops-key , ,service-key";
     Backend.SERVICE_KEY := None |}.

(** A [jwt.verify] that rejects every token. *)
Definition rejects_all (_ : string) : outcome value :=
  Throw (ThrownError "JsonWebTokenError" "jwt malformed").

(** ** Properties *)

(** *** Sequencing *)

Lemma bind_return {A B : Type} (m : M A) (k : A -> M B) w a w' :
  m w = (Return a, w') -> bind m k w = k a w'.
Proof. intros H. unfold bind. rewrite H. reflexivity. Qed.

Lemma bind_throw {A B : Type} (m : M A) (k : A -> M B) w e w' :
  m w = (Throw e, w') -> bind m k w = (Throw e, w').
Proof. intros H. unfold bind. rewrite H. reflexivity. Qed.

Lemma try_catch_return {A : Type} (m : M A) handler w a w' :
  m w = (Return a, w') -> try_catch m handler w = (Return a, w').
Proof. intros H. unfold try_catch. rewrite H. reflexivity. Qed.

Lemma try_catch_throw {A : Type} (m : M A) handler w e w' :
  m w = (Throw e, w') -> try_catch m handler w = handler e w'.
Proof. intros H. unfold try_catch. rewrite H. reflexivity. Qed.

(** *** What a computation adds to the history *)


Lemma emits_ret {A : Type} P (a : A) : emits P (ret a).
Proof.
  intros w r w' H. inversion H; subst. exists []. rewrite app_nil_r. auto.
Qed.

Lemma emits_throw {A : Type} P e : emits P (@throw A e).
Proof.
  intros w r w' H. inversion H; subst. exists []. rewrite app_nil_r. auto.
Qed.

Lemma emits_lift {A : Type} P (r : outcome A) : emits P (lift r).
Proof.
  intros w r' w' H. inversion H; subst. exists []. rewrite app_nil_r. auto.
Qed.

Lemma emits_push_cleanup P p : emits P (push_cleanup p).
Proof.
  intros w r w' H. inversion H; subst. exists []. simpl. rewrite app_nil_r. auto.
Qed.

Lemma emits_perform {A : Type} (P : event -> Prop) e (answer : list event -> outcome A) :
  P e -> emits P (perform e answer).
Proof.
  intros He w r w' H. inversion H; subst. exists [e]. simpl. auto.
Qed.

Lemma emits_bind {A B : Type} P (m : M A) (k : A -> M B) :
  emits P m -> (forall a, emits P (k a)) -> emits P (bind m k).
Proof.
  intros Hm Hk w r w' H. unfold bind in H.
  destruct (m w) as [[[a|e]|e] w1] eqn:Em.
  - destruct (Hm _ _ _ Em) as (l1 & E1 & F1).
    destruct (Hk a _ _ _ H) as (l2 & E2 & F2).
    exists (l1 ++ l2)%list. rewrite E2, E1, app_assoc. split; [reflexivity|].
    apply Forall_app; auto.
  - inversion H; subst. eauto.
  - inversion H; subst. eauto.
Qed.

Lemma emits_try_catch {A : Type} P (m : M A) handler :
  emits P m -> (forall e, emits P (handler e)) -> emits P (try_catch m handler).
Proof.
  intros Hm Hh w r w' H. unfold try_catch in H.
  destruct (m w) as [[[a|e]|e] w1] eqn:Em.
  - inversion H; subst. eauto.
  - destruct (Hm _ _ _ Em) as (l1 & E1 & F1).
    destruct (Hh e _ _ _ H) as (l2 & E2 & F2).
    exists (l1 ++ l2)%list. rewrite E2, E1, app_assoc. split; [reflexivity|].
    apply Forall_app; auto.
  - inversion H; subst. eauto.
Qed.

Lemma emits_spawn_ffmpeg (P : event -> Prop) env args :
  P (SpawnFfmpeg args) -> emits P (spawn_ffmpeg env args).
Proof.
  intros He w r w' H. unfold spawn_ffmpeg in H.
  destruct (ffmpeg_spawn env _); inversion H; subst; exists [SpawnFfmpeg args];
    simpl; auto.
Qed.

Lemma emits_sleep (P : event -> Prop) d : P (SetTimeout d) -> emits P (sleep d).
Proof. intros H. apply emits_perform. exact H. Qed.

Lemma emits_retry_from {A : Type} (P : event -> Prop) (fn : M A) baseDelay n :
  emits P fn -> (forall d, P (SetTimeout d)) ->
  forall i lastErr, emits P (retry_from fn baseDelay n i lastErr).
Proof.
  intros Hfn Hsleep. induction n as [|n IH]; intros i lastErr; simpl.
  - apply emits_throw.
  - apply emits_try_catch; [exact Hfn|].
    intros e. apply emits_bind; [apply emits_sleep, Hsleep|].
    intros _. apply IH.
Qed.

Lemma emits_retry_default {A : Type} (P : event -> Prop) (fn : M A) :
  emits P fn -> (forall d, P (SetTimeout d)) -> emits P (retry_default fn).
Proof. intros. apply emits_retry_from; assumption. Qed.

(** *** Rounding to binary64

    Rounding is monotone ([round64_pos_mono]) and exact on the integers
    below 2^53 ([round64_pos_integer]).  Comparing the rounded quotient of
    two counts with the rounded literals 0.4 and 0.1 therefore amounts to
    comparing the counts, as long as the quotient is not closer to a
    threshold than the spacing of binary64 values there, which no quotient of
    counts below 2^32 is. *)

Section Rounding.

(** Rounding an integer multiple gives the multiple. *)
Lemma rhe_exact k d : 0 < d -> round_half_even_div (k * d) d = k.
Proof.
  intros Hd. unfold round_half_even_div.
  rewrite Z.div_mul by lia. rewrite Z.mod_mul by lia.
  destruct d; try lia; reflexivity.
Qed.

(** Rounding a fraction to the nearest integer is monotone. *)
Lemma rhe_mono n1 d1 n2 d2 :
  0 < d1 -> 0 < d2 -> n1 * d2 <= n2 * d1 ->
  round_half_even_div n1 d1 <= round_half_even_div n2 d2.
Proof.
  intros H1 H2 H. unfold round_half_even_div.
  pose proof (Z.div_mod n1 d1 ltac:(lia)) as E1.
  pose proof (Z.div_mod n2 d2 ltac:(lia)) as E2.
  pose proof (Z.mod_pos_bound n1 d1 H1) as B1.
  pose proof (Z.mod_pos_bound n2 d2 H2) as B2.
  assert (Hq : n1 / d1 <= n2 / d2).
  { rewrite <- (Z.div_mul_cancel_r n1 d1 d2) by lia.
    rewrite <- (Z.div_mul_cancel_l n2 d2 d1) by lia.
    rewrite (Z.mul_comm d1 n2). apply Z.div_le_mono; nia. }
  set (q1 := n1 / d1) in *. set (r1 := n1 mod d1) in *.
  set (q2 := n2 / d2) in *. set (r2 := n2 mod d2) in *.
  destruct (Z.eq_dec q1 q2) as [Heq|Hne].
  - rewrite <- Heq in *.
    assert (Hr : r1 * d2 <= r2 * d1) by nia.
    destruct (Z.compare_spec (2 * r1) d1), (Z.compare_spec (2 * r2) d2);
      destruct (Z.even q1); try lia; nia.
  - destruct (Z.compare_spec (2 * r1) d1), (Z.compare_spec (2 * r2) d2);
      destruct (Z.even q1), (Z.even q2); lia.
Qed.

Local Open Scope Q_scope.

Lemma two_power_pos p : 0 < two_power p.
Proof. apply Qpower_0_lt. reflexivity. Qed.

Lemma two_power_add a b : two_power (a + b) == two_power a * two_power b.
Proof. apply Qpower_plus. discriminate. Qed.

Lemma two_power_inject p : (0 <= p)%Z -> inject_Z (2 ^ p) == two_power p.
Proof. intros. unfold two_power. rewrite Zpower_Qpower by assumption. reflexivity. Qed.

Lemma two_power_le a b : (a <= b)%Z -> two_power a <= two_power b.
Proof. intros. apply Qpower_le_compat_l; [assumption|discriminate]. Qed.

Lemma two_power_lt_inv a b : two_power a < two_power b -> (a < b)%Z.
Proof. intros. eapply Qpower_lt_compat_l_inv; [eassumption|reflexivity]. Qed.

Lemma two_power_opp p : two_power p * two_power (- p) == 1.
Proof. rewrite <- two_power_add. replace (p + - p)%Z with 0%Z by lia. reflexivity. Qed.

Lemma two_power_succ p : two_power (p + 1) == 2 * two_power p.
Proof. rewrite two_power_add. unfold two_power at 2. simpl. ring. Qed.

Lemma pow2Q_two_power p : pow2Q p == two_power p.
Proof.
  unfold pow2Q. destruct (Z.leb_spec 0 p).
  - apply two_power_inject. assumption.
  - rewrite Qred_correct.
    assert (Hpos : (0 < 2 ^ (- p))%Z) by (apply Z.pow_pos_nonneg; lia).
    assert (E : 1 # Z.to_pos (2 ^ (- p)) == / inject_Z (2 ^ (- p))).
    { unfold Qinv, inject_Z. simpl. destruct (2 ^ (- p))%Z eqn:E; try lia. reflexivity. }
    rewrite E, two_power_inject by lia.
    pose proof (two_power_opp p) as Ho. pose proof (two_power_pos (- p)) as H1.
    field_simplify_eq; [|lra]. rewrite <- Ho. ring.
Qed.

(** scale2: the fraction it returns is [n/d] divided by [2^p]. *)
Lemma scale2_spec n d p :
  (0 < n)%Z -> (0 < d)%Z ->
  (0 < fst (scale2 n d p))%Z /\ (0 < snd (scale2 n d p))%Z
  /\ inject_Z (fst (scale2 n d p)) * inject_Z d * two_power p
     == inject_Z n * inject_Z (snd (scale2 n d p)).
Proof.
  intros Hn Hd. unfold scale2. destruct (Z.leb_spec 0 p); simpl.
  - assert (0 < 2 ^ p)%Z by (apply Z.pow_pos_nonneg; lia).
    repeat split; try nia.
    rewrite inject_Z_mult, two_power_inject by lia. ring.
  - assert (0 < 2 ^ (- p))%Z by (apply Z.pow_pos_nonneg; lia).
    repeat split; try nia.
    rewrite inject_Z_mult, two_power_inject by lia.
    pose proof (two_power_opp p) as H1.
    transitivity (inject_Z n * inject_Z d * (two_power p * two_power (- p))); [ring|].
    rewrite H1. ring.
Qed.

Lemma log2_bounds n :
  (0 < n)%Z -> two_power (Z.log2 n) <= inject_Z n /\ inject_Z n < two_power (Z.log2 n + 1).
Proof.
  intros Hn. destruct (Z.log2_spec n Hn) as [H1 H2].
  pose proof (Z.log2_nonneg n).
  rewrite <- !two_power_inject by lia. rewrite <- Zle_Qle, <- Zlt_Qlt.
  split; [exact H1|]. replace (Z.log2 n + 1)%Z with (Z.succ (Z.log2 n)) by lia. exact H2.
Qed.

Lemma floor_log2_spec n d :
  (0 < n)%Z -> (0 < d)%Z ->
  inject_Z d * two_power (floor_log2 n d) <= inject_Z n
  /\ inject_Z n < inject_Z d * two_power (floor_log2 n d + 1).
Proof.
  intros Hn Hd. unfold floor_log2.
  set (k := (Z.log2 n - Z.log2 d)%Z).
  destruct (scale2_spec n d k Hn Hd) as (HN & HD & E).
  destruct (scale2 n d k) as [N D]. simpl in *.
  destruct (log2_bounds n Hn) as [An Bn].
  destruct (log2_bounds d Hd) as [Ad Bd].
  assert (Ea : two_power (Z.log2 n) == two_power k * two_power (Z.log2 d)).
  { rewrite <- two_power_add. unfold k. replace (Z.log2 n - Z.log2 d + Z.log2 d)%Z with (Z.log2 n) by lia. reflexivity. }
  pose proof (two_power_succ (Z.log2 n)) as Sn.
  pose proof (two_power_succ (Z.log2 d)) as Sd.
  pose proof (two_power_pos k) as Pk. pose proof (two_power_pos (Z.log2 d)) as Pd.
  assert (Qn : 0 < inject_Z n) by (rewrite Zlt_Qlt in Hn; exact Hn).
  assert (Qd : 0 < inject_Z d) by (rewrite Zlt_Qlt in Hd; exact Hd).
  assert (QN : 0 < inject_Z N) by (rewrite Zlt_Qlt in HN; exact HN).
  assert (QD : 0 < inject_Z D) by (rewrite Zlt_Qlt in HD; exact HD).
  destruct (Z.ltb_spec N D) as [Hlt|Hge].
  - (* n/d < 2^k *)
    rewrite Zlt_Qlt in Hlt.
    replace (k - 1 + 1)%Z with k by lia.
    assert (Sk : two_power k == 2 * two_power (k - 1)).
    { rewrite <- two_power_succ. replace (k - 1 + 1)%Z with k by lia. reflexivity. }
    pose proof (two_power_pos (k - 1)) as Pk1.
    split.
    + (* d * 2^(k-1) <= n *)
      apply Qlt_le_weak.
      apply Qlt_le_trans with (y := two_power (Z.log2 n)); [|exact An].
      rewrite Ea, Sk. rewrite Sd in Bd. nra.
    + (* n < d * 2^k *)
      apply (Qmult_lt_r _ _ (inject_Z D)); [assumption|]. rewrite <- E.
      setoid_replace (inject_Z N * inject_Z d * two_power k)
        with (inject_Z N * (inject_Z d * two_power k)) by ring.
      setoid_replace (inject_Z d * two_power k * inject_Z D)
        with (inject_Z D * (inject_Z d * two_power k)) by ring.
      apply Qmult_lt_compat_r; [apply Qmult_lt_0_compat|]; assumption.
  - rewrite Zle_Qle in Hge.
    split.
    + apply (Qmult_le_r _ _ (inject_Z D)); [assumption|]. rewrite <- E.
      setoid_replace (inject_Z N * inject_Z d * two_power k)
        with (inject_Z N * (inject_Z d * two_power k)) by ring.
      setoid_replace (inject_Z d * two_power k * inject_Z D)
        with (inject_Z D * (inject_Z d * two_power k)) by ring.
      apply Qmult_le_compat_r; [assumption|].
      apply Qlt_le_weak, Qmult_lt_0_compat; assumption.
    + apply Qlt_le_trans with (y := two_power (Z.log2 n + 1)); [exact Bn|].
      rewrite Sn, Ea, two_power_succ. nra.
Qed.


Lemma Qmult_lt_cancel a b c : 0 < c -> a * c < b * c -> a < b.
Proof. intros Hc H. apply (Qmult_lt_r _ _ c); assumption. Qed.

Lemma Qmult_le_cancel a b c : 0 < c -> a * c <= b * c -> a <= b.
Proof. intros Hc H. apply (Qmult_le_r _ _ c); assumption. Qed.

Lemma inject_pos z : (0 < z)%Z -> 0 < inject_Z z.
Proof. intros H. rewrite Zlt_Qlt in H. exact H. Qed.

(** The scaled fraction, compared with an integer bound. *)
Lemma scaled_lt n d p (b : Z) :
  (0 < n)%Z -> (0 < d)%Z ->
  inject_Z n < inject_Z d * two_power p * inject_Z b ->
  (fst (scale2 n d p) < b * snd (scale2 n d p))%Z.
Proof.
  intros Hn Hd H. destruct (scale2_spec n d p Hn Hd) as (HN & HD & E).
  set (N := fst (scale2 n d p)) in *. set (D := snd (scale2 n d p)) in *.
  rewrite Zlt_Qlt, inject_Z_mult.
  pose proof (inject_pos _ Hd). pose proof (two_power_pos p). pose proof (inject_pos _ HD).
  apply (Qmult_lt_cancel _ _ (inject_Z d * two_power p)); [apply Qmult_lt_0_compat; assumption|].
  setoid_replace (inject_Z N * (inject_Z d * two_power p)) with (inject_Z N * inject_Z d * two_power p) by ring.
  rewrite E.
  setoid_replace (inject_Z b * inject_Z D * (inject_Z d * two_power p))
    with (inject_Z d * two_power p * inject_Z b * inject_Z D) by ring.
  apply Qmult_lt_compat_r; assumption.
Qed.

Lemma scaled_ge n d p (b : Z) :
  (0 < n)%Z -> (0 < d)%Z ->
  inject_Z d * two_power p * inject_Z b <= inject_Z n ->
  (b * snd (scale2 n d p) <= fst (scale2 n d p))%Z.
Proof.
  intros Hn Hd H. destruct (scale2_spec n d p Hn Hd) as (HN & HD & E).
  set (N := fst (scale2 n d p)) in *. set (D := snd (scale2 n d p)) in *.
  rewrite Zle_Qle, inject_Z_mult.
  pose proof (inject_pos _ Hd). pose proof (two_power_pos p). pose proof (inject_pos _ HD).
  apply (Qmult_le_cancel _ _ (inject_Z d * two_power p)); [apply Qmult_lt_0_compat; assumption|].
  setoid_replace (inject_Z N * (inject_Z d * two_power p)) with (inject_Z N * inject_Z d * two_power p) by ring.
  rewrite E.
  setoid_replace (inject_Z b * inject_Z D * (inject_Z d * two_power p))
    with (inject_Z d * two_power p * inject_Z b * inject_Z D) by ring.
  apply Qmult_le_compat_r; [assumption|apply Qlt_le_weak; assumption].
Qed.

Lemma two_power_53 : two_power 53 == inject_Z (2 ^ 53).
Proof. symmetry. apply two_power_inject. lia. Qed.

Lemma two_power_52 : two_power 52 == inject_Z (2 ^ 52).
Proof. symmetry. apply two_power_inject. lia. Qed.

Lemma mantissa_upper n d :
  (0 < n)%Z -> (0 < d)%Z -> (mantissa n d <= 2 ^ 53)%Z.
Proof.
  intros Hn Hd. unfold mantissa.
  destruct (scale2_spec n d (binade n d) Hn Hd) as (HN & HD & _).
  rewrite <- (rhe_exact (2 ^ 53) 1) at 1 by lia.
  apply rhe_mono; try lia.
  apply Z.lt_le_incl.
  replace (fst (scale2 n d (binade n d)) * 1)%Z with (fst (scale2 n d (binade n d))) by lia.
  replace (2 ^ 53 * 1 * snd (scale2 n d (binade n d)))%Z
    with (2 ^ 53 * snd (scale2 n d (binade n d)))%Z by lia.
  apply scaled_lt; try assumption.
  destruct (floor_log2_spec n d Hn Hd) as [_ Hup].
  eapply Qlt_le_trans; [exact Hup|].
  rewrite <- two_power_53. rewrite <- Qmult_assoc, <- two_power_add.
  apply Qmult_le_l; [apply inject_pos; assumption|].
  apply two_power_le. unfold binade. lia.
Qed.

Lemma mantissa_lower n d :
  (0 < n)%Z -> (0 < d)%Z -> (-1022 <= floor_log2 n d)%Z ->
  (2 ^ 52 <= mantissa n d)%Z.
Proof.
  intros Hn Hd He. unfold mantissa.
  destruct (scale2_spec n d (binade n d) Hn Hd) as (HN & HD & _).
  rewrite <- (rhe_exact (2 ^ 52) 1) at 1 by lia.
  apply rhe_mono; try lia.
  replace (fst (scale2 n d (binade n d)) * 1)%Z with (fst (scale2 n d (binade n d))) by lia.
  replace (2 ^ 52 * 1 * snd (scale2 n d (binade n d)))%Z
    with (2 ^ 52 * snd (scale2 n d (binade n d)))%Z by lia.
  apply scaled_ge; try assumption.
  destruct (floor_log2_spec n d Hn Hd) as [Hlow _].
  eapply Qle_trans; [|exact Hlow].
  rewrite <- two_power_52. rewrite <- Qmult_assoc, <- two_power_add.
  apply Qmult_le_l; [apply inject_pos; assumption|].
  apply two_power_le. unfold binade. lia.
Qed.

Lemma floor_log2_mono n1 d1 n2 d2 :
  (0 < n1)%Z -> (0 < d1)%Z -> (0 < n2)%Z -> (0 < d2)%Z ->
  (n1 * d2 <= n2 * d1)%Z ->
  (floor_log2 n1 d1 <= floor_log2 n2 d2)%Z.
Proof.
  intros Hn1 Hd1 Hn2 Hd2 H.
  destruct (floor_log2_spec n1 d1 Hn1 Hd1) as [L1 _].
  destruct (floor_log2_spec n2 d2 Hn2 Hd2) as [_ U2].
  set (e1 := floor_log2 n1 d1) in *. set (e2 := floor_log2 n2 d2) in *.
  assert (two_power e1 < two_power (e2 + 1)); [|apply two_power_lt_inv in H0; lia].
  rewrite Zle_Qle, !inject_Z_mult in H.
  pose proof (inject_pos _ Hd1) as Q1. pose proof (inject_pos _ Hd2) as Q2.
  apply (Qmult_lt_cancel _ _ (inject_Z d1 * inject_Z d2));
    [apply Qmult_lt_0_compat; assumption|].
  apply Qle_lt_trans with (y := inject_Z n1 * inject_Z d2).
  - setoid_replace (two_power e1 * (inject_Z d1 * inject_Z d2))
      with (inject_Z d1 * two_power e1 * inject_Z d2) by ring.
    apply Qmult_le_compat_r; [exact L1|apply Qlt_le_weak; exact Q2].
  - eapply Qle_lt_trans; [exact H|].
    setoid_replace (two_power (e2 + 1) * (inject_Z d1 * inject_Z d2))
      with (inject_Z d2 * two_power (e2 + 1) * inject_Z d1) by ring.
    apply Qmult_lt_compat_r; assumption.
Qed.

Lemma mantissa_mono_same_binade n1 d1 n2 d2 :
  (0 < n1)%Z -> (0 < d1)%Z -> (0 < n2)%Z -> (0 < d2)%Z ->
  (n1 * d2 <= n2 * d1)%Z -> binade n1 d1 = binade n2 d2 ->
  (mantissa n1 d1 <= mantissa n2 d2)%Z.
Proof.
  intros Hn1 Hd1 Hn2 Hd2 H Hp. unfold mantissa. rewrite Hp.
  set (p := binade n2 d2).
  destruct (scale2_spec n1 d1 p Hn1 Hd1) as (HN1 & HD1 & E1).
  destruct (scale2_spec n2 d2 p Hn2 Hd2) as (HN2 & HD2 & E2).
  set (N1 := fst (scale2 n1 d1 p)) in *. set (D1 := snd (scale2 n1 d1 p)) in *.
  set (N2 := fst (scale2 n2 d2 p)) in *. set (D2 := snd (scale2 n2 d2 p)) in *.
  apply rhe_mono; try assumption.
  rewrite Zle_Qle, !inject_Z_mult. rewrite Zle_Qle, !inject_Z_mult in H.
  pose proof (inject_pos _ Hd1) as Q1. pose proof (inject_pos _ Hd2) as Q2.
  pose proof (inject_pos _ HD1) as QD1. pose proof (inject_pos _ HD2) as QD2.
  pose proof (two_power_pos p) as Pp.
  apply (Qmult_le_cancel _ _ (inject_Z d1 * inject_Z d2 * two_power p));
    [repeat apply Qmult_lt_0_compat; assumption|].
  setoid_replace (inject_Z N1 * inject_Z D2 * (inject_Z d1 * inject_Z d2 * two_power p))
    with ((inject_Z N1 * inject_Z d1 * two_power p) * (inject_Z D2 * inject_Z d2)) by ring.
  setoid_replace (inject_Z N2 * inject_Z D1 * (inject_Z d1 * inject_Z d2 * two_power p))
    with ((inject_Z N2 * inject_Z d2 * two_power p) * (inject_Z D1 * inject_Z d1)) by ring.
  rewrite E1, E2.
  setoid_replace (inject_Z n1 * inject_Z D1 * (inject_Z D2 * inject_Z d2))
    with ((inject_Z n1 * inject_Z d2) * (inject_Z D1 * inject_Z D2)) by ring.
  setoid_replace (inject_Z n2 * inject_Z D2 * (inject_Z D1 * inject_Z d1))
    with ((inject_Z n2 * inject_Z d1) * (inject_Z D1 * inject_Z D2)) by ring.
  apply Qmult_le_compat_r; [exact H|].
  apply Qlt_le_weak, Qmult_lt_0_compat; assumption.
Qed.

Lemma value64_mono n1 d1 n2 d2 :
  (0 < n1)%Z -> (0 < d1)%Z -> (0 < n2)%Z -> (0 < d2)%Z ->
  (n1 * d2 <= n2 * d1)%Z ->
  value64 n1 d1 <= value64 n2 d2.
Proof.
  intros Hn1 Hd1 Hn2 Hd2 H. unfold value64.
  pose proof (floor_log2_mono _ _ _ _ Hn1 Hd1 Hn2 Hd2 H) as He.
  destruct (Z.eq_dec (binade n1 d1) (binade n2 d2)) as [Hp|Hp].
  - rewrite Hp. apply Qmult_le_compat_r; [|apply Qlt_le_weak, two_power_pos].
    rewrite <- Zle_Qle. apply mantissa_mono_same_binade; assumption.
  - assert (Hlt : (binade n1 d1 < binade n2 d2)%Z) by (unfold binade in *; lia).
    assert (He2 : (-1022 <= floor_log2 n2 d2)%Z) by (unfold binade in *; lia).
    pose proof (mantissa_upper n1 d1 Hn1 Hd1) as U.
    pose proof (mantissa_lower n2 d2 Hn2 Hd2 He2) as L.
    rewrite Zle_Qle in U, L. rewrite <- two_power_53 in U. rewrite <- two_power_52 in L.
    apply Qle_trans with (y := two_power 53 * two_power (binade n1 d1)).
    { apply Qmult_le_compat_r; [exact U|apply Qlt_le_weak, two_power_pos]. }
    apply Qle_trans with (y := two_power 52 * two_power (binade n2 d2)).
    { rewrite <- !two_power_add. apply two_power_le. lia. }
    apply Qmult_le_compat_r; [exact L|apply Qlt_le_weak, two_power_pos].
Qed.

Lemma mantissa_nonneg n d : (0 < n)%Z -> (0 < d)%Z -> (0 <= mantissa n d)%Z.
Proof.
  intros Hn Hd. unfold mantissa.
  destruct (scale2_spec n d (binade n d) Hn Hd) as (HN & HD & _).
  rewrite <- (rhe_exact 0 1) at 1 by lia.
  apply rhe_mono; lia.
Qed.

Lemma round64_pos_cases n d :
  (0 < n)%Z -> (0 < d)%Z ->
  (exists r, round64_pos n d = Finite r /\ r = Qred (value64 n d)
             /\ value64 n d < two_power 1024)
  \/ (round64_pos n d = Infinity false /\ two_power 1024 <= value64 n d).
Proof.
  intros Hn Hd. unfold round64_pos, value64. cbv zeta.
  pose proof (mantissa_nonneg n d Hn Hd) as Hm.
  set (m := mantissa n d) in *. set (p := binade n d).
  destruct (Z.eqb_spec m 0) as [E|E].
  - left. exists 0. rewrite E. split; [reflexivity|]. split.
    + change 0 with (Qred 0) at 1. apply Qred_complete. ring.
    + setoid_replace (inject_Z 0 * two_power p) with 0 by ring. apply two_power_pos.
  - assert (Hpos : (0 < m)%Z) by lia.
    destruct (log2_bounds m Hpos) as [Lm Um].
    destruct (Z.leb_spec 1024 (Z.log2 m + p)) as [Ho|Ho].
    + right. split; [reflexivity|].
      apply Qle_trans with (y := two_power (Z.log2 m) * two_power p).
      * rewrite <- two_power_add. apply two_power_le. exact Ho.
      * apply Qmult_le_compat_r; [exact Lm|apply Qlt_le_weak, two_power_pos].
    + left. eexists. repeat split.
      * apply Qred_complete. rewrite pow2Q_two_power. reflexivity.
      * apply Qlt_le_trans with (y := two_power (Z.log2 m + 1) * two_power p).
        -- apply Qmult_lt_compat_r; [apply two_power_pos|exact Um].
        -- rewrite <- two_power_add. apply two_power_le. lia.
Qed.

(** Rounding to binary64 is monotone: below a fraction that rounds to a
    finite value, every fraction rounds to a finite value that is not
    larger. *)
Lemma round64_pos_mono n1 d1 n2 d2 r2 :
  (0 < n1)%Z -> (0 < d1)%Z -> (0 < n2)%Z -> (0 < d2)%Z ->
  (n1 * d2 <= n2 * d1)%Z ->
  round64_pos n2 d2 = Finite r2 ->
  exists r1, round64_pos n1 d1 = Finite r1 /\ r1 <= r2.
Proof.
  intros Hn1 Hd1 Hn2 Hd2 H E2.
  pose proof (value64_mono _ _ _ _ Hn1 Hd1 Hn2 Hd2 H) as Hv.
  destruct (round64_pos_cases n2 d2 Hn2 Hd2) as [(r & Er & Hr & Hlt)|[Ei _]];
    [|congruence].
  rewrite E2 in Er. injection Er as <-.
  destruct (round64_pos_cases n1 d1 Hn1 Hd1) as [(r1 & Er1 & Hr1 & Hlt1)|[Ei Hge]].
  - exists r1. split; [exact Er1|]. rewrite Hr1, Hr, !Qred_correct. exact Hv.
  - exfalso. apply (Qlt_irrefl (two_power 1024)).
    eapply Qle_lt_trans; [exact Hge|]. eapply Qle_lt_trans; [exact Hv|exact Hlt].
Qed.

Lemma rhe_one k : round_half_even_div k 1 = k.
Proof. rewrite <- (Z.mul_1_r k) at 1. apply rhe_exact. lia. Qed.

Lemma Qred_integer z : Qred (inject_Z z) = inject_Z z.
Proof.
  unfold Qred, inject_Z.
  pose proof (Z.ggcd_gcd z 1) as Hg.
  pose proof (Z.ggcd_correct_divisors z 1) as Hd.
  destruct (Z.ggcd z 1) as [g [a b]]. simpl in *.
  rewrite Z.gcd_1_r in Hg. subst g. destruct Hd as [Ha Hb].
  assert (Ea : a = z) by lia. assert (Eb : b = 1%Z) by lia.
  rewrite Ea, Eb. reflexivity.
Qed.

Lemma round64_pos_integer z :
  (0 < z < 2 ^ 53)%Z -> round64_pos z 1 = Finite (inject_Z z).
Proof.
  intros [Hz Hlt].
  assert (Hv : value64 z 1 == inject_Z z).
  { unfold value64, mantissa.
    destruct (floor_log2_spec z 1 Hz ltac:(lia)) as [L U].
    assert (He0 : (0 <= floor_log2 z 1)%Z).
    { assert (two_power 0 < two_power (floor_log2 z 1 + 1)); [|apply two_power_lt_inv in H; lia].
      eapply Qle_lt_trans; [|rewrite Qmult_1_l in U; exact U].
      change (two_power 0) with (inject_Z 1). rewrite <- Zle_Qle. lia. }
    assert (He52 : (floor_log2 z 1 < 53)%Z).
    { apply two_power_lt_inv. rewrite Qmult_1_l in L. eapply Qle_lt_trans; [exact L|].
      rewrite two_power_53, <- Zlt_Qlt. exact Hlt. }
    set (p := binade z 1).
    assert (Hp : (-52 <= p <= 0)%Z) by (unfold p, binade; lia).
    assert (Hm : round_half_even_div (fst (scale2 z 1 p)) (snd (scale2 z 1 p))
                 = (z * 2 ^ (- p))%Z).
    { unfold scale2. destruct (Z.leb_spec 0 p) as [H0|H0]; cbn [fst snd].
      - assert (Hp0 : p = 0%Z) by lia. rewrite Hp0.
        change (1 * 2 ^ 0)%Z with 1%Z. change (2 ^ (- 0))%Z with 1%Z.
        rewrite Z.mul_1_r. apply rhe_one.
      - apply rhe_one. }
    rewrite Hm, inject_Z_mult, two_power_inject by lia.
    rewrite <- Qmult_assoc. rewrite (Qmult_comm (two_power (- p))), two_power_opp. ring. }
  destruct (round64_pos_cases z 1 Hz ltac:(lia)) as [(r & Er & Hr & _)|[_ Hge]].
  - rewrite Er, Hr. f_equal.
    rewrite (Qred_complete _ _ Hv). apply Qred_integer.
  - exfalso. rewrite Hv in Hge.
    assert (inject_Z z < two_power 1024); [|apply (Qlt_irrefl (two_power 1024)); eapply Qle_lt_trans; eassumption].
    apply Qlt_le_trans with (y := two_power 53).
    + rewrite two_power_53, <- Zlt_Qlt. exact Hlt.
    + apply two_power_le. lia.
Qed.

Lemma number_of_nat_exact n :
  (Z.of_nat n < 2 ^ 53)%Z -> number_of_nat n = Finite (inject_Z (Z.of_nat n)).
Proof.
  intros H. unfold number_of_nat, of_Z, round64.
  destruct (Z.of_nat n) as [|z|z] eqn:E; simpl.
  - reflexivity.
  - apply round64_pos_integer. lia.
  - lia.
Qed.

(** The ratio of two counts. *)
Lemma ratio_of_counts f t :
  (0 < Z.of_nat f < 2 ^ 53)%Z -> (0 < Z.of_nat t < 2 ^ 53)%Z ->
  div (number_of_nat f) (number_of_nat t) = round64_pos (Z.of_nat f) (Z.of_nat t).
Proof.
  intros Hf Ht. rewrite !number_of_nat_exact by lia.
  destruct (Z.of_nat f) as [|f'|f'] eqn:Ef; try lia.
  destruct (Z.of_nat t) as [|t'|t'] eqn:Et; try lia.
  unfold div, round64. simpl. rewrite Pos.mul_1_r. reflexivity.
Qed.

Lemma ratio_of_no_votes t :
  (0 < Z.of_nat t < 2 ^ 53)%Z ->
  div (number_of_nat 0) (number_of_nat t) = Finite 0.
Proof.
  intros Ht. rewrite (number_of_nat_exact t) by lia.
  destruct (Z.of_nat t) as [|t'|t'] eqn:Et; try lia.
  reflexivity.
Qed.

Lemma less_than_true p q : p < q -> lt (Finite p) (Finite q) = true.
Proof.
  intros H. unfold lt. destruct (Qlt_le_dec p q) as [_|H']; [reflexivity|].
  exfalso. apply (Qlt_irrefl p). eapply Qlt_le_trans; eassumption.
Qed.

Lemma less_than_false p q : q <= p -> lt (Finite p) (Finite q) = false.
Proof.
  intros H. unfold lt. destruct (Qlt_le_dec p q) as [H'|_]; [|reflexivity].
  exfalso. apply (Qlt_irrefl p). eapply Qlt_le_trans; eassumption.
Qed.

(** The ratio of [f] votes among [t] frames, [0 < f <= t]: finite and at
    most 1. *)
Lemma ratio_at_most_one f t :
  (0 < f <= t)%Z -> exists r, round64_pos f t = Finite r /\ r <= 1.
Proof.
  intros H.
  apply (round64_pos_mono f t 1 1 1); try lia.
  vm_compute. reflexivity.
Qed.

Lemma above_two_fifths f t :
  (0 < f <= t)%Z -> (t < 2 ^ 32)%Z -> (2 * t < 5 * f)%Z ->
  gt (round64_pos f t) (of_decimal 4 (-1)) = true.
Proof.
  intros H Ht Hv.
  destruct (ratio_at_most_one f t H) as (r & Er & _).
  destruct (round64_pos_mono 7205759403792795 (2 ^ 54) f t r) as (c & Ec & Hc);
    try lia; try exact Er.
  vm_compute in Ec. injection Ec as <-.
  rewrite Er. unfold gt.
  change (of_decimal 4 (-1)) with (Finite (3602879701896397 # 9007199254740992)).
  apply less_than_true. eapply Qlt_le_trans; [|exact Hc]. reflexivity.
Qed.

Lemma not_above_two_fifths f t :
  (0 < f <= t)%Z -> (5 * f <= 2 * t)%Z ->
  gt (round64_pos f t) (of_decimal 4 (-1)) = false.
Proof.
  intros H Hv.
  destruct (round64_pos_mono f t 4 10 (3602879701896397 # 9007199254740992))
    as (r & Er & Hr); try lia.
  { vm_compute. reflexivity. }
  rewrite Er. unfold gt.
  change (of_decimal 4 (-1)) with (Finite (3602879701896397 # 9007199254740992)).
  apply less_than_false. exact Hr.
Qed.

Lemma below_one_tenth f t :
  (0 < f <= t)%Z -> (t < 2 ^ 32)%Z -> (10 * f < t)%Z ->
  lt (round64_pos f t) (of_decimal 1 (-1)) = true.
Proof.
  intros H Ht Hv.
  destruct (round64_pos_mono f t 7205759403792793 (2 ^ 56)
              (7205759403792793 # 72057594037927936))
    as (r & Er & Hr); try lia.
  { vm_compute. reflexivity. }
  rewrite Er.
  change (of_decimal 1 (-1)) with (Finite (3602879701896397 # 36028797018963968)).
  apply less_than_true. eapply Qle_lt_trans; [exact Hr|]. reflexivity.
Qed.

Lemma not_below_one_tenth f t :
  (0 < f <= t)%Z -> (t <= 10 * f)%Z ->
  lt (round64_pos f t) (of_decimal 1 (-1)) = false.
Proof.
  intros H Hv.
  destruct (ratio_at_most_one f t H) as (r & Er & _).
  destruct (round64_pos_mono 1 10 f t r) as (c & Ec & Hc); try lia; try exact Er.
  vm_compute in Ec. injection Ec as <-.
  rewrite Er.
  change (of_decimal 1 (-1)) with (Finite (3602879701896397 # 36028797018963968)).
  apply less_than_false. exact Hc.
Qed.

End Rounding.

(** *** The aggregator *)

Lemma summarize_verdict len t :
  verdict (summarize len t) = verdict_of (ratio (summarize len t)).
Proof. reflexivity. Qed.

Lemma aggregate_returns frs a :
  aggregateFrameResults frs = Return a ->
  exists t, tally_frames frs no_votes = Return t /\ a = summarize (List.length frs) t.
Proof.
  unfold aggregateFrameResults. intros H.
  destruct (tally_frames frs no_votes) as [t|e]; [|discriminate].
  exists t. split; [reflexivity|]. congruence.
Qed.

(** A ratio below 0.1 is not above 0.4. *)
Lemma below_tenth_not_above_two_fifths x :
  lt x (of_decimal 1 (-1)) = true -> gt x (of_decimal 4 (-1)) = false.
Proof.
  destruct x as [| [|] | q]; try discriminate; try reflexivity.
  unfold gt.
  change (of_decimal 1 (-1)) with (Finite (3602879701896397 # 36028797018963968)).
  change (of_decimal 4 (-1)) with (Finite (3602879701896397 # 9007199254740992)).
  unfold lt.
  destruct (Qlt_le_dec q _) as [H1|H1]; [|discriminate].
  destruct (Qlt_le_dec _ q) as [H2|H2]; [|reflexivity].
  intros _. exfalso.
  assert (H : (3602879701896397 # 9007199254740992
               < 3602879701896397 # 36028797018963968)%Q).
  { eapply Qlt_trans; eauto. }
  revert H. unfold Qlt. simpl. lia.
Qed.

Lemma cast_vote_bound txt n : (cast_vote txt n <= S n)%nat.
Proof. unfold cast_vote. destruct (mentions_fake txt); lia. Qed.

Lemma cast_vote_mono txt n : (n <= cast_vote txt n)%nat.
Proof. unfold cast_vote. destruct (mentions_fake txt); lia. Qed.

Lemma frame_entry_votes fr t t' :
  frame_entry fr t = Return t' -> (votes t <= votes t' <= S (votes t))%nat.
Proof.
  unfold frame_entry. destruct (negb (truthy fr)).
  { intros H. injection H as <-. lia. }
  destruct (truthy (get fr "classifier") && isArray (get fr "classifier")).
  - unfold structured_entry.
    destruct (truthy (index0 (get fr "classifier"))
              && truthy (get (index0 (get fr "classifier")) "label")).
    + destruct (label_toString _) as [text|e]; [|discriminate].
      pose proof (cast_vote_bound (toLowerCase text) (votes t)).
      pose proof (cast_vote_mono (toLowerCase text) (votes t)).
      destruct (truthy (get _ "score")).
      * destruct (ToNumber _) as [x|e]; [|discriminate].
        intros E. injection E as <-. simpl. lia.
      * intros E. injection E as <-. simpl. lia.
    + intros E. injection E as <-. unfold unstructured_entry.
      destruct fr; simpl;
        first [apply conj; [apply cast_vote_mono|apply cast_vote_bound]].
  - intros E. injection E as <-. unfold unstructured_entry.
    destruct fr; simpl;
      first [apply conj; [apply cast_vote_mono|apply cast_vote_bound]].
Qed.

Lemma tally_frames_votes frs : forall t t',
  tally_frames frs t = Return t' ->
  (votes t <= votes t' <= votes t + List.length frs)%nat.
Proof.
  induction frs as [|fr frs IH]; intros t t' H; simpl in H.
  - injection H as <-. lia.
  - destruct (frame_entry fr t) as [t1|e] eqn:E; [|discriminate].
    apply frame_entry_votes in E. apply IH in H. simpl. lia.
Qed.

Lemma fake_votes_at_most_total frs a :
  aggregateFrameResults frs = Return a ->
  (fakeVotes a <= total a)%nat /\ (0 < total a)%nat
  /\ (frs <> nil -> total a = List.length frs).
Proof.
  intros H. destruct (aggregate_returns _ _ H) as (t & Ht & ->).
  apply tally_frames_votes in Ht. simpl in Ht.
  unfold summarize. cbn [fakeVotes total].
  destruct frs as [|fr frs]; simpl in *; repeat split; try lia. congruence.
Qed.

(** The verdict in terms of the counts themselves, for a sequence shorter
    than 2^32 (the bound on the length of an array): likely_fake exactly
    when more than two fifths of the frame results vote fake, likely_real
    exactly when fewer than one tenth do.  The rounding of the quotient to
    binary64 and of the literals 0.4 and 0.1 does not move any count across
    a threshold. *)
Lemma verdict_by_vote_counts frs a :
  frs <> nil -> Z.of_nat (List.length frs) < 2 ^ 32 ->
  aggregateFrameResults frs = Return a ->
  (2 * Z.of_nat (total a) < 5 * Z.of_nat (fakeVotes a) -> verdict a = likely_fake)
  /\ (10 * Z.of_nat (fakeVotes a) < Z.of_nat (total a) -> verdict a = likely_real)
  /\ (5 * Z.of_nat (fakeVotes a) <= 2 * Z.of_nat (total a) ->
      Z.of_nat (total a) <= 10 * Z.of_nat (fakeVotes a) ->
      verdict a = inconclusive).
Proof.
  intros Hne Hlen Ha.
  destruct (fake_votes_at_most_total _ _ Ha) as (Hle & Hpos & Htot).
  specialize (Htot Hne).
  destruct (aggregate_returns _ _ Ha) as (t & _ & ->).
  unfold summarize in *. cbn [verdict ratio fakeVotes total] in *.
  set (tot := match List.length frs with O => 1%nat | S _ => List.length frs end) in *.
  set (f := votes t) in *.
  unfold verdict_of.
  destruct f as [|f'] eqn:Ef.
  - rewrite ratio_of_no_votes by lia.
    repeat split; intros; try lia; reflexivity.
  - rewrite ratio_of_counts by lia.
    repeat split.
    + intros H. rewrite above_two_fifths by lia. reflexivity.
    + intros H. rewrite not_above_two_fifths by lia.
      rewrite below_one_tenth by lia. reflexivity.
    + intros H1 H2. rewrite not_above_two_fifths by lia.
      rewrite not_below_one_tenth by lia. reflexivity.
Qed.

(** The ratio is a number between 0 and 1. *)
Lemma ratio_within_unit_interval frs a :
  Z.of_nat (List.length frs) < 2 ^ 32 ->
  aggregateFrameResults frs = Return a ->
  exists r, ratio a = Finite r /\ (0 <= r <= 1)%Q.
Proof.
  intros Hlen Ha.
  destruct (fake_votes_at_most_total _ _ Ha) as (Hle & Hpos & _).
  destruct (aggregate_returns _ _ Ha) as (t & _ & ->).
  unfold summarize in *. cbn [ratio fakeVotes total] in *.
  set (tot := match List.length frs with O => 1%nat | S _ => List.length frs end) in *.
  assert (Ht : Z.of_nat tot < 2 ^ 32).
  { unfold tot. destruct (List.length frs); lia. }
  destruct (votes t) as [|f'] eqn:Ef.
  - rewrite ratio_of_no_votes by lia. exists 0%Q. split; [reflexivity|].
    split; discriminate.
  - rewrite ratio_of_counts by lia.
    destruct (ratio_at_most_one (Z.of_nat (S f')) (Z.of_nat tot) ltac:(lia))
      as (r & Er & Hr).
    exists r. split; [exact Er|]. split; [|exact Hr].
    destruct (round64_pos_cases (Z.of_nat (S f')) (Z.of_nat tot)
                ltac:(lia) ltac:(lia)) as [(r' & Er' & Hr' & _)|[Ei _]]; [|congruence].
    rewrite Er in Er'. injection Er' as <-. rewrite Hr', Qred_correct.
    unfold value64. apply Qmult_le_0_compat.
    + change 0%Q with (inject_Z 0). rewrite <- Zle_Qle. apply mantissa_nonneg; lia.
    + apply Qlt_le_weak, two_power_pos.
Qed.

(** C10.  Applied to the empty sequence the aggregator does not throw: the
    divisor [total] is coerced from 0 to 1, and the result is zero fake votes,
    ratio 0, the verdict likely_real and the confidence 40. *)
Theorem aggregator_on_empty_sequence :
  aggregateFrameResults [] =
  Return {| verdict := likely_real;
            confidence := Finite 40;
            ratio := Finite 0;
            fakeVotes := 0;
            total := 1;
            avgConf := None |}.
Proof. vm_compute. reflexivity. Qed.

(** C3, at the input on which it fails.  The one-entry sequence whose entry
    is the free text [confidence: 999] is aggregated to the confidence 999,
    which is above 100; the ratio, 0, is within bounds. *)
Theorem aggregator_confidence_999 :
  aggregateFrameResults text_with_confidence_999 =
    Return {| verdict := likely_real;
              confidence := Finite 999;
              ratio := Finite 0;
              fakeVotes := 0;
              total := 1;
              avgConf := Some (Finite 999) |}
  /\ gt (Finite 999) (of_Z 100) = true.
Proof. split; vm_compute; reflexivity. Qed.

(** The same through the structured branch: a top prediction with score 5
    gives the confidence 500. *)
Example aggregator_confidence_500 :
  confidence_of [classified "frame-000001.jpg" "fake" (of_Z 5)] = Some (Finite 500).
Proof. vm_compute. reflexivity. Qed.

(** C4, as the specification words it, fails: for three free-text results
    without a confidence pattern, one of them fake, the ratio is 1/3 and the
    ratio-derived estimate is 73.33..., but the aggregator answers 73. *)
Lemma confidence_is_not_the_unrounded_estimate :
  confidence_of one_fake_in_three_texts = Some (Finite 73)
  /\ spec_confidence_of one_fake_in_three_texts
     = Some (Finite (5160374573028693 # 70368744177664))
  /\ confidence_of one_fake_in_three_texts
     <> spec_confidence_of one_fake_in_three_texts.
Proof.
  assert (H1 : confidence_of one_fake_in_three_texts = Some (Finite 73))
    by (vm_compute; reflexivity).
  assert (H2 : spec_confidence_of one_fake_in_three_texts
               = Some (Finite (5160374573028693 # 70368744177664)))
    by (vm_compute; reflexivity).
  repeat split; try assumption.
  rewrite H1, H2. discriminate.
Qed.

(** C4, amended.  For every non-empty sequence on which the aggregator
    returns: when at least one confidence sample was collected and the average
    of the samples, rounded to the nearest integer, is a non-zero number, the
    confidence is that rounded average; when no sample was collected, the
    confidence is the ratio-derived estimate rounded to the nearest integer,
    [Math.round(Math.min(100, Math.max(40, ratio * 100 + 40)))]. *)
Theorem confidence_is_rounded_average_or_rounded_estimate
  (frameResults : list value) (t : tally) (a : Aggregate) :
  frameResults <> [] ->
  tally_frames frameResults no_votes = Return t ->
  aggregateFrameResults frameResults = Return a ->
  (confidences t <> [] ->
   number_truthy (Math_round (spec_average (confidences t))) = true ->
   confidence a = Math_round (spec_average (confidences t)))
  /\ (confidences t = [] ->
      confidence a = Math_round (spec_estimate (ratio a))).
Proof.
  intros _ Ht Ha. unfold aggregateFrameResults in Ha. rewrite Ht in Ha.
  injection Ha as <-. unfold summarize. cbn [confidence ratio].
  split.
  - intros Hne Htruthy.
    destruct (confidences t) as [|c cs] eqn:E; [congruence|].
    unfold rounded_average. fold (spec_average (c :: cs)).
    rewrite Htruthy. reflexivity.
  - intros Hnil. rewrite Hnil. reflexivity.
Qed.

Lemma confidence_is_rounded_average_or_rounded_estimate_witness :
  (confidence_of two_fake_one_real = Some (Finite 87))
  /\ ((confidences {| votes := 2; confidences := [Finite 90; Finite 90; Finite 80] |} <> [] ->
       number_truthy (Math_round (spec_average [Finite 90; Finite 90; Finite 80])) = true ->
       Finite 87 = Math_round (spec_average [Finite 90; Finite 90; Finite 80]))
      /\ (confidences {| votes := 2; confidences := [Finite 90; Finite 90; Finite 80] |} = [] ->
          Finite 87 = Math_round (spec_estimate (round64 (2 # 3))))).
Proof.
  split; [vm_compute; reflexivity|].
  apply (confidence_is_rounded_average_or_rounded_estimate two_fake_one_real
           {| votes := 2; confidences := [Finite 90; Finite 90; Finite 80] |}
           {| verdict := likely_fake;
              confidence := Finite 87;
              ratio := round64 (2 # 3);
              fakeVotes := 2;
              total := 3;
              avgConf := Some (Finite 87) |}).
  - discriminate.
  - vm_compute. reflexivity.
  - vm_compute. reflexivity.
Defined.

(** *** The retry helper *)

Lemma retry_from_first_success {A : Type} (fn : M A) baseDelay :
  forall k n i lastErr w v w',
    (k < n)%nat ->
    (forall j, (j < k)%nat ->
       exists e w'', fn (attempt_world_from fn baseDelay i j w) = (Throw e, w'')) ->
    fn (attempt_world_from fn baseDelay i k w) = (Return v, w') ->
    retry_from fn baseDelay n i lastErr w = (Return v, w').
Proof.
  induction k as [|k IH]; intros n i lastErr w v w' Hlt Hfail Hok;
    destruct n as [|n]; try lia; simpl in *.
  - apply try_catch_return. exact Hok.
  - destruct (Hfail 0%nat ltac:(lia)) as (e & w1 & Hfirst). simpl in Hfirst.
    rewrite (try_catch_throw _ _ _ _ _ Hfirst).
    unfold bind, sleep at 1, perform.
    apply IH.
    + lia.
    + intros j Hj. specialize (Hfail (S j) ltac:(lia)). simpl in Hfail.
      unfold after_failure, sleep, perform in Hfail. rewrite Hfirst in Hfail.
      exact Hfail.
    + unfold after_failure, sleep, perform in Hok. rewrite Hfirst in Hok.
      exact Hok.
Qed.

Lemma retry_from_all_fail {A : Type} (fn : M A) baseDelay :
  forall n i lastErr w e w',
    (forall j, (j < n)%nat ->
       exists e' w'', fn (attempt_world_from fn baseDelay i j w) = (Throw e', w'')) ->
    fn (attempt_world_from fn baseDelay i n w) = (Throw e, w') ->
    retry_from fn baseDelay (S n) i lastErr w
    = (Throw e, snd (sleep (baseDelay * 2 ^ (i + Z.of_nat n)) w')).
Proof.
  induction n as [|n IH]; intros i lastErr w e w' Hfail Hlast.
  - simpl in *. rewrite (try_catch_throw _ _ _ _ _ Hlast).
    unfold bind, sleep, perform, throw. rewrite Z.add_0_r. reflexivity.
  - destruct (Hfail 0%nat ltac:(lia)) as (e1 & w1 & Hfirst). simpl in Hfirst.
    change (retry_from fn baseDelay (S (S n)) i lastErr w)
      with (try_catch fn (fun err =>
              bind (sleep (baseDelay * 2 ^ i))
                (fun _ => retry_from fn baseDelay (S n) (i + 1) err)) w).
    rewrite (try_catch_throw _ _ _ _ _ Hfirst).
    unfold bind at 1, sleep at 1, perform.
    replace (i + Z.of_nat (S n)) with (i + 1 + Z.of_nat n) by lia.
    apply IH.
    + intros j Hj. specialize (Hfail (S j) ltac:(lia)). simpl in Hfail.
      unfold after_failure, sleep, perform in Hfail. rewrite Hfirst in Hfail.
      exact Hfail.
    + simpl in Hlast.
      unfold after_failure, sleep, perform in Hlast. rewrite Hfirst in Hlast.
      exact Hlast.
Qed.

(** C2.  With the defaults [attempts = 3] and [baseDelay = 500], whatever
    the operation and whichever of its invocations fail: if the invocation
    number [k < 3] is the first to succeed, [retry] returns its result in the
    very world that invocation ends in, so nothing is invoked after it; and
    if the three invocations fail, [retry] throws the error of the third one
    as it is (after the last back-off). *)
Theorem retry_first_success_or_last_error {A : Type} (fn : M A) (w : world) :
  (forall k v w',
     (k < 3)%nat ->
     (forall j, (j < k)%nat ->
        exists e w'', fn (attempt_world fn 500 j w) = (Throw e, w'')) ->
     fn (attempt_world fn 500 k w) = (Return v, w') ->
     retry fn 3 500 w = (Return v, w'))
  /\ (forall e1 e2 e3 w1 w2 w3,
        fn (attempt_world fn 500 0 w) = (Throw e1, w1) ->
        fn (attempt_world fn 500 1 w) = (Throw e2, w2) ->
        fn (attempt_world fn 500 2 w) = (Throw e3, w3) ->
        retry fn 3 500 w = (Throw e3, snd (sleep 2000 w3))).
Proof.
  split.
  - intros k v w' Hk Hfail Hok. unfold retry.
    eapply retry_from_first_success; eauto.
  - intros e1 e2 e3 w1 w2 w3 H1 H2 H3. unfold retry.
    change 2000 with (500 * 2 ^ (0 + Z.of_nat 2)).
    apply retry_from_all_fail; [|exact H3].
    intros j Hj.
    destruct j as [|[|j]]; [eauto | eauto | lia].
Qed.

(** The two scenarios of the specification, on an operation that times out
    twice and then answers, and on one that times out three times. *)
Lemma retry_first_success_or_last_error_witness :
  retry (sample_operation (flaky_env 2)) 3 500 initial_world
  = (Return (VString "ok"),
     {| log := [HttpGet "https://api.aethra.test/api/reports/r1" "Bearer service-key";
                SetTimeout 500;
                HttpGet "https://api.aethra.test/api/reports/r1" "Bearer service-key";
                SetTimeout 1000;
                HttpGet "https://api.aethra.test/api/reports/r1" "Bearer service-key"];
        toCleanup := [] |})
  /\ fst (retry (sample_operation (flaky_env 3)) 3 500 initial_world)
     = Throw (ThrownError "AxiosError" "attempt 3 timed out").
Proof.
  split.
  - apply (proj1 (retry_first_success_or_last_error
                    (sample_operation (flaky_env 2)) initial_world) 2%nat).
    + lia.
    + intros j Hj. destruct j as [|[|j]]; [| |lia]; vm_compute; eauto.
    + vm_compute. reflexivity.
  - erewrite (proj2 (retry_first_success_or_last_error
                       (sample_operation (flaky_env 3)) initial_world));
      [reflexivity | vm_compute; reflexivity ..].
Defined.

(** *** What the helpers add to the history *)

Ltac emits_step :=
  match goal with
  | |- emits _ (bind _ _) => apply emits_bind; [|intros]
  | |- emits _ (try_catch _ _) => apply emits_try_catch; [|intros]
  | |- emits _ (retry_default _) => apply emits_retry_default; [|intros]
  | |- emits _ (perform _ _) => apply emits_perform
  | |- emits _ (spawn_ffmpeg _ _) => apply emits_spawn_ffmpeg
  | |- emits _ (ret _) => apply emits_ret
  | |- emits _ (throw _) => apply emits_throw
  | |- emits _ (lift _) => apply emits_lift
  | |- emits _ (push_cleanup _) => apply emits_push_cleanup
  | |- emits _ (match ?x with _ => _ end) => destruct x
  end.

Ltac emits_auto := repeat emits_step; auto.

Lemma getReport_emits cfg env reportId :
  emits controller_read (getReport cfg env reportId).
Proof. unfold getReport. emits_auto; split; reflexivity. Qed.

Lemma downloadFromGCS_emits cfg env gsUri :
  emits quiet (downloadFromGCS cfg env gsUri).
Proof. unfold downloadFromGCS. emits_auto; split; reflexivity. Qed.

Lemma extractFrames_emits env videoPath outDir fps :
  emits quiet (extractFrames env videoPath outDir fps).
Proof. unfold extractFrames. emits_auto; split; reflexivity. Qed.

Lemma filter_unchanged {A : Type} (f : A -> bool) (l added : list A) :
  Forall (fun x => f x = false) added -> filter f (l ++ added) = filter f l.
Proof.
  intros H. rewrite filter_app.
  replace (filter f added) with (@nil A); [apply app_nil_r|].
  induction H as [|x xs Hx _ IH]; simpl; [reflexivity|].
  rewrite Hx. exact IH.
Qed.

(** A retried single call: what it leaves in the history is that call, once
    per attempt, and the back-offs between; the [toCleanup] array is not
    touched. *)
Lemma retry_from_perform {A : Type} e (answer : list event -> outcome A) baseDelay :
  forall n i lastErr w r w',
    retry_from (perform e answer) baseDelay (S n) i lastErr w = (r, w') ->
    exists attempts,
      log w' = (log w ++ e :: attempts)%list
      /\ Forall (fun x => x = e \/ exists d, x = SetTimeout d) attempts
      /\ toCleanup w' = toCleanup w.
Proof.
  induction n as [|n IH]; intros i lastErr w r w' H.
  - simpl in H. unfold try_catch, perform, bind, sleep, perform, throw in H.
    destruct (answer (log (record_event e w))) as [a|err].
    + inversion H; subst. exists []. simpl. auto.
    + inversion H; subst. exists [SetTimeout (baseDelay * 2 ^ i)]. simpl.
      rewrite <- app_assoc. simpl. repeat split; eauto.
  - change (retry_from (perform e answer) baseDelay (S (S n)) i lastErr w)
      with (try_catch (perform e answer) (fun err =>
              bind (sleep (baseDelay * 2 ^ i))
                (fun _ => retry_from (perform e answer) baseDelay (S n) (i + 1) err)) w)
      in H.
    unfold try_catch, perform at 1, bind at 1, sleep at 1, perform at 1 in H.
    destruct (answer (log (record_event e w))) as [a|err].
    + inversion H; subst. exists []. simpl. auto.
    + apply IH in H. destruct H as (attempts & Hlog & Hall & Hclean).
      exists (SetTimeout (baseDelay * 2 ^ i) :: e :: attempts). simpl in *.
      rewrite Hlog, <- !app_assoc. simpl. repeat split; eauto.
      constructor; [right; eauto|]. constructor; [left; reflexivity|exact Hall].
Qed.

(** A retried single call settles: it returns or throws, and the process
    goes on. *)
Lemma retry_from_perform_settles {A : Type} e (answer : list event -> outcome A)
  baseDelay :
  forall n i lastErr w err w',
    retry_from (perform e answer) baseDelay n i lastErr w <> (Uncaught err, w').
Proof.
  induction n as [|n IH]; intros i lastErr w err w' H.
  - simpl in H. unfold throw in H. discriminate H.
  - change (retry_from (perform e answer) baseDelay (S n) i lastErr w)
      with (try_catch (perform e answer) (fun err =>
              bind (sleep (baseDelay * 2 ^ i))
                (fun _ => retry_from (perform e answer) baseDelay n (i + 1) err)) w)
      in H.
    unfold try_catch, perform at 1, bind at 1, sleep at 1, perform at 1 in H.
    destruct (answer (log (record_event e w))) as [a0|err0].
    + discriminate H.
    + exact (IH _ _ _ _ _ H).
Qed.

(** A retried single call that returns: the last thing in the history is
    that call, and the value returned is what the environment answered to
    it. *)
Lemma retry_from_perform_success {A : Type} e (answer : list event -> outcome A)
  baseDelay :
  forall n i lastErr w a w',
    retry_from (perform e answer) baseDelay n i lastErr w = (Return a, w') ->
    exists retried,
      log w' = (log w ++ retried ++ [e])%list
      /\ answer (log w') = Return a
      /\ Forall (fun x => x = e \/ exists d, x = SetTimeout d) retried
      /\ toCleanup w' = toCleanup w.
Proof.
  induction n as [|n IH]; intros i lastErr w a w' H.
  - simpl in H. unfold throw in H. discriminate H.
  - change (retry_from (perform e answer) baseDelay (S n) i lastErr w)
      with (try_catch (perform e answer) (fun err =>
              bind (sleep (baseDelay * 2 ^ i))
                (fun _ => retry_from (perform e answer) baseDelay n (i + 1) err)) w)
      in H.
    unfold try_catch, perform at 1, bind at 1, sleep at 1, perform at 1 in H.
    destruct (answer (log (record_event e w))) as [a0|err] eqn:Ea.
    + inversion H; subst. exists []. simpl. auto.
    + apply IH in H. destruct H as (retried & Hlog & Hans & Hall & Hclean).
      exists (e :: SetTimeout (baseDelay * 2 ^ i) :: retried). simpl in *.
      assert (Hl : log w'
                   = (log w ++ e :: SetTimeout (baseDelay * 2 ^ i) :: retried ++ [e])%list).
      { rewrite Hlog, <- !app_assoc. reflexivity. }
      split; [exact Hl|]. split; [exact Hans|]. split; [|exact Hclean].
      constructor; [left; reflexivity|]. constructor; [right; eauto|exact Hall].
Qed.

(** What [callHFTextModel] leaves in the history: the POST of the prompt to
    the model, once per attempt, and the back-offs between. *)
Lemma callHFTextModel_log cfg env prompt model w r w' :
  callHFTextModel cfg env prompt model w = (r, w') ->
  let post :=
    HttpPost (model_url model)
      (JsonBody (VObject [("inputs", VString prompt);
                          ("options", VObject [("wait_for_model", VBool true)])]))
      (bearer (HF_API_KEY cfg)) in
  exists attempts,
    log w' = (log w ++ post :: attempts)%list
    /\ Forall (fun x => x = post \/ exists d, x = SetTimeout d) attempts.
Proof.
  intros H post. unfold callHFTextModel in H. cbv zeta in H. fold post in H.
  unfold bind in H.
  destruct (retry_default (perform post (http_response env)) w) as [c w1] eqn:E.
  unfold retry_default, retry in E. apply retry_from_perform in E.
  destruct E as (attempts & Hlog & Hall & _).
  assert (Hw : w' = w1).
  { destruct c as [[data|err]|err]; [|inversion H; reflexivity..].
    destruct (is_string data); [inversion H; reflexivity|].
    destruct (has_generated_text data); inversion H; reflexivity. }
  subst w'. exists attempts. split; assumption.
Qed.

(** *** The inference wrappers *)

(** C9.  Whenever the multimodal call of [callHFReportModel] throws,
    whatever the error, the result is that of [callHFTextModel] on the
    augmented prompt, started in the world the failed call left; the error
    of the multimodal call appears nowhere in it.  The augmented prompt is
    the original prompt prefixed with the instruction to produce JSON with
    the fields summary, type, verdict, confidence, evidence and
    recommendations, and it is what is posted to the text model then. *)
Theorem report_model_falls_back_to_text_model
  cfg env (promptText : string) (imagePaths : list string) (model : string)
  (w w' : world) (err : thrown) :
  multimodal_call cfg env promptText imagePaths model w = (Throw err, w') ->
  let augmented :=
    "You are an expert forensic analyst. Using the evidence below (labels & confidences), produce JSON: summary, type='deepfake', verdict('likely_fake'|'likely_real'|'inconclusive'), confidence(0-100), evidence[], recommendations[]."
    ++ newline ++ newline ++ newline ++ newline ++ promptText in
  let post :=
    HttpPost (model_url (HF_AUDIT_MODEL cfg))
      (JsonBody (VObject [("inputs", VString augmented);
                          ("options", VObject [("wait_for_model", VBool true)])]))
      (bearer (HF_API_KEY cfg)) in
  callHFReportModel cfg env promptText imagePaths model w
  = callHFTextModel cfg env augmented (HF_AUDIT_MODEL cfg) w'
  /\ exists attempts,
       log (snd (callHFReportModel cfg env promptText imagePaths model w))
       = (log w' ++ post :: attempts)%list
       /\ Forall (fun x => x = post \/ exists d, x = SetTimeout d) attempts.
Proof.
  intros H augmented post.
  assert (Hprompt : fallbackPrompt promptText = augmented).
  { unfold fallbackPrompt, fallback_instruction, augmented. cbn [join]. f_equal. }
  assert (Hcall : callHFReportModel cfg env promptText imagePaths model w
                  = callHFTextModel cfg env augmented (HF_AUDIT_MODEL cfg) w').
  { unfold callHFReportModel. rewrite (try_catch_throw _ _ _ _ _ H), Hprompt.
    reflexivity. }
  split; [exact Hcall|].
  rewrite Hcall.
  apply (callHFTextModel_log cfg env augmented (HF_AUDIT_MODEL cfg) w' _ _
           (surjective_pairing _)).
Qed.

Lemma report_model_falls_back_to_text_model_witness :
  callHFReportModel sample_cfg (scripted_env VNull json_when_asked [])
    "PROMPT" ["a.jpg"; "b.jpg"] "Salesforce/blip2-opt-2.7b" initial_world
  = (Return (VString "{}"),
     {| log :=
          let form :=
            HttpPost "https://api-inference.huggingface.co/models/Salesforce/blip2-opt-2.7b"
              (FormBody [FormText "inputs"
                           (text_of (JSON_stringify (VObject [("text", VString "PROMPT")])));
                         FormFile "image_0" "a.jpg"; FormFile "image_1" "b.jpg"])
              "Bearer hf-key" in
          [form; SetTimeout 500; form; SetTimeout 1000; form; SetTimeout 2000;
           HttpPost "https://api-inference.huggingface.co/models/LLAVA-1.6-Mistral-7B"
             (JsonBody
                (VObject
                   [("inputs",
                     VString
                       ("You are an expert forensic analyst. Using the evidence below (labels & confidences), produce JSON: summary, type='deepfake', verdict('likely_fake'|'likely_real'|'inconclusive'), confidence(0-100), evidence[], recommendations[]."
                        ++ newline ++ newline ++ newline ++ newline ++ "PROMPT"));
                    ("options", VObject [("wait_for_model", VBool true)])]))
             "Bearer hf-key"];
        toCleanup := [] |}).
Proof.
  destruct (multimodal_call sample_cfg (scripted_env VNull json_when_asked [])
              "PROMPT" ["a.jpg"; "b.jpg"] "Salesforce/blip2-opt-2.7b" initial_world)
    as [r w'] eqn:E.
  assert (Hr : r = Throw (ThrownError "AxiosError" "Request failed with status code 503")).
  { apply (f_equal fst) in E. vm_compute in E. symmetry. exact E. }
  subst r.
  rewrite (proj1 (report_model_falls_back_to_text_model _ _ _ _ _ _ _ _ E)).
  apply (f_equal snd) in E. simpl in E. subst w'.
  vm_compute. reflexivity.
Defined.

(** *** The audit pipeline *)

(** What a returning [uploadToGCS] has done: the last call in the history
    is the upload of [localPath] to the destination in the configured
    bucket, the storage accepted it, and the URI returned names that bucket
    and destination. *)
Lemma uploadToGCS_returns cfg env localPath destName w uri w' :
  uploadToGCS cfg env localPath destName w = (Return uri, w') ->
  destName <> "" ->
  uri = "gs://" ++ GCS_BUCKET cfg ++ "/" ++ destName
  /\ exists retried,
       log w' = (log w ++ retried
                 ++ [GcsUpload (GCS_BUCKET cfg) localPath destName])%list
       /\ io_result env (log w') = Return tt
       /\ Forall (fun x => x = GcsUpload (GCS_BUCKET cfg) localPath destName
                           \/ exists d, x = SetTimeout d) retried
       /\ toCleanup w' = toCleanup w.
Proof.
  intros H Hne. unfold uploadToGCS in H.
  destruct (String.eqb_spec destName ""); [congruence|].
  unfold bind in H.
  destruct (retry_default _ w) as [[[[]|err]|err] w1] eqn:E; try discriminate H.
  unfold ret in H. inversion H; subst. split; [reflexivity|].
  unfold retry_default, retry in E.
  exact (retry_from_perform_success _ _ _ _ _ _ _ _ _ E).
Qed.

(** C8.  For a report whose metadata is [{license: MIT}], when the text
    model's answer is the string [not json] and the raw answer is written
    and uploaded, [analyzeAudit] does not throw: it returns the default-scored
    object with the summary [not json] and, under [artifacts.raw_output], the
    URI of the uploaded raw response.  The raw response is the file written
    with the text [not json]; the last call of the pipeline is its upload,
    accepted by the storage, to the bucket and destination that the URI
    names. *)
Theorem audit_of_invalid_json
  cfg env (report : value) (runId : string) (w w1 w2 : world) (uri : string) :
  let rawLocal := path_join (TEMP_DIR cfg) ("audit-raw-" ++ runId ++ ".txt") in
  get report "metadata" = VObject [("license", VString "MIT")] ->
  callHFTextModel cfg env (audit_prompt (VObject [("license", VString "MIT")]))
    (HF_AUDIT_MODEL cfg) w
  = (Return (VString "not json"), w1) ->
  io_result env (log w1 ++ [FsMkdir (TEMP_DIR cfg)])%list = Return tt ->
  io_result env (log w1 ++ [FsMkdir (TEMP_DIR cfg); FsWriteFile rawLocal "not json"])%list
  = Return tt ->
  uploadToGCS cfg env rawLocal ("diagnostics/audit-raw-" ++ runId ++ ".txt")
    {| log := (log w1 ++ [FsMkdir (TEMP_DIR cfg); FsWriteFile rawLocal "not json"])%list;
       toCleanup := (toCleanup w1 ++ [rawLocal])%list |}
  = (Return uri, w2) ->
  analyzeAudit cfg env report runId w
  = (Return
       (VObject
          [("summary", VString "not json");
           ("type", VString "audit");
           ("scores",
            VObject [("transparency", VNumber (Finite 60));
                     ("fairness", VNumber (Finite 50));
                     ("privacy", VNumber (Finite 60));
                     ("robustness", VNumber (Finite 55))]);
           ("metrics", VObject []);
           ("flagged_issues", VArray []);
           ("recommendations", VArray []);
           ("artifacts", VObject [("raw_output", VString uri)])]),
     w2)
  /\ uri = "gs://" ++ GCS_BUCKET cfg ++ "/diagnostics/audit-raw-" ++ runId ++ ".txt"
  /\ exists retried,
       log w2
       = (log w1 ++ [FsMkdir (TEMP_DIR cfg); FsWriteFile rawLocal "not json"]
          ++ retried
          ++ [GcsUpload (GCS_BUCKET cfg) rawLocal
                ("diagnostics/audit-raw-" ++ runId ++ ".txt")])%list
       /\ io_result env (log w2) = Return tt
       /\ Forall (fun x =>
                    x = GcsUpload (GCS_BUCKET cfg) rawLocal
                          ("diagnostics/audit-raw-" ++ runId ++ ".txt")
                    \/ exists d, x = SetTimeout d) retried
       /\ toCleanup w2 = (toCleanup w1 ++ [rawLocal])%list.
Proof.
  intros rawLocal Hmeta Htext Hmkdir Hwrite Hupload.
  destruct (uploadToGCS_returns _ _ _ _ _ _ _ Hupload ltac:(discriminate))
    as (Huri & retried & Hlog & Hok & Hall & Hclean).
  split; [|split; [exact Huri|]].
  - unfold analyzeAudit. rewrite Hmeta.
    change (or_else (VObject [("license", VString "MIT")]) (VObject []))
      with (VObject [("license", VString "MIT")]).
    rewrite (bind_return _ _ _ _ _ Htext).
    change (parse_audit (VString "not json")) with (Return (default_audit "not json")).
    unfold lift at 1. unfold bind at 1.
    unfold bind at 1, perform at 1.
    change (log (record_event (FsMkdir (TEMP_DIR cfg)) w1))
      with (log w1 ++ [FsMkdir (TEMP_DIR cfg)])%list.
    rewrite Hmkdir.
    unfold bind at 1, perform at 1. fold rawLocal.
    change (log (record_event (FsWriteFile rawLocal "not json")
                   (record_event (FsMkdir (TEMP_DIR cfg)) w1)))
      with ((log w1 ++ [FsMkdir (TEMP_DIR cfg)]) ++ [FsWriteFile rawLocal "not json"])%list.
    rewrite <- app_assoc. simpl app.
    rewrite Hwrite.
    unfold bind at 1, push_cleanup at 1.
    unfold record_event. simpl log. simpl toCleanup.
    rewrite <- app_assoc. simpl app.
    rewrite (bind_return _ _ _ _ _ Hupload).
    reflexivity.
  - exists retried. cbn [log toCleanup] in Hlog, Hclean.
    split; [rewrite Hlog, <- !app_assoc; reflexivity|].
    split; [exact Hok|]. split; [exact Hall|exact Hclean].
Qed.

Lemma audit_of_invalid_json_witness :
  analyzeAudit sample_cfg (scripted_env (make_report "audit" "pending") not_json [])
    (make_report "audit" "pending") "r1-1700000000000" initial_world
  = (Return
       (VObject
          [("summary", VString "not json");
           ("type", VString "audit");
           ("scores",
            VObject [("transparency", VNumber (Finite 60));
                     ("fairness", VNumber (Finite 50));
                     ("privacy", VNumber (Finite 60));
                     ("robustness", VNumber (Finite 55))]);
           ("metrics", VObject []);
           ("flagged_issues", VArray []);
           ("recommendations", VArray []);
           ("artifacts",
            VObject [("raw_output",
                      VString "gs://aethra-bucket/diagnostics/audit-raw-r1-1700000000000.txt")])]),
     {| log :=
          [HttpPost "https://api-inference.huggingface.co/models/LLAVA-1.6-Mistral-7B"
             (JsonBody
                (VObject
                   [("inputs",
                     VString (audit_prompt (VObject [("license", VString "MIT")])));
                    ("options", VObject [("wait_for_model", VBool true)])]))
             "Bearer hf-key";
           FsMkdir "./tmp";
           FsWriteFile "tmp/audit-raw-r1-1700000000000.txt" "not json";
           GcsUpload "aethra-bucket" "tmp/audit-raw-r1-1700000000000.txt"
             "diagnostics/audit-raw-r1-1700000000000.txt"];
        toCleanup := ["tmp/audit-raw-r1-1700000000000.txt"] |}).
Proof.
  set (env := scripted_env (make_report "audit" "pending") not_json []).
  pose (w1 := snd (callHFTextModel sample_cfg env
                     (audit_prompt (VObject [("license", VString "MIT")]))
                     (HF_AUDIT_MODEL sample_cfg) initial_world)).
  pose (rawLocal := path_join (TEMP_DIR sample_cfg) "audit-raw-r1-1700000000000.txt").
  pose (w2 := snd (uploadToGCS sample_cfg env rawLocal
                     "diagnostics/audit-raw-r1-1700000000000.txt"
                     {| log := (log w1 ++ [FsMkdir (TEMP_DIR sample_cfg);
                                           FsWriteFile rawLocal "not json"])%list;
                        toCleanup := (toCleanup w1 ++ [rawLocal])%list |})).
  rewrite (proj1 (audit_of_invalid_json sample_cfg env (make_report "audit" "pending")
                    "r1-1700000000000" initial_world w1 w2
                    "gs://aethra-bucket/diagnostics/audit-raw-r1-1700000000000.txt"
                    ltac:(reflexivity)
                    ltac:(vm_compute; reflexivity)
                    ltac:(reflexivity)
                    ltac:(reflexivity)
                    ltac:(vm_compute; reflexivity))).
  vm_compute. reflexivity.
Defined.

(** *** The run controller *)

Lemma has_field_truthy (v : value) (k : string) (s : string) :
  get v k = VString s -> truthy v = true.
Proof. destruct v; simpl; try discriminate. reflexivity. Qed.

(** C6.  When the report fetched has the status [completed], [run] returns
    normally in the world the fetch left: it makes no call after the fetch,
    so no patch is sent to the Report Store, no pipeline call is made and
    nothing is registered for cleanup. *)
Theorem run_on_completed_report_writes_nothing
  cfg env (reportId : string) (w w1 : world) (report : value) :
  getReport cfg env reportId w = (Return report, w1) ->
  get report "status" = VString "completed" ->
  run cfg env reportId w = (Return tt, w1)
  /\ filter store_write (log w1) = filter store_write (log w)
  /\ filter pipeline_call (log w1) = filter pipeline_call (log w).
Proof.
  intros Hget Hstatus. split.
  - unfold run. rewrite (bind_return _ _ _ _ _ Hget).
    rewrite (has_field_truthy _ _ _ Hstatus). cbn [negb].
    unfold is_completed. rewrite Hstatus. reflexivity.
  - destruct (getReport_emits cfg env reportId _ _ _ Hget) as (added & Hlog & Hall).
    rewrite Hlog. split; apply filter_unchanged;
      (eapply Forall_impl; [|exact Hall]); intros e [H1 H2]; assumption.
Qed.

Lemma run_on_completed_report_writes_nothing_witness :
  run sample_cfg (scripted_env (make_report "deepfake" "completed") not_json [])
    "r1" initial_world
  = (Return tt,
     {| log := [HttpGet "https://api.aethra.test/api/reports/r1" "Bearer service-key"];
        toCleanup := [] |}).
Proof.
  apply (proj1 (run_on_completed_report_writes_nothing sample_cfg
                  (scripted_env (make_report "deepfake" "completed") not_json [])
                  "r1" initial_world
                  {| log := [HttpGet "https://api.aethra.test/api/reports/r1"
                               "Bearer service-key"];
                     toCleanup := [] |}
                  (make_report "deepfake" "completed")
                  ltac:(vm_compute; reflexivity)
                  ltac:(reflexivity))).
Defined.

(** C5, as stated, fails for the status [failed]: a run against an audit
    report whose status is [failed] calls the text model, writes and uploads
    the raw answer, and patches the Report Store with the status
    [completed]. *)
Lemma failed_report_is_processed_again :
  get (make_report "audit" "failed") "status" = VString "failed"
  /\ fst (run sample_cfg (scripted_env (make_report "audit" "failed") not_json [])
            "r1" initial_world) = Return tt
  /\ List.length
       (filter pipeline_call
          (log (snd (run sample_cfg (scripted_env (make_report "audit" "failed") not_json [])
                       "r1" initial_world)))) = 4%nat
  /\ map patched_status
       (filter store_write
          (log (snd (run sample_cfg (scripted_env (make_report "audit" "failed") not_json [])
                       "r1" initial_world))))
     = [Some (VString "completed")].
Proof. repeat split; vm_compute; reflexivity. Qed.

(** C5, amended.  For every report whose status is [completed], whatever a
    run against it ends in, the events it adds to the history contain no
    pipeline call and no write to the Report Store. *)
Theorem completed_report_is_not_reprocessed
  cfg env (reportId : string) (w w1 w2 : world) (report : value) (r : completion unit) :
  getReport cfg env reportId w = (Return report, w1) ->
  get report "status" = VString "completed" ->
  run cfg env reportId w = (r, w2) ->
  exists added,
    log w2 = (log w ++ added)%list
    /\ Forall (fun e => pipeline_call e = false /\ store_write e = false) added.
Proof.
  intros Hget Hstatus Hrun.
  assert (Hw : w2 = w1).
  { unfold run in Hrun. rewrite (bind_return _ _ _ _ _ Hget) in Hrun.
    rewrite (has_field_truthy _ _ _ Hstatus) in Hrun. cbn [negb] in Hrun. unfold is_completed in Hrun. rewrite Hstatus in Hrun.
    change (String.eqb "completed" "completed") with true in Hrun.
    cbv iota in Hrun. inversion Hrun. reflexivity. }
  subst w2. exact (getReport_emits cfg env reportId _ _ _ Hget).
Qed.

Lemma completed_report_is_not_reprocessed_witness :
  exists added,
    log (snd (run sample_cfg (scripted_env (make_report "audit" "completed") not_json [])
                "r1" initial_world))
    = (log initial_world ++ added)%list
    /\ Forall (fun e => pipeline_call e = false /\ store_write e = false) added.
Proof.
  apply (completed_report_is_not_reprocessed sample_cfg
           (scripted_env (make_report "audit" "completed") not_json [])
           "r1" initial_world
           {| log := [HttpGet "https://api.aethra.test/api/reports/r1"
                        "Bearer service-key"];
              toCleanup := [] |}
           _ (make_report "audit" "completed")
           (fst (run sample_cfg (scripted_env (make_report "audit" "completed") not_json [])
                   "r1" initial_world))).
  - vm_compute. reflexivity.
  - reflexivity.
  - apply surjective_pairing.
Defined.

(** The best-effort failure patch: it always completes normally, the first
    thing it does is send the patch, and all it leaves in the history are
    attempts of that patch and the back-offs between them. *)
Lemma report_failure_log cfg env reportId err w r w' :
  report_failure cfg env reportId err w = (r, w') ->
  let failure_patch :=
    HttpPatch (report_url cfg reportId)
      (VObject [("result",
                 VObject [("summary", VString "worker failed");
                          ("notes", VString (message_or err (String_of_thrown err)))]);
                ("status", VString "failed")])
      (bearer (SERVICE_KEY cfg)) in
  r = Return tt
  /\ toCleanup w' = toCleanup w
  /\ exists attempts,
       log w' = (log w ++ failure_patch :: attempts)%list
       /\ Forall (fun e => e = failure_patch \/ exists d, e = SetTimeout d) attempts.
Proof.
  intros H failure_patch. unfold report_failure, patchReport, retry_default, retry in H.
  fold failure_patch in H.
  unfold try_catch, bind in H.
  destruct (retry_from _ _ _ _ _ w) as [[[v|e]|e] w1] eqn:E;
    [| |exfalso; exact (retry_from_perform_settles _ _ _ _ _ _ _ _ _ E)];
    apply retry_from_perform in E; destruct E as (attempts & Hlog & Hall & Hclean);
    inversion H; subst; eauto.
Qed.

Lemma remove_all_log paths : forall w,
  remove_all paths w
  = (Return tt, {| log := (log w ++ map FsRm paths)%list; toCleanup := toCleanup w |}).
Proof.
  induction paths as [|p rest IH]; intros w; simpl.
  - unfold ret. rewrite app_nil_r. destruct w; reflexivity.
  - unfold bind. rewrite IH. simpl. rewrite <- app_assoc. reflexivity.
Qed.

(** C7.  Take a run whose report is a deepfake report not yet completed,
    whose video is downloaded, and for which frame extraction succeeds with
    no frame at all.  Then [analyzeDeepfake] throws [No frames extracted]
    before any classification or aggregation, and [run] completes by sending
    the Report Store the patch [{result: {summary: "worker failed", notes:
    "No frames extracted"}, status: "failed"}]: over the whole run no
    inference provider is called, and the only writes to the Report Store
    are attempts of that failure patch, so no verdict is produced and none
    is stored as a completed result. *)
Theorem zero_frames_fail_the_run
  cfg env (reportId : string) (report : value) (localVideo : string)
  (w w1 w2 w3 : world) :
  let runId := reportId ++ "-" ++ Z_to_string (clock env (log w1 ++ [DateNow])%list) in
  let framesDir := path_join (TEMP_DIR cfg) ("frames-" ++ runId) in
  let started := {| log := (log w1 ++ [DateNow])%list; toCleanup := [] |} in
  let failure_patch :=
    HttpPatch (report_url cfg reportId)
      (VObject [("result",
                 VObject [("summary", VString "worker failed");
                          ("notes", VString "No frames extracted")]);
                ("status", VString "failed")])
      (bearer (SERVICE_KEY cfg)) in
  getReport cfg env reportId w = (Return report, w1) ->
  get report "type" = VString "deepfake" ->
  is_completed report = false ->
  truthy (get report "fileUrl") = true ->
  downloadFromGCS cfg env (get report "fileUrl") started = (Return localVideo, w2) ->
  extractFrames env localVideo framesDir (FPS cfg) (snd (push_cleanup localVideo w2))
  = (Return [], w3) ->
  analyzeDeepfake cfg env report runId started
  = (Throw (Error "No frames extracted"), snd (push_cleanup framesDir w3))
  /\ exists before attempts w4,
       run cfg env reportId w = (Return tt, w4)
       /\ log w4
          = (log w ++ before ++ failure_patch :: attempts
               ++ [FsRm localVideo; FsRm framesDir])%list
       /\ Forall (fun e => store_write e = false /\ inference_call e = false) before
       /\ Forall (fun e => e = failure_patch \/ exists d, e = SetTimeout d) attempts.
Proof.
  intros runId framesDir started failure_patch Hget Htype Hstatus Hurl Hdl Hex.
  assert (Hpipe : analyzeDeepfake cfg env report runId started
                  = (Throw (Error "No frames extracted"), snd (push_cleanup framesDir w3))).
  { unfold analyzeDeepfake. rewrite Hurl. cbn [negb].
    rewrite (bind_return _ _ _ _ _ Hdl).
    unfold bind at 1. unfold push_cleanup at 1.
    change {| log := log w2; toCleanup := (toCleanup w2 ++ [localVideo])%list |}
      with (snd (push_cleanup localVideo w2)).
    fold framesDir. rewrite (bind_return _ _ _ _ _ Hex).
    reflexivity. }
  split; [exact Hpipe|].
  (* the failure patch and the cleanup *)
  destruct (report_failure cfg env reportId (Error "No frames extracted")
              (snd (push_cleanup framesDir w3))) as [r w5] eqn:Hfail.
  destruct (report_failure_log _ _ _ _ _ _ _ Hfail)
    as (Hr & Hclean & attempts & Hlog5 & Hall).
  subst r. simpl message_or in Hlog5, Hall. fold failure_patch in Hlog5, Hall.
  (* the history up to the extraction *)
  destruct (getReport_emits cfg env reportId _ _ _ Hget) as (l1 & Hl1 & F1).
  destruct (downloadFromGCS_emits cfg env _ _ _ _ Hdl) as (l2 & Hl2 & F2).
  destruct (extractFrames_emits env _ _ _ _ _ _ Hex) as (l3 & Hl3 & F3).
  simpl in Hl2, Hl3.
  assert (Hcl3 : toCleanup w3 = [localVideo]).
  { revert Hex Hdl. clear. intros Hex Hdl.
    assert (H2 : toCleanup w2 = []).
    { unfold downloadFromGCS in Hdl.
      destruct (get report "fileUrl"); try discriminate.
      destruct (match_gs_uri s) as [[b o]|]; try discriminate.
      unfold bind at 1, perform at 1 in Hdl.
      destruct (io_result env _); try discriminate.
      unfold bind at 1, perform at 1 in Hdl.
      unfold bind at 1 in Hdl.
      destruct (retry_default _ _) as [[[u|e]|e] wx] eqn:E; try discriminate.
      unfold retry_default, retry in E. apply retry_from_perform in E.
      destruct E as (_ & _ & _ & Hc). inversion Hdl; subst. exact Hc. }
    unfold extractFrames in Hex.
    unfold bind at 1, perform at 1 in Hex.
    destruct (io_result env _); try discriminate.
    unfold bind at 1, spawn_ffmpeg at 1 in Hex.
    destruct (ffmpeg_spawn env _); try discriminate.
    destruct (ffmpeg_exit env _) as [[| |]|]; try discriminate.
    unfold bind at 1, perform at 1 in Hex.
    destruct (readdir_result env _); try discriminate.
    inversion Hex; subst. simpl. rewrite H2. reflexivity. }
  exists (l1 ++ DateNow :: l2 ++ l3)%list, attempts,
    {| log := (log w5 ++ [FsRm localVideo; FsRm framesDir])%list;
       toCleanup := toCleanup w5 |}.
  split; [|split; [|split]].
  - unfold run. rewrite (bind_return _ _ _ _ _ Hget).
    rewrite (has_field_truthy _ _ _ Htype). cbn [negb].
    rewrite Hstatus.
    unfold bind at 1, perform at 1.
    change (log (record_event DateNow w1)) with (log w1 ++ [DateNow])%list.
    fold runId.
    unfold bind at 1, fresh_cleanup_list at 1.
    change (log (record_event DateNow w1)) with (log w1 ++ [DateNow])%list.
    fold started.
    unfold try_finally.
    assert (Hbody : try_catch (process_report cfg env reportId report runId)
                      (report_failure cfg env reportId) started
                    = (Return tt, w5)).
    { rewrite <- Hfail. apply try_catch_throw.
      unfold process_report. rewrite Htype. apply bind_throw. exact Hpipe. }
    rewrite Hbody. unfold cleanup. rewrite remove_all_log.
    rewrite Hclean. simpl toCleanup. rewrite Hcl3. reflexivity.
  - simpl log. rewrite Hlog5. simpl log. rewrite Hl3. simpl log. rewrite Hl2.
    unfold started. simpl log. rewrite Hl1.
    rewrite <- !app_assoc. simpl. rewrite <- !app_assoc. reflexivity.
  - apply Forall_app. split.
    + eapply Forall_impl; [|exact F1]. intros e [H1 H2]. split; [exact H2|].
      destruct e; try reflexivity; discriminate.
    + constructor; [split; reflexivity|]. apply Forall_app. split; assumption.
  - exact Hall.
Qed.

Lemma zero_frames_fail_the_run_witness :
  exists before attempts w4,
    run sample_cfg (scripted_env (make_report "deepfake" "pending") not_json ["notes.txt"])
      "r1" initial_world = (Return tt, w4)
    /\ log w4
       = (log initial_world ++ before
            ++ HttpPatch "https://api.aethra.test/api/reports/r1"
                 (VObject [("result",
                            VObject [("summary", VString "worker failed");
                                     ("notes", VString "No frames extracted")]);
                           ("status", VString "failed")])
                 "Bearer service-key"
            :: attempts
            ++ [FsRm "tmp/1700000000000-clip.mp4"; FsRm "tmp/frames-r1-1700000000000"])%list
    /\ Forall (fun e => store_write e = false /\ inference_call e = false) before
    /\ Forall (fun e =>
                 e = HttpPatch "https://api.aethra.test/api/reports/r1"
                       (VObject [("result",
                                  VObject [("summary", VString "worker failed");
                                           ("notes", VString "No frames extracted")]);
                                 ("status", VString "failed")])
                       "Bearer service-key"
                 \/ exists d, e = SetTimeout d) attempts.
Proof.
  set (env := scripted_env (make_report "deepfake" "pending") not_json ["notes.txt"]).
  pose (w1 := {| log := [HttpGet "https://api.aethra.test/api/reports/r1"
                           "Bearer service-key"];
                 toCleanup := [] |}).
  pose (started := {| log := (log w1 ++ [DateNow])%list; toCleanup := [] |}).
  pose (w2 := snd (downloadFromGCS sample_cfg env
                     (VString "gs://aethra-bucket/uploads/clip.mp4") started)).
  pose (w3 := snd (extractFrames env "tmp/1700000000000-clip.mp4"
                     "tmp/frames-r1-1700000000000" (FPS sample_cfg)
                     (snd (push_cleanup "tmp/1700000000000-clip.mp4" w2)))).
  exact (proj2 (zero_frames_fail_the_run sample_cfg env "r1"
                  (make_report "deepfake" "pending") "tmp/1700000000000-clip.mp4"
                  initial_world w1 w2 w3
                  ltac:(vm_compute; reflexivity)
                  ltac:(reflexivity)
                  ltac:(reflexivity)
                  ltac:(reflexivity)
                  ltac:(vm_compute; reflexivity)
                  ltac:(vm_compute; reflexivity))).
Defined.

(** *** The verdict *)

(** The vote a frame result casts does not depend on the tally it is added
    to. *)
Lemma frame_entry_shift fr t t' s :
  frame_entry fr t = Return t' ->
  exists s', frame_entry fr s = Return s'
             /\ (votes s' + votes t = votes t' + votes s)%nat.
Proof.
  unfold frame_entry.
  destruct (negb (truthy fr)).
  - intros H. injection H as <-. eexists. split; [reflexivity|lia].
  - destruct (truthy (get fr "classifier") && isArray (get fr "classifier")).
    + unfold structured_entry.
      destruct (truthy (index0 (get fr "classifier"))
                && truthy (get (index0 (get fr "classifier")) "label")).
      * destruct (label_toString _) as [text|e]; [|discriminate].
        destruct (truthy (get (index0 (get fr "classifier")) "score")).
        -- destruct (ToNumber _) as [score|e]; [|discriminate].
           intros H. injection H as <-. eexists. split; [reflexivity|].
           cbn [votes]. unfold cast_vote. destruct (mentions_fake _); lia.
        -- intros H. injection H as <-. eexists. split; [reflexivity|].
           cbn [votes]. unfold cast_vote. destruct (mentions_fake _); lia.
      * intros H. injection H as <-. eexists. split; [reflexivity|].
        unfold unstructured_entry.
        destruct fr; cbn [votes]; unfold cast_vote; destruct (mentions_fake _); lia.
    + intros H. injection H as <-. eexists. split; [reflexivity|].
      unfold unstructured_entry.
      destruct fr; cbn [votes]; unfold cast_vote; destruct (mentions_fake _); lia.
Qed.

Lemma tally_frames_shift frs : forall t t' s,
  tally_frames frs t = Return t' ->
  exists s', tally_frames frs s = Return s'
             /\ (votes s' + votes t = votes t' + votes s)%nat.
Proof.
  induction frs as [|fr rest IH]; intros t t' s H; simpl in *.
  - injection H as <-. exists s. split; [reflexivity|lia].
  - destruct (frame_entry fr t) as [t1|e] eqn:E; [|discriminate].
    destruct (frame_entry_shift _ _ _ s E) as (s1 & -> & H1).
    destruct (IH _ _ s1 H) as (s' & -> & H2).
    exists s'. split; [reflexivity|lia].
Qed.

Lemma tally_frames_permutation frs frs' :
  Permutation frs frs' ->
  forall t t', tally_frames frs t = Return t' ->
  exists t'', tally_frames frs' t = Return t'' /\ votes t'' = votes t'.
Proof.
  induction 1 as [|x l l' Hp IH|x y l|l l' l'' Hp1 IH1 Hp2 IH2]; intros t t' H.
  - exists t'. split; [exact H|reflexivity].
  - simpl in *. destruct (frame_entry x t) as [t1|e]; [|discriminate].
    apply IH. exact H.
  - simpl in *.
    destruct (frame_entry y t) as [t1|e] eqn:Ey; [|discriminate].
    destruct (frame_entry x t1) as [t2|e] eqn:Ex; [|discriminate].
    destruct (frame_entry_shift _ _ _ t Ex) as (s1 & -> & H1).
    destruct (frame_entry_shift _ _ _ s1 Ey) as (s2 & -> & H2).
    destruct (tally_frames_shift _ _ _ s2 H) as (s' & -> & H3).
    exists s'. split; [reflexivity|lia].
  - destruct (IH1 _ _ H) as (t1 & H1 & E1).
    destruct (IH2 _ _ H1) as (t2 & H2 & E2).
    exists t2. split; [exact H2|congruence].
Qed.

Lemma prefix_toLowerCase n : forall s,
  String.prefix n s = true ->
  String.prefix (toLowerCase n) (toLowerCase s) = true.
Proof.
  induction n as [|a n IH]; intros s H.
  - destruct s; reflexivity.
  - destruct s as [|b s]; [discriminate H|].
    cbn [String.prefix] in H. cbn [toLowerCase String.prefix].
    destruct (ascii_dec a b) as [->|]; [|discriminate H].
    destruct (ascii_dec (lower_char b) (lower_char b)); [|congruence].
    apply IH. exact H.
Qed.

(** A string that contains [n] contains, once in lower case, [n] in lower
    case. *)
Lemma includes_toLowerCase n : forall s,
  includes s n = true -> includes (toLowerCase s) (toLowerCase n) = true.
Proof.
  induction s as [|c s IH]; intros H.
  - cbn [includes] in H. rewrite orb_false_r in H.
    cbn [toLowerCase includes]. rewrite orb_false_r.
    apply (prefix_toLowerCase n ""). exact H.
  - cbn [includes] in H. apply orb_true_iff in H.
    cbn [toLowerCase includes]. apply orb_true_iff.
    destruct H as [H|H].
    + left. apply (prefix_toLowerCase n (String c s)). exact H.
    + right. apply IH. exact H.
Qed.

Lemma classified_top_label frame label score :
  top_label (classified frame label score) label.
Proof.
  exists (VObject [("label", VString label); ("score", VNumber score)]), [].
  repeat split. intros e. discriminate.
Qed.

(** A frame result with a top label goes through the structured branch: the
    vote it casts is the vote of its label in lower case. *)
Lemma frame_entry_top_label fr lab t :
  top_label fr lab -> lab <> "" ->
  exists cs,
    frame_entry fr t
    = Return {| votes := cast_vote (toLowerCase lab) (votes t); confidences := cs |}.
Proof.
  intros (best & others & Hc & Hl & Hs) Hne.
  assert (Hfr : truthy fr = true).
  { destruct fr as [| | | | | |fields]; try discriminate Hc. reflexivity. }
  assert (Hbest : truthy best = true).
  { destruct best as [| | | | | |fields]; try discriminate Hl. reflexivity. }
  assert (Hlab : truthy (VString lab) = true).
  { cbn [truthy]. destruct (String.eqb_spec lab ""); [congruence|reflexivity]. }
  unfold frame_entry. rewrite Hfr, Hc. cbn [negb truthy isArray andb].
  unfold structured_entry. cbn [index0]. rewrite Hl, Hbest, Hlab.
  cbn [andb label_toString ToString].
  destruct (truthy (get best "score")).
  - destruct (ToNumber (get best "score")) as [score|e] eqn:E.
    + eexists. reflexivity.
    + destruct (Hs e eq_refl).
  - eexists. reflexivity.
Qed.

(** A frame result whose top label contains [fake] casts a fake vote. *)
Lemma fake_label_casts_a_vote fr lab t :
  top_label fr lab -> includes lab "fake" = true ->
  exists t', frame_entry fr t = Return t' /\ votes t' = S (votes t).
Proof.
  intros Htop Hfake.
  assert (Hne : lab <> "") by (intros ->; discriminate Hfake).
  destruct (frame_entry_top_label fr lab t Htop Hne) as (cs & ->).
  eexists. split; [reflexivity|]. cbn [votes]. unfold cast_vote, mentions_fake.
  pose proof (includes_toLowerCase "fake" lab Hfake) as Hlow.
  change (toLowerCase "fake") with "fake" in Hlow. rewrite Hlow. reflexivity.
Qed.

(** A frame result whose top label is [real] casts none. *)
Lemma real_label_casts_no_vote fr t :
  top_label fr "real" ->
  exists t', frame_entry fr t = Return t' /\ votes t' = votes t.
Proof.
  intros Htop.
  destruct (frame_entry_top_label fr "real" t Htop ltac:(discriminate)) as (cs & ->).
  eexists. split; reflexivity.
Qed.

(** Two frame results with a top label containing [fake] and one with the
    top label [real], in any order: two fake votes out of three. *)
Lemma two_fake_labels_in_three frameResults fake1 fake2 real lab1 lab2 :
  Permutation frameResults [fake1; fake2; real] ->
  top_label fake1 lab1 -> includes lab1 "fake" = true ->
  top_label fake2 lab2 -> includes lab2 "fake" = true ->
  top_label real "real" ->
  exists a,
    aggregateFrameResults frameResults = Return a
    /\ fakeVotes a = 2%nat /\ total a = 3%nat
    /\ ratio a = round64 (2 # 3) /\ verdict a = likely_fake.
Proof.
  intros Hp H1 F1 H2 F2 H3.
  destruct (fake_label_casts_a_vote fake1 lab1 no_votes H1 F1) as (t1 & E1 & V1).
  destruct (fake_label_casts_a_vote fake2 lab2 t1 H2 F2) as (t2 & E2 & V2).
  destruct (real_label_casts_no_vote real t2 H3) as (t3 & E3 & V3).
  assert (Ht : tally_frames [fake1; fake2; real] no_votes = Return t3).
  { cbn [tally_frames]. rewrite E1, E2, E3. reflexivity. }
  destruct (tally_frames_permutation _ _ (Permutation_sym Hp) _ _ Ht)
    as (t & Htally & Hv).
  unfold aggregateFrameResults. rewrite Htally.
  eexists. split; [reflexivity|].
  rewrite (Permutation_length Hp).
  assert (Hvotes : votes t = 2%nat).
  { rewrite Hv, V3, V2, V1. reflexivity. }
  unfold summarize. cbn [fakeVotes total ratio verdict List.length].
  rewrite Hvotes. repeat split; vm_compute; reflexivity.
Qed.

(** C1.  For every non-empty sequence of frame results on which the
    aggregator returns, the ratio is the number of fake votes divided by the
    number of frame results, and the verdict depends on that ratio alone,
    through strict comparisons: likely_fake when the ratio is above 0.4,
    likely_real when it is below 0.1, inconclusive otherwise, which includes
    the ratios 0.4 and 0.1 themselves.  In terms of the counts (for a
    sequence shorter than 2^32): likely_fake when 5 * fakeVotes > 2 * total,
    likely_real when 10 * fakeVotes < total, inconclusive in between, the
    boundary cases 5 * fakeVotes = 2 * total and 10 * fakeVotes = total
    included.  For three frame results, in any order, of which two carry a
    top classifier label containing [fake] and one the top label [real], the
    aggregator returns with 2 fake votes out of 3, the ratio 2/3 and the
    verdict likely_fake; so it does on the three results of
    [two_fake_one_real], whose aggregate is given in full. *)
Theorem verdict_follows_the_ratio :
  (forall (frameResults : list value) (a : Aggregate),
     frameResults <> [] ->
     aggregateFrameResults frameResults = Return a ->
     total a = List.length frameResults
     /\ ratio a = div (number_of_nat (fakeVotes a)) (number_of_nat (total a))
     /\ verdict a = verdict_of (ratio a))
  /\ (forall x : number,
        (gt x (of_decimal 4 (-1)) = true -> verdict_of x = likely_fake)
        /\ (lt x (of_decimal 1 (-1)) = true -> verdict_of x = likely_real)
        /\ (gt x (of_decimal 4 (-1)) = false -> lt x (of_decimal 1 (-1)) = false ->
            verdict_of x = inconclusive))
  /\ verdict_of (of_decimal 4 (-1)) = inconclusive
  /\ verdict_of (of_decimal 1 (-1)) = inconclusive
  /\ (forall (frameResults : list value) (a : Aggregate),
        frameResults <> [] ->
        Z.of_nat (List.length frameResults) < 2 ^ 32 ->
        aggregateFrameResults frameResults = Return a ->
        (2 * Z.of_nat (total a) < 5 * Z.of_nat (fakeVotes a) ->
         verdict a = likely_fake)
        /\ (10 * Z.of_nat (fakeVotes a) < Z.of_nat (total a) ->
            verdict a = likely_real)
        /\ (5 * Z.of_nat (fakeVotes a) <= 2 * Z.of_nat (total a) ->
            Z.of_nat (total a) <= 10 * Z.of_nat (fakeVotes a) ->
            verdict a = inconclusive))
  /\ (forall (frameResults : list value) (fake1 fake2 real : value)
             (lab1 lab2 : string),
        Permutation frameResults [fake1; fake2; real] ->
        top_label fake1 lab1 -> includes lab1 "fake" = true ->
        top_label fake2 lab2 -> includes lab2 "fake" = true ->
        top_label real "real" ->
        exists a,
          aggregateFrameResults frameResults = Return a
          /\ fakeVotes a = 2%nat /\ total a = 3%nat
          /\ ratio a = round64 (2 # 3) /\ verdict a = likely_fake)
  /\ aggregateFrameResults two_fake_one_real
     = Return {| verdict := likely_fake;
                 confidence := Finite 87;
                 ratio := round64 (2 # 3);
                 fakeVotes := 2;
                 total := 3;
                 avgConf := Some (Finite 87) |}.
Proof.
  split; [|split; [|split; [|split; [|split; [|split]]]]].
  - intros frs a Hne Ha.
    destruct (aggregate_returns _ _ Ha) as (t & _ & ->).
    unfold summarize. cbn [total ratio verdict fakeVotes].
    destruct frs as [|fr frs]; [congruence|]. cbn [List.length]. auto.
  - intros x. unfold verdict_of. repeat split.
    + intros ->. reflexivity.
    + intros H. rewrite (below_tenth_not_above_two_fifths _ H), H. reflexivity.
    + intros -> ->. reflexivity.
  - vm_compute. reflexivity.
  - vm_compute. reflexivity.
  - apply verdict_by_vote_counts.
  - apply two_fake_labels_in_three.
  - vm_compute. reflexivity.
Qed.

(** ** Further properties *)

(** *** What the analyses may call *)

Ltac emits_more :=
  repeat first
    [ emits_step
    | match goal with
      | |- emits _ (let _ := _ in _) => cbv zeta
      | |- emits _ (if ?x then _ else _) => destruct x
      end ];
  auto.

Lemma prefix_of_append p s : String.prefix p (p ++ s) = true.
Proof.
  induction p as [|c p IH]; [destruct s; reflexivity|].
  cbn [String.append String.prefix].
  destruct (ascii_dec c c); [exact IH|congruence].
Qed.

Lemma callHFTextModel_requests cfg env prompt model :
  configured_model cfg (model_url model) ->
  emits (pipeline_request cfg) (callHFTextModel cfg env prompt model).
Proof. intros H. unfold callHFTextModel. emits_more; cbn; auto. Qed.

Lemma callHFFrameClassifier_requests cfg env f model :
  configured_model cfg (model_url model) ->
  emits (pipeline_request cfg) (callHFFrameClassifier cfg env f model).
Proof. intros H. unfold callHFFrameClassifier. emits_more; cbn; auto. Qed.

Lemma callHFReportModel_requests cfg env prompt images model :
  configured_model cfg (model_url model) ->
  emits (pipeline_request cfg) (callHFReportModel cfg env prompt images model).
Proof.
  intros H. unfold callHFReportModel, multimodal_call. emits_more; cbn; auto.
  apply callHFTextModel_requests. left. reflexivity.
Qed.

Lemma uploadToGCS_requests cfg env localPath destName :
  startsWith destName "diagnostics/" = true ->
  emits (pipeline_request cfg) (uploadToGCS cfg env localPath destName).
Proof.
  intros H. unfold uploadToGCS.
  destruct (String.eqb_spec destName "") as [->|_]; [discriminate H|].
  emits_more; cbn; auto.
Qed.

Lemma classify_frames_requests cfg env sample :
  emits (pipeline_request cfg) (classify_frames cfg env sample).
Proof.
  induction sample as [|f rest IH]; simpl.
  - apply emits_ret.
  - emits_more. apply callHFFrameClassifier_requests. right. left. reflexivity.
Qed.

Lemma downloadFromGCS_requests cfg env gsUri :
  emits (pipeline_request cfg) (downloadFromGCS cfg env gsUri).
Proof. unfold downloadFromGCS. emits_more; cbn; auto. Qed.

Lemma extractFrames_requests cfg env videoPath outDir fps :
  emits (pipeline_request cfg) (extractFrames env videoPath outDir fps).
Proof. unfold extractFrames. emits_more; cbn; auto. Qed.

Lemma analyze_frames_requests cfg env frames runId :
  emits (pipeline_request cfg) (analyze_frames cfg env frames runId).
Proof.
  unfold analyze_frames. cbv zeta.
  emits_more; try (cbn; auto; fail);
    first [ apply classify_frames_requests
          | apply callHFReportModel_requests; right; right; reflexivity
          | apply callHFTextModel_requests; left; reflexivity
          | apply uploadToGCS_requests;
            exact (prefix_of_append "diagnostics/" ("deepfake-" ++ runId ++ ".json")) ].
Qed.

Lemma analyzeDeepfake_requests cfg env report runId :
  emits (pipeline_request cfg) (analyzeDeepfake cfg env report runId).
Proof.
  unfold analyzeDeepfake.
  destruct (negb (truthy (get report "fileUrl"))); [apply emits_throw|].
  apply emits_bind.
  { apply downloadFromGCS_requests. }
  intros localVideo. apply emits_bind; [apply emits_push_cleanup|]. intros _.
  apply emits_bind.
  { apply extractFrames_requests. }
  intros frames. apply emits_bind; [apply emits_push_cleanup|]. intros _.
  destruct frames; [apply emits_throw|apply analyze_frames_requests].
Qed.

Lemma analyzeAudit_requests cfg env report runId :
  emits (pipeline_request cfg) (analyzeAudit cfg env report runId).
Proof.
  unfold analyzeAudit. cbv zeta.
  emits_more; try (cbn; auto; fail);
    first [ apply callHFTextModel_requests; left; reflexivity
          | apply uploadToGCS_requests;
            exact (prefix_of_append "diagnostics/" ("audit-raw-" ++ runId ++ ".txt")) ].
Qed.


(** X1.  Neither analysis talks to the Report Store or removes a file.  Every
    inference request they make goes to the endpoint of one of the three
    configured models and carries the inference key [HF_API_KEY]; every
    upload goes to the configured bucket, under [diagnostics/]. *)
Theorem analyses_call_only_the_configured_services cfg env report runId :
  emits (pipeline_request cfg) (analyzeDeepfake cfg env report runId)
  /\ emits (pipeline_request cfg) (analyzeAudit cfg env report runId).
Proof.
  split; [apply analyzeDeepfake_requests|apply analyzeAudit_requests].
Qed.

(** *** The run controller, past its guard *)

Lemma process_report_dispatch cfg env reportId report runId :
  process_report cfg env reportId report runId
  = (result <- dispatch cfg env report runId ;;
     patchReport cfg env reportId result "completed" ;;; ret tt).
Proof. reflexivity. Qed.



(** **** Where the process can end *)

Lemma settles_ret {A : Type} (a : A) : settles (ret a).
Proof. intros w err w' H. discriminate H. Qed.

Lemma settles_throw {A : Type} e : settles (@throw A e).
Proof. intros w err w' H. discriminate H. Qed.

Lemma settles_lift {A : Type} (r : outcome A) : settles (lift r).
Proof. intros w err w' H. discriminate H. Qed.

Lemma settles_push_cleanup p : settles (push_cleanup p).
Proof. intros w err w' H. discriminate H. Qed.

Lemma settles_perform {A : Type} e (answer : list event -> outcome A) :
  settles (perform e answer).
Proof. intros w err w' H. discriminate H. Qed.

Lemma settles_bind {A B : Type} (m : M A) (k : A -> M B) :
  settles m -> (forall a, settles (k a)) -> settles (bind m k).
Proof.
  intros Hm Hk w err w' H. unfold bind in H.
  destruct (m w) as [[[a|e]|e] w1] eqn:Em.
  - exact (Hk a _ _ _ H).
  - discriminate H.
  - exact (Hm _ _ _ Em).
Qed.

Lemma settles_try_catch {A : Type} (m : M A) handler :
  settles m -> (forall e, settles (handler e)) -> settles (try_catch m handler).
Proof.
  intros Hm Hh w err w' H. unfold try_catch in H.
  destruct (m w) as [[[a|e]|e] w1] eqn:Em.
  - discriminate H.
  - exact (Hh e _ _ _ H).
  - exact (Hm _ _ _ Em).
Qed.

Lemma settles_retry_from {A : Type} (fn : M A) baseDelay n :
  settles fn -> forall i lastErr, settles (retry_from fn baseDelay n i lastErr).
Proof.
  intros Hfn. induction n as [|n IH]; intros i lastErr; simpl.
  - apply settles_throw.
  - apply settles_try_catch; [exact Hfn|].
    intros e. apply settles_bind; [apply settles_perform|]. intros _. apply IH.
Qed.

Lemma settles_retry_default {A : Type} (fn : M A) :
  settles fn -> settles (retry_default fn).
Proof. intros. apply settles_retry_from. assumption. Qed.

Ltac settles_step :=
  match goal with
  | |- settles (bind _ _) => apply settles_bind; [|intros]
  | |- settles (try_catch _ _) => apply settles_try_catch; [|intros]
  | |- settles (retry_default _) => apply settles_retry_default
  | |- settles (perform _ _) => apply settles_perform
  | |- settles (ret _) => apply settles_ret
  | |- settles (throw _) => apply settles_throw
  | |- settles (lift _) => apply settles_lift
  | |- settles (push_cleanup _) => apply settles_push_cleanup
  | |- settles (let _ := _ in _) => cbv zeta
  | |- settles (if ?x then _ else _) => destruct x
  | |- settles (match ?x with _ => _ end) => destruct x
  end.

Ltac settles_auto := repeat settles_step; auto.


Lemma callHFFrameClassifier_settles cfg env f model :
  settles (callHFFrameClassifier cfg env f model).
Proof. unfold callHFFrameClassifier. settles_auto. Qed.












(** When the directory is there and ffmpeg cannot be started, the process
    ends at the spawn: the promise of [extractFrames] never settles. *)
Lemma extractFrames_without_ffmpeg env videoPath outDir fps w err :
  let args :=
    ["-y"; "-i"; videoPath; "-vf"; "fps=" ++ number_to_string fps;
     path_join outDir "frame-%06d.jpg"] in
  io_result env (log w ++ [FsMkdir outDir])%list = Return tt ->
  ffmpeg_spawn env (log w ++ [FsMkdir outDir; SpawnFfmpeg args])%list
  = ErrorEvent err ->
  extractFrames env videoPath outDir fps w
  = (Uncaught err,
     {| log := (log w ++ [FsMkdir outDir; SpawnFfmpeg args])%list;
        toCleanup := toCleanup w |}).
Proof.
  intros args Hmk Hspawn. unfold extractFrames. fold args.
  unfold bind at 1, perform at 1. cbn [record_event log].
  rewrite Hmk. unfold bind at 1, spawn_ffmpeg at 1. cbn [record_event log toCleanup].
  rewrite <- app_assoc. cbn [app]. rewrite Hspawn.
  unfold record_event. cbn [log toCleanup]. rewrite <- app_assoc. reflexivity.
Qed.



(** **** The body of [run] *)


(** [run] once the report is fetched, exists and is not completed. *)
Lemma run_past_guard cfg env reportId w report w1 :
  getReport cfg env reportId w = (Return report, w1) ->
  truthy report = true ->
  is_completed report = false ->
  run cfg env reportId w
  = try_finally
      (try_catch (process_report cfg env reportId report (run_id env reportId w1))
         (report_failure cfg env reportId))
      (cleanup) (run_started w1).
Proof.
  intros Hget Ht Hc. unfold run. rewrite (bind_return _ _ _ _ _ Hget).
  rewrite Ht, Hc. cbn [negb]. reflexivity.
Qed.

(** A body that settles is followed by the [finally] block: every registered
    path is removed, and the body's outcome is the outcome of the whole. *)
Lemma try_finally_cleanup {A : Type} (m : M A) w (r : outcome A) w' :
  m w = (r, w') ->
  try_finally m cleanup w
  = (r, {| log := (log w' ++ map FsRm (toCleanup w'))%list; toCleanup := toCleanup w' |}).
Proof.
  intros H. unfold try_finally. rewrite H. unfold cleanup. rewrite remove_all_log.
  destruct r; reflexivity.
Qed.








(** X4.  When the fetch fails, or yields nothing, [run] throws at once (the fetch
    error, or [Report not found]): it sends no patch, starts no pipeline and
    removes nothing. *)
Theorem run_without_a_report cfg env reportId w w1 :
  (forall err, getReport cfg env reportId w = (Throw err, w1) ->
     run cfg env reportId w = (Throw err, w1))
  /\ (forall report, getReport cfg env reportId w = (Return report, w1) ->
        truthy report = false ->
        run cfg env reportId w = (Throw (Error ("Report not found: " ++ reportId)), w1))
  /\ (forall r, getReport cfg env reportId w = (r, w1) ->
        exists fetches,
          log w1 = (log w ++ fetches)%list
          /\ Forall (fun e => pipeline_call e = false /\ store_write e = false
                              /\ is_removal e = false) fetches).
Proof.
  split; [|split].
  - intros err H. unfold run. apply bind_throw. exact H.
  - intros report H Ht. unfold run. rewrite (bind_return _ _ _ _ _ H), Ht. reflexivity.
  - intros r H. unfold getReport in H.
    assert (E : emits (fun e => pipeline_call e = false /\ store_write e = false
                                /\ is_removal e = false)
                  (getReport cfg env reportId)).
    { unfold getReport. emits_more; repeat split. }
    exact (E _ _ _ H).
Qed.

Lemma run_without_a_report_witness :
  run sample_cfg (scripted_env VNull not_json []) "r1" initial_world
  = (Throw (Error "Report not found: r1"), fetched).
Proof.
  apply (proj1 (proj2 (run_without_a_report sample_cfg
                         (scripted_env VNull not_json []) "r1" initial_world fetched))
           VNull).
  - vm_compute. reflexivity.
  - reflexivity.
Defined.

Lemma dispatch_unknown_type cfg env report runId (other : value) (text : string) w :
  get report "type" = other ->
  other <> VString "deepfake" -> other <> VString "audit" ->
  ToString other = Return text ->
  dispatch cfg env report runId w
  = (Throw (Error ("Unknown report type: " ++ text)), w).
Proof.
  intros Hty Hd Ha Hs. unfold dispatch. rewrite Hty.
  assert (Hdefault :
    bind (lift (ToString other))
      (fun type_text => @throw value (Error ("Unknown report type: " ++ type_text))) w
    = (Throw (Error ("Unknown report type: " ++ text)), w)).
  { unfold bind, lift, throw. rewrite Hs. reflexivity. }
  destruct other as [| | b | x | s | items | fields]; try exact Hdefault.
  repeat match goal with
         | |- context [match ?s with EmptyString => _ | String _ _ => _ end] =>
             destruct s as [|[[] [] [] [] [] [] [] []] ?]; try exact Hdefault
         end; congruence.
Qed.

(** A run whose dispatch throws before making any call. *)
Lemma run_on_immediate_failure cfg env reportId w report w1 err :
  getReport cfg env reportId w = (Return report, w1) ->
  truthy report = true ->
  is_completed report = false ->
  dispatch cfg env report (run_id env reportId w1) (run_started w1)
  = (Throw err, run_started w1) ->
  exists attempts w2,
    run cfg env reportId w = (Return tt, w2)
    /\ log w2
       = (log w1 ++ DateNow
            :: failure_patch cfg reportId (message_or err (String_of_thrown err))
            :: attempts)%list
    /\ Forall (fun e =>
                 e = failure_patch cfg reportId (message_or err (String_of_thrown err))
                 \/ exists d, e = SetTimeout d) attempts.
Proof.
  intros Hget Ht Hc Hd. rewrite (run_past_guard _ _ _ _ _ _ Hget Ht Hc).
  destruct (report_failure cfg env reportId err (run_started w1)) as [r wf] eqn:Ef.
  destruct (report_failure_log _ _ _ _ _ _ _ Ef) as (-> & Hcf & attempts & Hlf & Ff).
  assert (Hbody : try_catch (process_report cfg env reportId report (run_id env reportId w1))
                    (report_failure cfg env reportId) (run_started w1)
                  = (Return tt, wf)).
  { rewrite <- Ef. apply try_catch_throw. rewrite process_report_dispatch.
    apply bind_throw. exact Hd. }
  rewrite (try_finally_cleanup _ _ _ _ Hbody).
  exists attempts. eexists. split; [reflexivity|]. split; [|exact Ff].
  simpl. rewrite Hcf, Hlf. simpl. rewrite app_nil_r, <- app_assoc. reflexivity.
Qed.

(** X5.  A report whose type is neither [deepfake] nor [audit] (a missing type
    included): the run makes no pipeline call; all it does after reading the
    clock is send the failure patch whose notes read [Unknown report type:]
    followed by the type. *)
Theorem run_on_unknown_type cfg env reportId w report w1 (other : value) (text : string) :
  getReport cfg env reportId w = (Return report, w1) ->
  truthy report = true ->
  is_completed report = false ->
  get report "type" = other ->
  other <> VString "deepfake" -> other <> VString "audit" ->
  ToString other = Return text ->
  exists attempts w2,
    run cfg env reportId w = (Return tt, w2)
    /\ log w2
       = (log w1 ++ DateNow
            :: failure_patch cfg reportId ("Unknown report type: " ++ text)
            :: attempts)%list
    /\ Forall (fun e =>
                 e = failure_patch cfg reportId ("Unknown report type: " ++ text)
                 \/ exists d, e = SetTimeout d) attempts.
Proof.
  intros Hget Ht Hc Hty Hd Ha Hs.
  exact (run_on_immediate_failure cfg env reportId w report w1 _ Hget Ht Hc
           (dispatch_unknown_type cfg env report _ other text _ Hty Hd Ha Hs)).
Qed.

Lemma run_on_unknown_type_witness :
  exists attempts w2,
    run sample_cfg (scripted_env (bare_report "image") not_json []) "r1" initial_world
    = (Return tt, w2)
    /\ log w2
       = (log fetched ++ DateNow
            :: failure_patch sample_cfg "r1" "Unknown report type: image" :: attempts)%list
    /\ Forall (fun e => e = failure_patch sample_cfg "r1" "Unknown report type: image"
                        \/ exists d, e = SetTimeout d) attempts.
Proof.
  apply (run_on_unknown_type sample_cfg (scripted_env (bare_report "image") not_json [])
           "r1" initial_world (bare_report "image") fetched (VString "image") "image").
  - vm_compute. reflexivity.
  - reflexivity.
  - reflexivity.
  - reflexivity.
  - discriminate.
  - discriminate.
  - reflexivity.
Defined.

(** X6.  A deepfake report without a [fileUrl]: nothing is downloaded or
    extracted; the run sends the failure patch with the notes
    [report.fileUrl missing]. *)
Theorem run_on_deepfake_without_file cfg env reportId w report w1 :
  getReport cfg env reportId w = (Return report, w1) ->
  is_completed report = false ->
  get report "type" = VString "deepfake" ->
  truthy (get report "fileUrl") = false ->
  exists attempts w2,
    run cfg env reportId w = (Return tt, w2)
    /\ log w2
       = (log w1 ++ DateNow
            :: failure_patch cfg reportId "report.fileUrl missing"
            :: attempts)%list
    /\ Forall (fun e =>
                 e = failure_patch cfg reportId "report.fileUrl missing"
                 \/ exists d, e = SetTimeout d) attempts.
Proof.
  intros Hget Hc Hty Hurl.
  apply (run_on_immediate_failure cfg env reportId w report w1
           (Error "report.fileUrl missing") Hget (has_field_truthy _ _ _ Hty) Hc).
  unfold dispatch. rewrite Hty. unfold analyzeDeepfake. rewrite Hurl. reflexivity.
Qed.

Lemma run_on_deepfake_without_file_witness :
  exists attempts w2,
    run sample_cfg (scripted_env (bare_report "deepfake") not_json []) "r1" initial_world
    = (Return tt, w2)
    /\ log w2
       = (log fetched ++ DateNow
            :: failure_patch sample_cfg "r1" "report.fileUrl missing" :: attempts)%list
    /\ Forall (fun e => e = failure_patch sample_cfg "r1" "report.fileUrl missing"
                        \/ exists d, e = SetTimeout d) attempts.
Proof.
  apply (run_on_deepfake_without_file sample_cfg
           (scripted_env (bare_report "deepfake") not_json [])
           "r1" initial_world (bare_report "deepfake") fetched).
  - vm_compute. reflexivity.
  - reflexivity.
  - reflexivity.
  - reflexivity.
Defined.

(** X7.  A deepfake report whose [fileUrl] is a non-empty string that does not
    start with [gs://] (an https link, a local path): nothing is created or
    downloaded; the run sends the failure patch whose notes read
    [Invalid gs uri:] followed by the URL. *)
Theorem run_on_deepfake_with_foreign_url cfg env reportId w report w1 (url : string) :
  getReport cfg env reportId w = (Return report, w1) ->
  is_completed report = false ->
  get report "type" = VString "deepfake" ->
  get report "fileUrl" = VString url ->
  url <> "" ->
  startsWith url "gs://" = false ->
  exists attempts w2,
    run cfg env reportId w = (Return tt, w2)
    /\ log w2
       = (log w1 ++ DateNow
            :: failure_patch cfg reportId ("Invalid gs uri: " ++ url)
            :: attempts)%list
    /\ Forall (fun e =>
                 e = failure_patch cfg reportId ("Invalid gs uri: " ++ url)
                 \/ exists d, e = SetTimeout d) attempts.
Proof.
  intros Hget Hc Hty Hurl Hne Hscheme.
  apply (run_on_immediate_failure cfg env reportId w report w1
           (Error ("Invalid gs uri: " ++ url)) Hget (has_field_truthy _ _ _ Hty) Hc).
  unfold dispatch. rewrite Hty. unfold analyzeDeepfake. rewrite Hurl.
  assert (Ht : truthy (VString url) = true).
  { destruct url; [congruence|reflexivity]. }
  rewrite Ht. cbn [negb].
  apply bind_throw. unfold downloadFromGCS, match_gs_uri. rewrite Hscheme.
  reflexivity.
Qed.

Lemma run_on_deepfake_with_foreign_url_witness :
  exists attempts w2,
    run sample_cfg (scripted_env linked_report not_json []) "r1" initial_world
    = (Return tt, w2)
    /\ log w2
       = (log fetched ++ DateNow
            :: failure_patch sample_cfg "r1"
                 "Invalid gs uri: https://storage.googleapis.com/aethra-bucket/clip.mp4"
            :: attempts)%list
    /\ Forall (fun e =>
                 e = failure_patch sample_cfg "r1"
                       "Invalid gs uri: https://storage.googleapis.com/aethra-bucket/clip.mp4"
                 \/ exists d, e = SetTimeout d) attempts.
Proof.
  apply (run_on_deepfake_with_foreign_url sample_cfg
           (scripted_env linked_report not_json [])
           "r1" initial_world linked_report fetched
           "https://storage.googleapis.com/aethra-bucket/clip.mp4").
  - vm_compute. reflexivity.
  - reflexivity.
  - reflexivity.
  - reflexivity.
  - discriminate.
  - reflexivity.
Defined.

(** *** The back-off schedule *)



(** *** The classification loop *)

Lemma message_or_nonempty err fallback :
  fallback <> "" -> message_or err fallback <> "".
Proof.
  intros H. destruct err as [name message|]; simpl; [|exact H].
  destruct (String.eqb_spec message ""); congruence.
Qed.

(** X9.  The classification loop never throws: whatever the classifier calls do,
    it returns one result per sampled frame, in the order of the frames, and
    leaves the [toCleanup] array alone. *)
Theorem classify_frames_never_throws cfg env (sample : list string) (w : world) :
  exists frameResults w',
    classify_frames cfg env sample w = (Return frameResults, w')
    /\ Forall2 recorded_for sample frameResults
    /\ toCleanup w' = toCleanup w.
Proof.
  revert w. induction sample as [|f rest IH]; intros w.
  - exists [], w. repeat split. constructor.
  - simpl. unfold bind at 1, try_catch, bind at 1.
    destruct (callHFFrameClassifier cfg env f (HF_FRAME_CLASSIFIER_MODEL cfg) w)
      as [[[clfRaw|err]|err] w1] eqn:E;
      [| |destruct (callHFFrameClassifier_settles _ _ _ _ _ _ _ E)];
      (assert (Hc1 : toCleanup w1 = toCleanup w);
       [unfold callHFFrameClassifier, retry_default, retry in E;
        apply retry_from_perform in E; destruct E as (_ & _ & _ & Hc); exact Hc|]);
      unfold ret at 1; unfold bind at 1;
      destruct (IH w1) as (frs & w' & Hrest & Hall & Hc); rewrite Hrest;
      eexists; exists w'; (split; [reflexivity|]); (split; [|congruence]);
      constructor; try exact Hall.
    + left. eexists. reflexivity.
    + right. eexists. split; [|reflexivity]. apply message_or_nonempty. discriminate.
Qed.

(** *** The audit and the model's answer *)

Lemma parse_audit_of_text text :
  parse_audit (VString text)
  = Return match parse_text text with
           | Some parsed => parsed
           | None => default_audit (slice0 1000 text)
           end.
Proof.
  unfold parse_audit, JSON_parse. cbn [ToString].
  destruct (parse_text text); reflexivity.
Qed.

Lemma analyzeAudit_with_answer cfg env report runId w text w1 uri w2 :
  callHFTextModel cfg env
    (audit_prompt (or_else (get report "metadata") (VObject []))) (HF_AUDIT_MODEL cfg) w
  = (Return (VString text), w1) ->
  raw_answer_stored cfg env runId text w1 uri w2 ->
  analyzeAudit cfg env report runId w
  = (attach_raw_output
       match parse_text text with
       | Some parsed => parsed
       | None => default_audit (slice0 1000 text)
       end uri, w2).
Proof.
  intros Htext (Hmkdir & Hwrite & Hupload).
  unfold analyzeAudit.
  rewrite (bind_return _ _ _ _ _ Htext).
  rewrite parse_audit_of_text.
  unfold lift at 1. unfold bind at 1.
  unfold bind at 1, perform at 1.
  change (log (record_event (FsMkdir (TEMP_DIR cfg)) w1))
    with (log w1 ++ [FsMkdir (TEMP_DIR cfg)])%list.
  rewrite Hmkdir.
  unfold bind at 1, perform at 1.
  set (rawLocal := path_join (TEMP_DIR cfg) ("audit-raw-" ++ runId ++ ".txt")) in *.
  change (log (record_event (FsWriteFile rawLocal text)
                 (record_event (FsMkdir (TEMP_DIR cfg)) w1)))
    with ((log w1 ++ [FsMkdir (TEMP_DIR cfg)]) ++ [FsWriteFile rawLocal text])%list.
  rewrite <- app_assoc. simpl app.
  rewrite Hwrite.
  unfold bind at 1, push_cleanup at 1.
  unfold record_event. simpl log. simpl toCleanup.
  rewrite <- app_assoc. simpl app.
  rewrite (bind_return _ _ _ _ _ Hupload).
  reflexivity.
Qed.

Lemma lookup_set_field_same k x fields :
  lookup k (set_field k x fields) = Some x.
Proof.
  induction fields as [|[k' v] rest IH]; simpl.
  - rewrite String.eqb_refl. reflexivity.
  - destruct (String.eqb k k') eqn:E; simpl.
    + rewrite String.eqb_refl. reflexivity.
    + rewrite E. exact IH.
Qed.

Lemma lookup_set_field_other k k' x fields :
  k' <> k -> lookup k' (set_field k x fields) = lookup k' fields.
Proof.
  intros Hne. induction fields as [|[k0 v] rest IH]; simpl.
  - destruct (String.eqb_spec k' k); congruence.
  - destruct (String.eqb_spec k k0) as [->|Hk]; simpl.
    + destruct (String.eqb_spec k' k0); congruence.
    + destruct (String.eqb k' k0); [reflexivity|exact IH].
Qed.

(** X10.  When the audit model answers with the text of a JSON object, the audit
    result is that object: every field the model gave is kept as it is,
    apart from [artifacts]; when the model's [artifacts] is missing, falsy or
    an object, the result's [artifacts] carries the URI of the uploaded raw
    answer under [raw_output] and keeps whatever else the model put there. *)
Theorem audit_keeps_the_models_object
  cfg env report runId w text w1 uri w2 (fields : list (string * value)) :
  callHFTextModel cfg env
    (audit_prompt (or_else (get report "metadata") (VObject []))) (HF_AUDIT_MODEL cfg) w
  = (Return (VString text), w1) ->
  parse_text text = Some (VObject fields) ->
  raw_answer_stored cfg env runId text w1 uri w2 ->
  exists result,
    analyzeAudit cfg env report runId w = (Return (VObject result), w2)
    /\ (forall k, k <> "artifacts" -> lookup k result = lookup k fields)
    /\ (truthy (get (VObject fields) "artifacts") = false
        \/ holds_properties (get (VObject fields) "artifacts") = true ->
        get (get (VObject result) "artifacts") "raw_output" = VString uri
        /\ forall k, k <> "raw_output" ->
             get (get (VObject result) "artifacts") k
             = get (get (VObject fields) "artifacts") k).
Proof.
  intros Htext Hparse Hstored.
  rewrite (analyzeAudit_with_answer _ _ _ _ _ _ _ _ _ Htext Hstored), Hparse.
  unfold attach_raw_output. cbn [get_checked obind].
  set (existing := get (VObject fields) "artifacts").
  assert (Hset : exists artifacts,
             set (or_else existing (VObject [])) "raw_output" (VString uri)
             = Return artifacts
             /\ (truthy existing = false \/ holds_properties existing = true ->
                 get artifacts "raw_output" = VString uri
                 /\ forall k, k <> "raw_output" -> get artifacts k = get existing k)).
  { unfold or_else. destruct (truthy existing) eqn:Et.
    - destruct existing; try discriminate Et;
        try (eexists; split; [reflexivity|];
             intros [H|H]; discriminate H).
      eexists. split; [reflexivity|]. intros _. split.
      + simpl. rewrite lookup_set_field_same. reflexivity.
      + intros k Hk. simpl. rewrite lookup_set_field_other by exact Hk. reflexivity.
    - eexists. split; [reflexivity|]. intros _. split.
      + reflexivity.
      + intros k Hk. simpl. destruct (String.eqb_spec k "raw_output"); [congruence|].
        destruct existing; try reflexivity; discriminate Et. }
  destruct Hset as (artifacts & -> & Hart).
  cbn [obind set].
  eexists. split; [reflexivity|]. split.
  - intros k Hk. apply lookup_set_field_other. exact Hk.
  - intros H. cbn [get]. rewrite lookup_set_field_same. apply Hart. exact H.
Qed.

Lemma audit_keeps_the_models_object_witness :
  exists result,
    fst (analyzeAudit sample_cfg
           (scripted_env (make_report "audit" "pending") (answers json_object_text) [])
           (make_report "audit" "pending") "r1-1700000000000" initial_world)
    = Return (VObject result)
    /\ lookup "summary" result = Some (VString "No model card")
    /\ get (get (VObject result) "artifacts") "raw_output"
       = VString "gs://aethra-bucket/diagnostics/audit-raw-r1-1700000000000.txt"
    /\ get (get (VObject result) "artifacts") "model_card" = VString "missing".
Proof.
  set (env := scripted_env (make_report "audit" "pending") (answers json_object_text) []).
  set (report := make_report "audit" "pending").
  pose (w1 := snd (callHFTextModel sample_cfg env
                     (audit_prompt (or_else (get report "metadata") (VObject [])))
                     (HF_AUDIT_MODEL sample_cfg) initial_world)).
  pose (rawLocal := path_join (TEMP_DIR sample_cfg) "audit-raw-r1-1700000000000.txt").
  pose (w2 := snd (uploadToGCS sample_cfg env rawLocal
                     "diagnostics/audit-raw-r1-1700000000000.txt"
                     {| log := (log w1 ++ [FsMkdir (TEMP_DIR sample_cfg);
                                           FsWriteFile rawLocal json_object_text])%list;
                        toCleanup := (toCleanup w1 ++ [rawLocal])%list |})).
  destruct (audit_keeps_the_models_object sample_cfg env report
              "r1-1700000000000" initial_world json_object_text w1
              "gs://aethra-bucket/diagnostics/audit-raw-r1-1700000000000.txt" w2
              [("summary", VString "No model card");
               ("type", VString "audit");
               ("artifacts", VObject [("model_card", VString "missing")])]
              ltac:(vm_compute; reflexivity)
              ltac:(vm_compute; reflexivity)
              ltac:(repeat split; vm_compute; reflexivity))
    as (result & Hrun & Hkeep & Hart).
  exists result. rewrite Hrun. split; [reflexivity|].
  split; [rewrite Hkeep by discriminate; reflexivity|].
  destruct (Hart (or_intror eq_refl)) as [Hraw Hother].
  split; [exact Hraw|]. rewrite Hother by discriminate. reflexivity.
Defined.

(** X11.  When the audit model answers with valid JSON that is not an object or an
    array ([null], a number, a string, [true]), the default object is not
    used: after the raw answer has been uploaded [analyzeAudit] throws a
    TypeError, on reading [artifacts] of [null] or on setting [raw_output] on
    the [undefined] that a primitive's [artifacts] stays. *)
Theorem audit_of_json_primitive
  cfg env report runId w text w1 uri w2 (parsed : value) :
  callHFTextModel cfg env
    (audit_prompt (or_else (get report "metadata") (VObject []))) (HF_AUDIT_MODEL cfg) w
  = (Return (VString text), w1) ->
  parse_text text = Some parsed ->
  is_json_primitive parsed = true ->
  raw_answer_stored cfg env runId text w1 uri w2 ->
  analyzeAudit cfg env report runId w
  = (Throw (TypeError
             match parsed with
             | VNull => "Cannot read properties of null (reading 'artifacts')"
             | VUndefined => "Cannot read properties of undefined (reading 'artifacts')"
             | _ => "Cannot set properties of undefined (setting 'raw_output')"
             end), w2).
Proof.
  intros Htext Hparse Hprim Hstored.
  rewrite (analyzeAudit_with_answer _ _ _ _ _ _ _ _ _ Htext Hstored), Hparse.
  destruct parsed; try discriminate Hprim; reflexivity.
Qed.

Lemma audit_of_json_primitive_witness :
  fst (analyzeAudit sample_cfg
         (scripted_env (make_report "audit" "pending") (answers "null") [])
         (make_report "audit" "pending") "r1-1700000000000" initial_world)
  = Throw (TypeError "Cannot read properties of null (reading 'artifacts')").
Proof.
  set (env := scripted_env (make_report "audit" "pending") (answers "null") []).
  set (report := make_report "audit" "pending").
  pose (w1 := snd (callHFTextModel sample_cfg env
                     (audit_prompt (or_else (get report "metadata") (VObject [])))
                     (HF_AUDIT_MODEL sample_cfg) initial_world)).
  pose (rawLocal := path_join (TEMP_DIR sample_cfg) "audit-raw-r1-1700000000000.txt").
  pose (w2 := snd (uploadToGCS sample_cfg env rawLocal
                     "diagnostics/audit-raw-r1-1700000000000.txt"
                     {| log := (log w1 ++ [FsMkdir (TEMP_DIR sample_cfg);
                                           FsWriteFile rawLocal "null"])%list;
                        toCleanup := (toCleanup w1 ++ [rawLocal])%list |})).
  rewrite (audit_of_json_primitive sample_cfg env report
             "r1-1700000000000" initial_world "null" w1
             "gs://aethra-bucket/diagnostics/audit-raw-r1-1700000000000.txt" w2 VNull
             ltac:(vm_compute; reflexivity)
             ltac:(vm_compute; reflexivity)
             ltac:(reflexivity)
             ltac:(repeat split; vm_compute; reflexivity)).
  reflexivity.
Defined.

(** *** The aggregate's confidence and counts *)

Lemma round64_between (q : Q) (A B : Z) :
  0 <= A <= B -> B < 2 ^ 53 ->
  (inject_Z A <= q <= inject_Z B)%Q ->
  exists x, round64 q = Finite x /\ (inject_Z A <= x <= inject_Z B)%Q.
Proof.
  intros HAB HB [Hlo Hhi]. destruct q as [n d].
  unfold round64. cbn [Qnum Qden].
  unfold Qle in Hlo, Hhi. cbn [Qnum Qden inject_Z] in Hlo, Hhi.
  destruct n as [|p|p]; try lia.
  - exists 0%Q. split; [reflexivity|].
    assert (A = 0) by lia. subst A.
    split; [apply Qle_refl|]. unfold Qle. simpl. lia.
  - assert (HBpos : 0 < B) by nia.
    destruct (round64_pos_mono (Zpos p) (Zpos d) B 1 (inject_Z B))
      as (r1 & Er1 & Hr1); try lia.
    { apply round64_pos_integer. lia. }
    exists r1. split; [exact Er1|]. split; [|exact Hr1].
    destruct (Z.eq_dec A 0) as [->|HA].
    + destruct (round64_pos_cases (Zpos p) (Zpos d) ltac:(lia) ltac:(lia))
        as [(r' & Er' & Hr' & _)|[Ei _]]; [|congruence].
      rewrite Er1 in Er'. injection Er' as <-. rewrite Hr', Qred_correct.
      unfold value64. apply Qmult_le_0_compat.
      * change 0%Q with (inject_Z 0). rewrite <- Zle_Qle. apply mantissa_nonneg; lia.
      * apply Qlt_le_weak, two_power_pos.
    + destruct (round64_pos_mono A 1 (Zpos p) (Zpos d) r1)
        as (r0 & Er0 & Hr0); try lia; [exact Er1|].
      rewrite round64_pos_integer in Er0 by lia. injection Er0 as <-. exact Hr0.
Qed.

Lemma ratio_estimate_bounds r :
  (0 <= r <= 1)%Q ->
  exists k, ratio_estimate (Finite r) = Finite (inject_Z k) /\ 40 <= k <= 100.
Proof.
  intros [Hr0 Hr1]. unfold ratio_estimate.
  change (of_Z 100) with (Finite (inject_Z 100)).
  change (of_Z 40) with (Finite (inject_Z 40)).
  cbn [mul].
  destruct (round64_between (r * inject_Z 100) 0 100) as (x1 & -> & Hx1a & Hx1b);
    [lia|lia| |].
  { split.
    - apply Qmult_le_0_compat; [exact Hr0|discriminate].
    - setoid_replace (inject_Z 100) with (1 * inject_Z 100)%Q at 2 by ring.
      apply Qmult_le_compat_r; [exact Hr1|discriminate]. }
  cbn [add].
  destruct (round64_between (x1 + inject_Z 40) 40 140) as (x2 & -> & Hx2a & Hx2b);
    [lia|lia| |].
  { split.
    - setoid_replace (inject_Z 40) with (inject_Z 0 + inject_Z 40)%Q at 1 by ring.
      apply Qplus_le_compat; [exact Hx1a|apply Qle_refl].
    - setoid_replace (inject_Z 140) with (inject_Z 100 + inject_Z 40)%Q by reflexivity.
      apply Qplus_le_compat; [exact Hx1b|apply Qle_refl]. }
  assert (Hmax : exists v, Math_max (Finite (inject_Z 40)) (Finite x2) = Finite v
                           /\ (inject_Z 40 <= v <= inject_Z 140)%Q).
  { unfold Math_max. cbn [is_NaN orb].
    destruct (lt (Finite (inject_Z 40)) (Finite x2)).
    - exists x2. auto.
    - exists (inject_Z 40). split; [reflexivity|]. split; [apply Qle_refl|discriminate]. }
  destruct Hmax as (v & -> & Hva & Hvb).
  assert (Hmin : exists u, Math_min (Finite (inject_Z 100)) (Finite v) = Finite u
                           /\ (inject_Z 40 <= u <= inject_Z 100)%Q).
  { unfold Math_min. cbn [is_NaN orb]. unfold lt.
    destruct (Qlt_le_dec v (inject_Z 100)) as [Hlt|Hge].
    - exists v. split; [reflexivity|]. split; [exact Hva|apply Qlt_le_weak, Hlt].
    - exists (inject_Z 100). split; [reflexivity|]. split; [discriminate|apply Qle_refl]. }
  destruct Hmin as (u & -> & Hua & Hub).
  cbn [Math_round]. eexists. split; [reflexivity|]. split.
  - rewrite <- (Qfloor_Z 40). apply Qfloor_resp_le.
    apply Qle_trans with u; [exact Hua|].
    setoid_replace u with (u + 0)%Q at 1 by ring.
    apply Qplus_le_compat; [apply Qle_refl|discriminate].
  - assert (H : (u + (1 # 2) <= inject_Z 100 + (1 # 2))%Q).
    { apply Qplus_le_compat; [exact Hub|apply Qle_refl]. }
    apply Qfloor_resp_le in H.
    change (Qfloor (inject_Z 100 + (1 # 2))) with 100 in H. exact H.
Qed.

(** X12.  When no frame result yields a confidence sample, or the rounded average
    of the samples is 0 or NaN, the confidence of the aggregate is an integer
    between 40 and 100 (for a sequence shorter than 2^32, the bound on the
    length of an array). *)
Theorem fallback_confidence_between_40_and_100 frs a :
  Z.of_nat (List.length frs) < 2 ^ 32 ->
  aggregateFrameResults frs = Return a ->
  match avgConf a with
  | None => True
  | Some average => number_truthy average = false
  end ->
  exists k, confidence a = Finite (inject_Z k) /\ 40 <= k <= 100.
Proof.
  intros Hlen Ha Havg.
  destruct (ratio_within_unit_interval _ _ Hlen Ha) as (r & Er & Hr).
  destruct (aggregate_returns _ _ Ha) as (t & _ & ->).
  unfold summarize in *. cbn [confidence ratio avgConf] in *.
  rewrite Er.
  destruct (confidences t).
  - apply ratio_estimate_bounds. exact Hr.
  - rewrite Havg. apply ratio_estimate_bounds. exact Hr.
Qed.

Lemma fallback_confidence_between_40_and_100_witness :
  exists k,
    option_map confidence
      (match aggregateFrameResults one_fake_in_three_texts with
       | Return a => Some a
       | Throw _ => None
       end)
    = Some (Finite (inject_Z k)) /\ 40 <= k <= 100.
Proof.
  destruct (aggregateFrameResults one_fake_in_three_texts) as [a|e] eqn:Ha;
    [|vm_compute in Ha; discriminate Ha].
  destruct (fallback_confidence_between_40_and_100 one_fake_in_three_texts a
              ltac:(vm_compute; reflexivity) Ha
              ltac:(vm_compute in Ha; injection Ha as <-; exact I))
    as (k & Hk & Hrange).
  exists k. simpl. rewrite Hk. split; [reflexivity|exact Hrange].
Defined.

(** X13.  The counts of an aggregate fit together: [total] is the number of frame
    results, 1 for none; the fake votes do not exceed the number of frame
    results; the ratio is a number between 0 and 1 (for a sequence shorter
    than 2^32). *)
Theorem aggregate_counts_are_consistent frs a :
  Z.of_nat (List.length frs) < 2 ^ 32 ->
  aggregateFrameResults frs = Return a ->
  total a = Nat.max 1 (List.length frs)
  /\ (fakeVotes a <= List.length frs)%nat
  /\ exists r, ratio a = Finite r /\ (0 <= r <= 1)%Q.
Proof.
  intros Hlen Ha.
  split; [|split; [|exact (ratio_within_unit_interval _ _ Hlen Ha)]];
    destruct (aggregate_returns _ _ Ha) as (t & Ht & ->);
    apply tally_frames_votes in Ht; cbn [votes no_votes] in Ht;
    unfold summarize; cbn [total fakeVotes].
  - destruct (List.length frs) as [|[|n]]; reflexivity.
  - lia.
Qed.

Lemma aggregate_counts_are_consistent_witness :
  exists a,
    aggregateFrameResults two_fake_one_real = Return a
    /\ total a = 3%nat /\ (fakeVotes a <= 3)%nat
    /\ exists r, ratio a = Finite r /\ (0 <= r <= 1)%Q.
Proof.
  destruct (aggregateFrameResults two_fake_one_real) as [a|e] eqn:Ha;
    [|vm_compute in Ha; discriminate Ha].
  exists a. split; [reflexivity|].
  exact (aggregate_counts_are_consistent two_fake_one_real a
           ltac:(vm_compute; reflexivity) Ha).
Defined.

(** X14.  The aggregate's counts, ratio and verdict do not depend on the order of
    the frame results: a reordered sequence that the aggregator accepts gives
    the same fake votes, total, ratio and verdict. *)
Theorem verdict_ignores_frame_order frs frs' a :
  Permutation frs frs' ->
  aggregateFrameResults frs = Return a ->
  exists a',
    aggregateFrameResults frs' = Return a'
    /\ fakeVotes a' = fakeVotes a /\ total a' = total a
    /\ ratio a' = ratio a /\ verdict a' = verdict a.
Proof.
  intros Hp Ha.
  destruct (aggregate_returns _ _ Ha) as (t & Ht & ->).
  destruct (tally_frames_permutation _ _ Hp _ _ Ht) as (t'' & Ht'' & Hv).
  unfold aggregateFrameResults. rewrite Ht''.
  eexists. split; [reflexivity|].
  rewrite <- (Permutation_length Hp).
  unfold summarize. cbn [fakeVotes total ratio verdict]. rewrite Hv.
  repeat split; reflexivity.
Qed.

Lemma verdict_ignores_frame_order_witness :
  exists a',
    aggregateFrameResults (rev two_fake_one_real) = Return a'
    /\ fakeVotes a' = 2%nat /\ total a' = 3%nat
    /\ ratio a' = round64 (2 # 3) /\ verdict a' = likely_fake.
Proof.
  apply (verdict_ignores_frame_order two_fake_one_real (rev two_fake_one_real)
           {| verdict := likely_fake;
              confidence := Finite 87;
              ratio := round64 (2 # 3);
              fakeVotes := 2;
              total := 3;
              avgConf := Some (Finite 87) |}).
  - apply Permutation_rev.
  - vm_compute. reflexivity.
Defined.

(** *** Keywords in textual frame results *)

Lemma append_assoc (a b c : string) : (a ++ b) ++ c = a ++ (b ++ c).
Proof. induction a as [|x a IH]; simpl; [reflexivity|]. rewrite IH. reflexivity. Qed.

Lemma prefix_append n s q :
  String.prefix n s = true -> String.prefix n (s ++ q) = true.
Proof.
  revert s. induction n as [|a n IH]; intros s H;
    [destruct (s ++ q); reflexivity|].
  destruct s as [|b s]; simpl in *; [discriminate|].
  destruct (ascii_dec a b); [apply IH; exact H|discriminate].
Qed.

Lemma includes_of_prefix s n : startsWith s n = true -> includes s n = true.
Proof. intros H. destruct s; cbn [includes]; rewrite H; reflexivity. Qed.

Lemma includes_append_l s q n :
  includes s n = true -> includes (s ++ q) n = true.
Proof.
  induction s as [|c s IH]; cbn [includes String.append]; intros H.
  - rewrite orb_false_r in H. apply includes_of_prefix.
    unfold startsWith in *. apply (prefix_append n "" q H).
  - apply orb_true_iff in H. destruct H as [H|H].
    + unfold startsWith in *.
      pose proof (prefix_append n (String c s) q H) as P.
      cbn [String.append] in P. rewrite P. reflexivity.
    + rewrite (IH H). apply orb_true_r.
Qed.

Lemma includes_append_r p s n :
  includes s n = true -> includes (p ++ s) n = true.
Proof.
  intros H. induction p as [|c p IH]; cbn [includes String.append]; [exact H|].
  rewrite IH. apply orb_true_r.
Qed.

Lemma toLowerCase_append a b :
  toLowerCase (a ++ b) = toLowerCase a ++ toLowerCase b.
Proof. induction a as [|c a IH]; simpl; [reflexivity|]. rewrite IH. reflexivity. Qed.

(** A character that lower-cases to a letter is a letter, which
    [JSON.stringify] copies as it is. *)
Lemma quote_char_letter c :
  is_lower_letter (lower_char c) = true -> quote_char c = String c "".
Proof.
  destruct c as [[] [] [] [] [] [] [] []]; intros H;
    solve [reflexivity | discriminate H].
Qed.

Lemma prefix_lower_quote n : forall s,
  all_chars is_lower_letter n = true ->
  String.prefix n (toLowerCase s) = true ->
  String.prefix n (toLowerCase (quote_chars s)) = true.
Proof.
  induction n as [|a n IH]; intros s Hn H;
    [destruct (toLowerCase (quote_chars s)); reflexivity|].
  destruct s as [|c s]; [discriminate H|].
  cbn [all_chars] in Hn. apply andb_true_iff in Hn. destruct Hn as [Ha Hn].
  cbn [toLowerCase String.prefix] in H.
  destruct (ascii_dec a (lower_char c)) as [->|]; [|discriminate H].
  cbn [quote_chars]. rewrite (quote_char_letter c Ha).
  cbn [String.append toLowerCase String.prefix].
  destruct (ascii_dec (lower_char c) (lower_char c)); [|congruence].
  apply IH; assumption.
Qed.

(** A lower-case word found in a text, case ignored, is found in the JSON
    string literal of that text as well. *)
Lemma includes_lower_quote n s :
  all_chars is_lower_letter n = true ->
  includes (toLowerCase s) n = true ->
  includes (toLowerCase (quote_chars s)) n = true.
Proof.
  intros Hn. induction s as [|c s IH]; intros H.
  - exact H.
  - cbn [toLowerCase includes] in H. apply orb_true_iff in H. destruct H as [H|H].
    + apply includes_of_prefix. unfold startsWith in *.
      apply (prefix_lower_quote n (String c s) Hn H).
    + cbn [quote_chars]. rewrite toLowerCase_append.
      apply includes_append_r, IH, H.
Qed.

Lemma mentions_fake_lower_quote s :
  mentions_fake (toLowerCase s) = true ->
  mentions_fake (toLowerCase (quote_chars s)) = true.
Proof.
  unfold mentions_fake. intros H.
  apply orb_true_iff in H. destruct H as [H|H];
    [apply orb_true_iff in H; destruct H as [H|H]|].
  - rewrite (includes_lower_quote "fake" s eq_refl H). reflexivity.
  - rewrite (includes_lower_quote "synthetic" s eq_refl H).
    rewrite orb_true_r. reflexivity.
  - rewrite (includes_lower_quote "manipul" s eq_refl H). apply orb_true_r.
Qed.

Lemma mentions_fake_inside a m b :
  mentions_fake m = true -> mentions_fake (a ++ m ++ b) = true.
Proof.
  unfold mentions_fake. intros H.
  apply orb_true_iff in H. destruct H as [H|H];
    [apply orb_true_iff in H; destruct H as [H|H]|].
  - rewrite (includes_append_r a _ _ (includes_append_l m b _ H)). reflexivity.
  - rewrite (includes_append_r a _ _ (includes_append_l m b _ H)).
    rewrite orb_true_r. reflexivity.
  - rewrite (includes_append_r a _ _ (includes_append_l m b _ H)). apply orb_true_r.
Qed.

(** X15.  A frame result whose classification failed, or whose classifier answered
    with a plain string, is counted by its JSON text: when the error message
    or the answer mentions fake, synthetic or manipul, in any letter case,
    the frame casts a fake vote, and it adds no confidence sample. *)
Theorem textual_frame_result_votes_by_keyword
  (key f message : string) (t : tally) :
  key = "error" \/ key = "classifier" ->
  mentions_fake (toLowerCase message) = true ->
  frame_entry (VObject [("frame", VString f); (key, VString message)]) t
  = Return {| votes := S (votes t); confidences := confidences t |}.
Proof.
  intros Hkey Hm.
  assert (Hentry :
    frame_entry (VObject [("frame", VString f); (key, VString message)]) t
    = Return (unstructured_entry
                (VObject [("frame", VString f); (key, VString message)]) t)).
  { destruct Hkey as [->| ->]; unfold frame_entry; cbn [truthy negb get lookup];
      simpl String.eqb; cbn [truthy isArray andb]; try reflexivity.
    rewrite andb_false_r. reflexivity. }
  rewrite Hentry. unfold unstructured_entry.
  assert (Htext :
    text_of (JSON_stringify (VObject [("frame", VString f); (key, VString message)]))
    = ("{" ++ quote "frame" ++ ":" ++ quote f ++ "," ++ quote key ++ ":" ++ dquote)
      ++ quote_chars message ++ (dquote ++ "}")).
  { unfold JSON_stringify. cbn [serialize]. simpl String.eqb. cbn [join text_of].
    unfold quote. rewrite !append_assoc. reflexivity. }
  rewrite Htext, !toLowerCase_append.
  unfold cast_vote.
  rewrite (mentions_fake_inside _ _ _ (mentions_fake_lower_quote _ Hm)).
  reflexivity.
Qed.

Lemma textual_frame_result_votes_by_keyword_witness :
  frame_entry
    (VObject [("frame", VString "frame-000001.jpg");
              ("error", VString "Model acme/deepFAKE-detector is currently loading")])
    no_votes
  = Return {| votes := 1; confidences := [] |}.
Proof.
  apply (textual_frame_result_votes_by_keyword "error" "frame-000001.jpg"
           "Model acme/deepFAKE-detector is currently loading" no_votes).
  - left. reflexivity.
  - vm_compute. reflexivity.
Defined.

(** *** Where the aggregator cannot throw *)

Lemma ToNumber_primitive v :
  is_json_primitive v = true -> exists x, ToNumber v = Return x.
Proof.
  destruct v as [| |[]| | | |]; intros H; try discriminate H; eexists; reflexivity.
Qed.

Lemma frame_entry_returns fr t :
  plain_top_entry fr = true -> exists t', frame_entry fr t = Return t'.
Proof.
  unfold plain_top_entry. intros H. apply andb_true_iff in H. destruct H as [Hl Hs].
  unfold frame_entry.
  destruct (negb (truthy fr)); [eexists; reflexivity|].
  destruct (truthy (get fr "classifier") && isArray (get fr "classifier"));
    [|eexists; reflexivity].
  unfold structured_entry.
  destruct (truthy (index0 (get fr "classifier"))
            && truthy (get (index0 (get fr "classifier")) "label"));
    [|eexists; reflexivity].
  assert (Hlab : exists s,
             label_toString (get (index0 (get fr "classifier")) "label") = Return s).
  { destruct (get (index0 (get fr "classifier")) "label") as [| |[]| | | |];
      try discriminate Hl; eexists; reflexivity. }
  destruct Hlab as (s & ->).
  destruct (truthy (get (index0 (get fr "classifier")) "score"));
    [|eexists; reflexivity].
  destruct (ToNumber_primitive _ Hs) as (x & ->). eexists. reflexivity.
Qed.

(** X16.  The aggregator does not throw on a sequence in which every frame
    result's top label and top score are primitives or missing, whatever
    else the frame results hold: strings, error markers, objects of any
    shape, [null]. *)
Theorem aggregator_returns_on_plain_entries (frameResults : list value) :
  Forall (fun fr => plain_top_entry fr = true) frameResults ->
  exists a, aggregateFrameResults frameResults = Return a.
Proof.
  intros H. unfold aggregateFrameResults.
  assert (Ht : forall t, exists t', tally_frames frameResults t = Return t').
  { induction H as [|fr rest Hfr _ IH]; intros t; simpl.
    - eexists. reflexivity.
    - destruct (frame_entry_returns fr t Hfr) as (t1 & ->). apply IH. }
  destruct (Ht no_votes) as (t' & ->). eexists. reflexivity.
Qed.

Lemma aggregator_returns_on_plain_entries_witness :
  exists a, aggregateFrameResults two_fake_one_real = Return a.
Proof.
  apply (aggregator_returns_on_plain_entries two_fake_one_real).
  repeat constructor.
Defined.

(** *** Storage URIs, frame extraction and the report fallback *)

Lemma span_until_slash bucket rest :
  all_chars (fun c => negb (is_slash c)) bucket = true ->
  span (fun c => negb (is_slash c)) (bucket ++ "/" ++ rest)
  = (bucket, "/" ++ rest).
Proof.
  induction bucket as [|c b IH]; intros H.
  - reflexivity.
  - cbn [all_chars] in H. apply andb_true_iff in H. destruct H as [Hc Hb].
    cbn [String.append span]. rewrite Hc.
    change (b ++ String "/" rest) with (b ++ "/" ++ rest).
    rewrite (IH Hb). reflexivity.
Qed.

(** X17.  The URI [uploadToGCS] returns is one [downloadFromGCS] accepts, and it
    reads back as the bucket and the destination the upload was given: for a
    bucket name that is not empty and has no slash, and a destination that
    is not empty and has no line break. *)
Theorem uploaded_uri_reads_back cfg env localPath destName w uri w' :
  uploadToGCS cfg env localPath destName w = (Return uri, w') ->
  GCS_BUCKET cfg <> "" ->
  all_chars (fun c => negb (is_slash c)) (GCS_BUCKET cfg) = true ->
  destName <> "" ->
  has_line_terminator destName = false ->
  match_gs_uri uri = Some (GCS_BUCKET cfg, destName).
Proof.
  intros Hup Hb Hslash Hd Hlt.
  assert (Huri : uri = "gs://" ++ GCS_BUCKET cfg ++ "/" ++ destName).
  { exact (proj1 (uploadToGCS_returns _ _ _ _ _ _ _ Hup Hd)). }
  subst uri. unfold match_gs_uri.
  change (startsWith ("gs://" ++ GCS_BUCKET cfg ++ "/" ++ destName) "gs://")
    with (startsWith (String "g" (String "s" (String ":" (String "/" (String "/"
            (GCS_BUCKET cfg ++ "/" ++ destName)))))) "gs://").
  unfold startsWith. cbn [String.prefix].
  repeat (match goal with
          | |- context [ascii_dec ?a ?a] =>
              destruct (ascii_dec a a); [|congruence]
          end).
  assert (Hp : String.prefix "" (GCS_BUCKET cfg ++ "/" ++ destName) = true).
  { destruct (GCS_BUCKET cfg ++ "/" ++ destName); reflexivity. }
  rewrite Hp.
  change (drop 5 ("gs://" ++ GCS_BUCKET cfg ++ "/" ++ destName))
    with (GCS_BUCKET cfg ++ "/" ++ destName).
  rewrite (span_until_slash _ _ Hslash).
  destruct (GCS_BUCKET cfg) as [|b0 b]; [congruence|].
  destruct destName as [|d0 d]; [congruence|].
  cbn [String.append]. rewrite Hlt. reflexivity.
Qed.

Lemma uploaded_uri_reads_back_witness :
  uploadToGCS sample_cfg (scripted_env VNull not_json [])
    "./tmp/diag-deepfake-r1.json" "diagnostics/deepfake-r1.json" initial_world
  = (Return "gs://aethra-bucket/diagnostics/deepfake-r1.json",
     {| log := [GcsUpload "aethra-bucket" "./tmp/diag-deepfake-r1.json"
                  "diagnostics/deepfake-r1.json"];
        toCleanup := [] |})
  /\ match_gs_uri "gs://aethra-bucket/diagnostics/deepfake-r1.json"
     = Some ("aethra-bucket", "diagnostics/deepfake-r1.json").
Proof.
  split; [reflexivity|].
  apply (uploaded_uri_reads_back sample_cfg (scripted_env VNull not_json [])
           "./tmp/diag-deepfake-r1.json" "diagnostics/deepfake-r1.json"
           initial_world "gs://aethra-bucket/diagnostics/deepfake-r1.json"
           {| log := [GcsUpload "aethra-bucket" "./tmp/diag-deepfake-r1.json"
                        "diagnostics/deepfake-r1.json"];
              toCleanup := [] |}).
  - reflexivity.
  - discriminate.
  - reflexivity.
  - discriminate.
  - reflexivity.
Defined.

(** X18.  [extractFrames] returns frames only after ffmpeg started and exited
    with code 0;
    the frames are then the entries of the output directory whose names end
    in [.jpg] or [.png], in the order of the listing, each joined to the
    directory; nothing is recorded but the mkdir, the spawn and the listing. *)
Theorem extracted_frames_follow_a_clean_exit
  env videoPath outDir fps w (frames : list string) w' :
  let args :=
    ["-y"; "-i"; videoPath; "-vf"; "fps=" ++ number_to_string fps;
     path_join outDir "frame-%06d.jpg"] in
  extractFrames env videoPath outDir fps w = (Return frames, w') ->
  exists files,
    ffmpeg_spawn env (log w ++ [FsMkdir outDir; SpawnFfmpeg args])%list = Starts
    /\ ffmpeg_exit env (log w ++ [FsMkdir outDir; SpawnFfmpeg args])%list = Some 0
    /\ log w' = (log w ++ [FsMkdir outDir; SpawnFfmpeg args; FsReaddir outDir])%list
    /\ readdir_result env (log w') = Return files
    /\ frames = map (path_join outDir) (filter is_frame_file files)
    /\ Forall (fun p => exists f, In f files /\ p = path_join outDir f
                                  /\ (endsWith f ".jpg" = true \/ endsWith f ".png" = true))
         frames.
Proof.
  intros args. unfold extractFrames. fold args.
  unfold bind at 1, perform at 1.
  destruct (io_result env (log (record_event (FsMkdir outDir) w))); [|discriminate].
  unfold bind at 1, spawn_ffmpeg at 1.
  change (log (record_event (SpawnFfmpeg args) (record_event (FsMkdir outDir) w)))
    with ((log w ++ [FsMkdir outDir]) ++ [SpawnFfmpeg args])%list.
  rewrite <- app_assoc. cbn [app].
  destruct (ffmpeg_spawn env (log w ++ [FsMkdir outDir; SpawnFfmpeg args])%list)
    eqn:Espawn; try discriminate.
  destruct (ffmpeg_exit env (log w ++ [FsMkdir outDir; SpawnFfmpeg args])%list)
    as [[| |]|] eqn:Ecode; try discriminate.
  unfold bind, perform.
  change (log (record_event (FsReaddir outDir)
                 (record_event (SpawnFfmpeg args) (record_event (FsMkdir outDir) w))))
    with (((log w ++ [FsMkdir outDir]) ++ [SpawnFfmpeg args]) ++ [FsReaddir outDir])%list.
  rewrite <- !app_assoc. cbn [app].
  destruct (readdir_result env _) as [files|e] eqn:Efiles; [|discriminate].
  unfold ret. intros H. injection H as <- <-.
  exists files. split; [reflexivity|]. split; [reflexivity|].
  assert (Hlog : log (record_event (FsReaddir outDir)
                 (record_event (SpawnFfmpeg args) (record_event (FsMkdir outDir) w)))
          = (log w ++ [FsMkdir outDir; SpawnFfmpeg args; FsReaddir outDir])%list).
  { unfold record_event. cbn [log]. rewrite <- !app_assoc. reflexivity. }
  split; [exact Hlog|]. rewrite Hlog. split; [exact Efiles|]. split; [reflexivity|].
  apply Forall_forall. intros p Hp. apply in_map_iff in Hp.
  destruct Hp as (f & <- & Hf). apply filter_In in Hf. destruct Hf as [Hin Hext].
  exists f. split; [exact Hin|]. split; [reflexivity|].
  unfold is_frame_file in Hext. apply orb_true_iff in Hext. exact Hext.
Qed.

Lemma extracted_frames_follow_a_clean_exit_witness :
  exists files,
    readdir_result
      (scripted_env VNull not_json ["frame-000001.jpg"; "notes.txt"; "frame-000002.jpg"])
      (log (snd (extractFrames
                   (scripted_env VNull not_json
                      ["frame-000001.jpg"; "notes.txt"; "frame-000002.jpg"])
                   "./tmp/clip.mp4" "./tmp/frames-r1" (of_Z 1) initial_world)))
    = Return files
    /\ ["tmp/frames-r1/frame-000001.jpg"; "tmp/frames-r1/frame-000002.jpg"]
       = map (path_join "./tmp/frames-r1") (filter is_frame_file files).
Proof.
  destruct (extracted_frames_follow_a_clean_exit
              (scripted_env VNull not_json
                 ["frame-000001.jpg"; "notes.txt"; "frame-000002.jpg"])
              "./tmp/clip.mp4" "./tmp/frames-r1" (of_Z 1) initial_world
              ["tmp/frames-r1/frame-000001.jpg"; "tmp/frames-r1/frame-000002.jpg"]
              (snd (extractFrames
                      (scripted_env VNull not_json
                         ["frame-000001.jpg"; "notes.txt"; "frame-000002.jpg"])
                      "./tmp/clip.mp4" "./tmp/frames-r1" (of_Z 1) initial_world))
              ltac:(vm_compute; reflexivity))
    as (files & _ & _ & _ & Hfiles & Hframes & _).
  exists files. split; [exact Hfiles|exact Hframes].
Defined.

(** X19.  When the report model's answer is a string that is not JSON, the
    deepfake result is built from the aggregator: its verdict and confidence
    are the aggregate's, and its summary is the first 1000 characters of the
    answer, or the default sentence when the answer is empty. *)
Theorem unparsable_report_defers_to_the_aggregate
  cfg (text : string) agg (sampleSummaries : list string)
  (frameResults : list value) (sampled : nat) (artifactUri : string)
  (annotations : list value) :
  parse_text text = None ->
  traverse frame_annotation (firstn 3 frameResults) = Return annotations ->
  exists parsedReport result,
    parse_report (VString text) agg sampleSummaries = Return parsedReport
    /\ deepfake_result cfg parsedReport agg frameResults sampled artifactUri
       = Return result
    /\ get result "verdict" = VString (verdict_text (verdict agg))
    /\ get result "confidence" = VNumber (confidence agg)
    /\ get result "summary"
       = VString (if String.eqb text "" then
                    "Deepfake analysis: " ++ verdict_text (verdict agg)
                    ++ " (conf " ++ number_to_string (confidence agg) ++ ")"
                  else slice0 1000 text)
    /\ get result "frame_annotations" = VArray annotations.
Proof.
  intros Hparse Hann.
  unfold parse_report. cbn [typeof_object is_string]. unfold JSON_parse.
  cbn [ToString]. rewrite Hparse. cbn [method_toString ToString obind].
  eexists. eexists. split; [reflexivity|].
  unfold deepfake_result. cbn [get_checked obind]. rewrite Hann. cbn [obind].
  split; [reflexivity|].
  split.
  { cbn [get lookup]. simpl String.eqb. cbn [get lookup]. simpl String.eqb.
    unfold or_else. destruct (verdict agg); reflexivity. }
  split.
  { cbn [get lookup]. simpl String.eqb. cbn [get lookup]. simpl String.eqb.
    unfold or_else. destruct (truthy (VNumber (confidence agg))); reflexivity. }
  split.
  { cbn [get lookup]. simpl String.eqb. cbn [get lookup]. simpl String.eqb.
    unfold or_else. destruct text as [|c text]; reflexivity. }
  reflexivity.
Qed.

Lemma unparsable_report_defers_to_the_aggregate_witness :
  exists parsedReport result,
    parse_report (VString "The clip looks edited.") (summarize 3 no_votes) []
    = Return parsedReport
    /\ deepfake_result sample_cfg parsedReport (summarize 3 no_votes)
         two_fake_one_real 3 "gs://aethra-bucket/diagnostics/deepfake-r1.json"
       = Return result
    /\ get result "verdict" = VString "likely_real"
    /\ get result "summary" = VString "The clip looks edited.".
Proof.
  destruct (traverse frame_annotation (firstn 3 two_fake_one_real))
    as [annotations|e] eqn:Hann; [|vm_compute in Hann; discriminate Hann].
  destruct (unparsable_report_defers_to_the_aggregate sample_cfg
              "The clip looks edited." (summarize 3 no_votes) []
              two_fake_one_real 3 "gs://aethra-bucket/diagnostics/deepfake-r1.json"
              annotations ltac:(vm_compute; reflexivity) Hann)
    as (parsedReport & result & Hp & Hr & Hv & _ & Hs & _).
  exists parsedReport, result.
  split; [exact Hp|]. split; [exact Hr|]. split; [exact Hv|exact Hs].
Defined.

(** *** The backend's checks *)

Lemma split_pieces_no_separator sep : forall s,
  includes s sep = false -> split_pieces sep 0 s = [s].
Proof.
  induction s as [|c s IH]; intros H; [reflexivity|].
  cbn [includes] in H. apply orb_false_iff in H. destruct H as [H1 H2].
  cbn [split_pieces]. rewrite H1, (IH H2). reflexivity.
Qed.

Lemma split_pieces_skip sep rest : forall p,
  split_pieces sep (String.length p) (p ++ rest) = split_pieces sep 0 rest.
Proof.
  induction p as [|c p IH]; [reflexivity|].
  cbn [String.length String.append split_pieces]. exact IH.
Qed.

Lemma starts_with_bearer key : startsWith (bearer key) "Bearer " = true.
Proof.
  unfold bearer, startsWith. cbn [String.append String.prefix].
  repeat (match goal with
          | |- context [ascii_dec ?a ?a] =>
              destruct (ascii_dec a a); [|congruence]
          end).
  destruct key; reflexivity.
Qed.

Lemma bearer_token_of_bearer key :
  includes key "Bearer " = false ->
  Backend.bearer_token (bearer key) = trim key.
Proof.
  intros H. unfold Backend.bearer_token, String_split.
  assert (E : split_pieces "Bearer " 0 (bearer key)
              = "" :: split_pieces "Bearer " (String.length "earer ") ("earer " ++ key)).
  { pose proof (starts_with_bearer key) as Hs. unfold bearer in *.
    cbn [String.append] in *. cbn [split_pieces]. rewrite Hs. reflexivity. }
  rewrite E, split_pieces_skip, (split_pieces_no_separator _ _ H). reflexivity.
Qed.

Lemma configured_key_nonempty e k :
  In k (Backend.SERVICE_KEYS e) -> k <> "" /\ Backend.configured e <> "".
Proof.
  unfold Backend.SERVICE_KEYS. intros H. split.
  - apply filter_In in H. destruct H as [_ H].
    intros ->. discriminate H.
  - intros E. rewrite E in H. exact H.
Qed.

Lemma existsb_eqb_In k keys :
  existsb (String.eqb k) keys = true <-> In k keys.
Proof.
  rewrite existsb_exists. split.
  - intros (x & Hx & E). apply String.eqb_eq in E. subst x. exact Hx.
  - intros H. exists k. split; [exact H|apply String.eqb_refl].
Qed.

(** X20.  The worker authenticates with [Authorization: Bearer <SERVICE_KEY>].
    Both backend checks recognise that header as a service request whenever
    the worker's key, trimmed, is one of the configured keys and does not
    itself contain [Bearer ]. *)
Theorem worker_header_is_recognised (cfg : Config) (e : Backend.process_env) :
  In (trim (SERVICE_KEY cfg)) (Backend.SERVICE_KEYS e) ->
  includes (SERVICE_KEY cfg) "Bearer " = false ->
  Backend.verifyWorkerOrUser e (authorization_only (bearer (SERVICE_KEY cfg)))
  = Backend.ServiceRequest
  /\ Backend.verifyServiceKey e (authorization_only (bearer (SERVICE_KEY cfg)))
     = Return Backend.ServiceRequest.
Proof.
  intros Hin Hb.
  destruct (configured_key_nonempty _ _ Hin) as [Hne Hcfg].
  pose proof (proj2 (existsb_eqb_In _ _) Hin) as Hex.
  assert (Hraw : or_else (or_else VUndefined (VString (bearer (SERVICE_KEY cfg))))
                    (VString "")
                 = VString (bearer (SERVICE_KEY cfg))) by reflexivity.
  split.
  - unfold Backend.verifyWorkerOrUser, Backend.getServiceKeyFromHeaders.
    cbn [authorization_only Backend.x_service_key Backend.authorization].
    rewrite Hraw.
    change (truthy (VString (bearer (SERVICE_KEY cfg)))) with true.
    cbn [negb]. rewrite starts_with_bearer, (bearer_token_of_bearer _ Hb).
    unfold Backend.isValidServiceKey.
    destruct (trim (SERVICE_KEY cfg)) as [|c k] eqn:Ek; [congruence|].
    destruct (String.eqb_spec (Backend.configured e) ""); [congruence|].
    rewrite Hex. reflexivity.
  - unfold Backend.verifyServiceKey.
    cbn [authorization_only Backend.x_service_key Backend.authorization].
    rewrite Hraw, starts_with_bearer, (bearer_token_of_bearer _ Hb), Hex.
    destruct (String.eqb_spec (trim (SERVICE_KEY cfg)) ""); [congruence|].
    reflexivity.
Qed.

Lemma worker_header_is_recognised_witness :
  Backend.verifyWorkerOrUser sample_process_env
    (authorization_only "Bearer service-key") = Backend.ServiceRequest
  /\ Backend.verifyServiceKey sample_process_env
       (authorization_only "Bearer service-key") = Return Backend.ServiceRequest.
Proof.
  apply (worker_header_is_recognised sample_cfg sample_process_env).
  - vm_compute. auto.
  - reflexivity.
Defined.

(** X21.  A request passes as a service request only on a non-empty key that is
    one of the configured keys; the empty string is never a configured key,
    and with neither environment variable set no request passes. *)
Theorem service_requests_carry_a_configured_key
  (e : Backend.process_env) (h : Backend.headers) :
  Backend.verifyWorkerOrUser e h = Backend.ServiceRequest ->
  exists key,
    Backend.getServiceKeyFromHeaders h = Some key
    /\ key <> ""
    /\ In key (Backend.SERVICE_KEYS e)
    /\ Backend.configured e <> "".
Proof.
  unfold Backend.verifyWorkerOrUser.
  destruct (Backend.getServiceKeyFromHeaders h) as [[|c k]|]; try discriminate.
  cbn [andb]. unfold Backend.isValidServiceKey.
  destruct (String.eqb_spec (Backend.configured e) ""); [discriminate|].
  destruct (existsb _ _) eqn:Hex; [|discriminate].
  intros _. exists (String c k). split; [reflexivity|]. split; [discriminate|].
  split; [apply existsb_eqb_In; exact Hex|assumption].
Qed.

Lemma service_requests_carry_a_configured_key_witness :
  exists key,
    Backend.getServiceKeyFromHeaders
      {| Backend.x_service_key := VString "ops-key";
         Backend.authorization := VUndefined |} = Some key
    /\ key <> ""
    /\ In key (Backend.SERVICE_KEYS sample_process_env)
    /\ Backend.configured sample_process_env <> "".
Proof.
  apply (service_requests_carry_a_configured_key sample_process_env
           {| Backend.x_service_key := VString "ops-key";
              Backend.authorization := VUndefined |}).
  vm_compute. reflexivity.
Defined.

(** X22.  Every request [verifyServiceKey] lets through is also taken as a
    service request by [verifyWorkerOrUser]. *)
Theorem verifyServiceKey_accepts_no_more
  (e : Backend.process_env) (h : Backend.headers) :
  Backend.verifyServiceKey e h = Return Backend.ServiceRequest ->
  Backend.verifyWorkerOrUser e h = Backend.ServiceRequest.
Proof.
  unfold Backend.verifyServiceKey, Backend.verifyWorkerOrUser,
    Backend.getServiceKeyFromHeaders.
  remember (or_else (or_else (Backend.x_service_key h) (Backend.authorization h))
              (VString "")) as raw eqn:Eraw.
  assert (Hx : truthy (Backend.x_service_key h) = true ->
               raw = Backend.x_service_key h).
  { intros Ht. rewrite Eraw. unfold or_else. rewrite Ht, Ht. reflexivity. }
  clear Eraw.
  destruct raw as [| | | |header| |]; try discriminate.
  assert (Hkey : forall key,
            (String.eqb key "" || negb (existsb (String.eqb key) (Backend.SERVICE_KEYS e)))
            = false ->
            match key with String _ _ => true | "" => false end
            && Backend.isValidServiceKey e (Some key) = true).
  { intros key H. apply orb_false_iff in H. destruct H as [H1 H2].
    apply negb_false_iff in H2.
    destruct key as [|c k]; [discriminate H1|].
    cbn [andb]. unfold Backend.isValidServiceKey.
    pose proof (proj1 (existsb_eqb_In _ _) H2) as Hin.
    destruct (configured_key_nonempty _ _ Hin) as [_ Hcfg].
    destruct (String.eqb_spec (Backend.configured e) ""); [congruence|].
    exact H2. }
  destruct (startsWith header "Bearer ") eqn:Eb.
  - destruct (String.eqb (Backend.bearer_token header) ""
              || negb (existsb (String.eqb (Backend.bearer_token header))
                         (Backend.SERVICE_KEYS e))) eqn:Ek; [discriminate|].
    intros _.
    assert (Ht : truthy (VString header) = true).
    { destruct header; [discriminate Eb|reflexivity]. }
    rewrite Ht. cbn [negb]. rewrite (Hkey _ Ek). reflexivity.
  - destruct (truthy (Backend.x_service_key h)) eqn:Et.
    + rewrite <- (Hx eq_refl). cbn [ToString].
      destruct (String.eqb header ""
                || negb (existsb (String.eqb header) (Backend.SERVICE_KEYS e)))
        eqn:Ek; [discriminate|].
      intros _.
      rewrite <- (Hx eq_refl) in Et. rewrite Et. cbn [negb].
      rewrite (Hkey _ Ek). reflexivity.
    + cbn [String.eqb orb]. discriminate.
Qed.

Lemma verifyServiceKey_accepts_no_more_witness :
  Backend.verifyWorkerOrUser sample_process_env
    {| Backend.x_service_key := VString "ops-key";
       Backend.authorization := VString "Bearer user-token" |}
  = Backend.ServiceRequest.
Proof.
  apply (verifyServiceKey_accepts_no_more sample_process_env
           {| Backend.x_service_key := VString "ops-key";
              Backend.authorization := VString "Bearer user-token" |}).
  vm_compute. reflexivity.
Defined.

(** X23.  The converse fails: a configured key sent bare in [Authorization],
    without the [Bearer ] prefix and without [x-service-key], is taken as a
    service request by [verifyWorkerOrUser] and answered 401 by
    [verifyServiceKey]. *)
Theorem bare_authorization_key_splits_the_checks
  (e : Backend.process_env) (key : string) :
  In key (Backend.SERVICE_KEYS e) ->
  startsWith key "Bearer " = false ->
  Backend.verifyWorkerOrUser e (authorization_only key) = Backend.ServiceRequest
  /\ Backend.verifyServiceKey e (authorization_only key)
     = Return Backend.Unauthorized.
Proof.
  intros Hin Hb.
  destruct (configured_key_nonempty _ _ Hin) as [Hne Hcfg].
  pose proof (proj2 (existsb_eqb_In _ _) Hin) as Hex.
  destruct key as [|c k]; [congruence|].
  assert (Hraw : or_else (or_else VUndefined (VString (String c k))) (VString "")
                 = VString (String c k)) by reflexivity.
  split.
  - unfold Backend.verifyWorkerOrUser, Backend.getServiceKeyFromHeaders.
    cbn [authorization_only Backend.x_service_key Backend.authorization].
    rewrite Hraw. change (truthy (VString (String c k))) with true. cbn [negb].
    rewrite Hb. cbn [andb]. unfold Backend.isValidServiceKey.
    destruct (String.eqb_spec (Backend.configured e) ""); [congruence|].
    rewrite Hex. reflexivity.
  - unfold Backend.verifyServiceKey.
    cbn [authorization_only Backend.x_service_key Backend.authorization].
    rewrite Hraw, Hb. reflexivity.
Qed.

Lemma bare_authorization_key_splits_the_checks_witness :
  Backend.verifyWorkerOrUser sample_process_env (authorization_only "service-key")
  = Backend.ServiceRequest
  /\ Backend.verifyServiceKey sample_process_env (authorization_only "service-key")
     = Return Backend.Unauthorized.
Proof.
  apply (bare_authorization_key_splits_the_checks sample_process_env "service-key").
  - vm_compute. auto.
  - reflexivity.
Defined.

(** X24.  [PATCH /:id] keeps the stored status one of pending, completed and
    failed: a status outside the three, or one that is not a string, leaves
    the stored status as it was, and a falsy result leaves the stored result
    as it was. *)
Theorem update_keeps_the_status_valid
  (body : value) (report report' : Backend.stored_report) :
  Backend.is_status_value (Backend.stored_status report) = true ->
  Backend.apply_update body report = Return report' ->
  Backend.is_status_value (Backend.stored_status report') = true
  /\ (Backend.is_status_value (get body "status") = false ->
      Backend.stored_status report' = Backend.stored_status report)
  /\ (truthy (get body "result") = false ->
      Backend.stored_result report' = Backend.stored_result report).
Proof.
  intros Hvalid. unfold Backend.apply_update.
  assert (H : forall r,
    (if truthy (get body "status") && Backend.is_status_value (get body "status")
     then {| Backend.stored_result :=
               Backend.stored_result
                 (if truthy (get body "result")
                  then {| Backend.stored_result := get body "result";
                          Backend.stored_status := Backend.stored_status report |}
                  else report);
             Backend.stored_status := get body "status" |}
     else if truthy (get body "result")
          then {| Backend.stored_result := get body "result";
                  Backend.stored_status := Backend.stored_status report |}
          else report) = r ->
    Backend.is_status_value (Backend.stored_status r) = true
    /\ (Backend.is_status_value (get body "status") = false ->
        Backend.stored_status r = Backend.stored_status report)
    /\ (truthy (get body "result") = false ->
        Backend.stored_result r = Backend.stored_result report)).
  { intros r <-.
    destruct (truthy (get body "status")) eqn:Ets;
      destruct (Backend.is_status_value (get body "status")) eqn:Es;
      destruct (truthy (get body "result")) eqn:Etr;
      cbn [andb Backend.stored_status Backend.stored_result];
      repeat split; auto; discriminate. }
  destruct body; try discriminate; intros E; injection E as E; apply H; exact E.
Qed.

Lemma update_keeps_the_status_valid_witness :
  exists report',
    Backend.apply_update
      (VObject [("result", VNull); ("status", VString "done")])
      {| Backend.stored_result := VObject []; Backend.stored_status := VString "pending" |}
    = Return report'
    /\ Backend.stored_status report' = VString "pending"
    /\ Backend.stored_result report' = VObject [].
Proof.
  eexists. split; [reflexivity|].
  destruct (update_keeps_the_status_valid
              (VObject [("result", VNull); ("status", VString "done")])
              {| Backend.stored_result := VObject [];
                 Backend.stored_status := VString "pending" |}
              {| Backend.stored_result := VObject [];
                 Backend.stored_status := VString "pending" |}
              ltac:(reflexivity) ltac:(reflexivity)) as (_ & Hs & Hr).
  split; [exact (Hs eq_refl)|exact (Hr eq_refl)].
Defined.

(** X25.  The user-token check never looks at [x-service-key] or at the
    configured service keys.  A request that carries only [x-service-key]
    is answered 401 for a missing token; the header the worker sends,
    [Authorization: Bearer <key>], is handled as a user token: the key,
    trimmed, is what [jwt.verify] is given, and when that rejects it the
    answer is 401 for an invalid token. *)
Theorem service_key_is_no_user_token
  (jwt_verify : string -> outcome value) (key : string) (err : thrown) :
  includes key "Bearer " = false ->
  jwt_verify (trim key) = Throw err ->
  Backend.verifyToken jwt_verify (authorization_only (bearer key))
  = Return Backend.InvalidToken
  /\ forall service_key,
       Backend.verifyToken jwt_verify
         {| Backend.x_service_key := service_key; Backend.authorization := VUndefined |}
       = Return Backend.MissingToken.
Proof.
  intros Hb Hjwt. split.
  - unfold Backend.verifyToken.
    cbn [authorization_only Backend.authorization].
    assert (Hraw : or_else (VString (bearer key)) (VString "") = VString (bearer key))
      by reflexivity.
    rewrite Hraw. cbn [ToString].
    rewrite starts_with_bearer, (bearer_token_of_bearer _ Hb), Hjwt.
    reflexivity.
  - intros service_key. reflexivity.
Qed.

Lemma service_key_is_no_user_token_witness :
  Backend.verifyToken rejects_all (authorization_only "Bearer service-key")
  = Return Backend.InvalidToken.
Proof.
  apply (proj1 (service_key_is_no_user_token rejects_all "service-key"
                  (ThrownError "JsonWebTokenError" "jwt malformed")
                  ltac:(reflexivity) ltac:(reflexivity))).
Defined.

(** X26.  The page size of [GET /reports] is never above 200, never 0 and never
    NaN, whatever [limit] the query holds; it is 50 when the parameter is
    missing, not a number, or 0.  The offset is never NaN.  (A negative
    [limit] or [skip] is passed on as it is.) *)
Theorem page_size_is_capped (limit skip : value) (n m : number) :
  ToNumber limit = Return n ->
  ToNumber skip = Return m ->
  exists size offset,
    Backend.page_limit limit = Return size
    /\ Backend.page_skip skip = Return offset
    /\ gt size (of_Z 200) = false
    /\ number_truthy size = true
    /\ (number_truthy n = false -> size = of_Z 50)
    /\ is_NaN offset = false.
Proof.
  intros Hn Hm. unfold Backend.page_limit, Backend.page_skip.
  rewrite Hn, Hm. cbn [obind].
  eexists. eexists. split; [reflexivity|]. split; [reflexivity|].
  assert (Hsize : forall c, number_truthy c = true ->
            gt (Math_min c (of_Z 200)) (of_Z 200) = false
            /\ number_truthy (Math_min c (of_Z 200)) = true).
  { intros c Hc. unfold Math_min, gt.
    assert (Hnan : is_NaN c = false) by (destruct c; [discriminate Hc|reflexivity..]).
    rewrite Hnan. cbn [orb is_NaN]. change (is_NaN (of_Z 200)) with false. cbn iota.
    destruct (lt (of_Z 200) c) eqn:Hlt.
    - split; reflexivity.
    - split; [exact Hlt|exact Hc]. }
  destruct (number_truthy n) eqn:Ht.
  - destruct (Hsize n Ht) as [H1 H2]. repeat split; try assumption.
    + discriminate.
    + destruct (number_truthy m) eqn:Hm'; [|reflexivity].
      destruct m; [discriminate Hm'|reflexivity..].
  - destruct (Hsize (of_Z 50) eq_refl) as [H1 H2]. repeat split; try assumption.
    destruct (number_truthy m) eqn:Hm'; [|reflexivity].
    destruct m; [discriminate Hm'|reflexivity..].
Qed.

Lemma page_size_is_capped_witness :
  exists size offset,
    Backend.page_limit (VString "1000") = Return size
    /\ Backend.page_skip VUndefined = Return offset
    /\ gt size (of_Z 200) = false
    /\ number_truthy size = true
    /\ (number_truthy (string_to_number "1000") = false -> size = of_Z 50)
    /\ is_NaN offset = false.
Proof.
  exact (page_size_is_capped (VString "1000") VUndefined
           (string_to_number "1000") NaN eq_refl eq_refl).
Defined.
